(** * OSINT aggregator: source-query orchestration

    A shallow embedding of the orchestration core of the OSINT aggregator:
    the [OSINTCollector] helpers (retrying fetch, per-service rate limiter,
    time-boxed cache), the [SourceManager] single-source query with its
    session cache and in-flight marker, and the [OSINTAggregator] fan-out
    with its retry wrapper and summary computation.

    Asynchronous functions are embedded as computations over an explicit
    heap (the mutable fields of the JavaScript objects plus the clock) that
    either return or throw and that record, as a call tree, every wait and
    every call of a function the embedding leaves opaque. An opaque call
    runs as one step. Where a function reads the shared state again after
    an await, what the rest of the page did in the meantime is a parameter
    of its embedding: the scheduler of an aggregation run, which settles
    the dispatched queries and hands back the aggregator object as the
    await left it, and the interference during the sleep of the rate
    limiter. *)

From stdpp Require Import gmap strings list.
From Stdlib Require Import ZArith Permutation.

Local Open Scope Z_scope.
Local Set Warnings "-register-all".

(** ** JavaScript values *)

Module JS.

(** Numbers are the integers plus [NaN]; objects are property tables, read
    first binding first. *)
Inductive JSValue : Type :=
| JUndefined
| JNull
| JBool (b : bool)
| JNumber (n : Z)
| JNaN
| JString (s : string)
| JArray (items : list JSValue)
| JObject (fields : list (string * JSValue))
| JFunction.

Definition Fields : Type := list (string * JSValue).

(** [!!v] is [false] exactly when [truthy v] is. *)
Definition truthy (v : JSValue) : bool :=
  match v with
  | JUndefined | JNull | JNaN => false
  | JBool b => b
  | JNumber n => negb (n =? 0)
  | JString s => negb (String.eqb s "")
  | JArray _ | JObject _ | JFunction => true
  end.

Definition typeof (v : JSValue) : string :=
  match v with
  | JUndefined => "undefined"
  | JNull | JArray _ | JObject _ => "object"
  | JBool _ => "boolean"
  | JNumber _ | JNaN => "number"
  | JString _ => "string"
  | JFunction => "function"
  end.

Fixpoint assoc (key : string) (fields : Fields) : JSValue :=
  match fields with
  | [] => JUndefined
  | (k, v) :: rest => if String.eqb k key then v else assoc key rest
  end.

(** [v.key] for a [v] that is neither [null] nor [undefined]; only plain
    objects carry named properties here. *)
Definition getProp (v : JSValue) (key : string) : JSValue :=
  match v with
  | JObject fields => assoc key fields
  | _ => JUndefined
  end.

Definition hasProp (key : string) (fields : Fields) : Prop :=
  key ∈ fields.*1.

End JS.
Import JS.

(** ** Data model *)

Record Source : Type := {
  src_id : string;
  src_name : string;
  src_type : string;
  src_confidence : Z;
  src_enabled : bool;
  src_rateLimit : option Z
}.

Record Envelope : Type := {
  sourceId : string;
  sourceName : string;
  query : string;
  searchType : string;
  confidence : Z;
  timestamp : Z;
  data : Fields;
  success : bool;
  dataType : option string
}.

Record CacheEntry : Type := {
  c_data : JSValue;
  c_timestamp : Z
}.

(** ** Heap, outcomes and the call tree *)

Record Heap : Type := {
  now : Z;                                   (* Date.now() *)
  cache : gmap string Envelope;              (* SourceManager.cache *)
  activeRequests : gset string;              (* SourceManager.activeRequests *)
  collectorCache : gmap string CacheEntry;   (* OSINTCollector.cache *)
  rateLimits : gmap string Z                 (* OSINTCollector.rateLimits *)
}.

Definition set_now (t : Z) (h : Heap) : Heap :=
  {| now := t; cache := cache h; activeRequests := activeRequests h;
     collectorCache := collectorCache h; rateLimits := rateLimits h |}.

Definition set_cache (c : gmap string Envelope) (h : Heap) : Heap :=
  {| now := now h; cache := c; activeRequests := activeRequests h;
     collectorCache := collectorCache h; rateLimits := rateLimits h |}.

Definition set_activeRequests (a : gset string) (h : Heap) : Heap :=
  {| now := now h; cache := cache h; activeRequests := a;
     collectorCache := collectorCache h; rateLimits := rateLimits h |}.

Definition set_collectorCache (c : gmap string CacheEntry) (h : Heap) : Heap :=
  {| now := now h; cache := cache h; activeRequests := activeRequests h;
     collectorCache := c; rateLimits := rateLimits h |}.

Definition set_rateLimits (r : gmap string Z) (h : Heap) : Heap :=
  {| now := now h; cache := cache h; activeRequests := activeRequests h;
     collectorCache := collectorCache h; rateLimits := r |}.

Definition emptyHeap (t : Z) : Heap :=
  {| now := t; cache := ∅; activeRequests := ∅; collectorCache := ∅;
     rateLimits := ∅ |}.

Inductive Completion (A : Type) : Type :=
| Return (a : A)
| Throw (message : string).
Arguments Return {A} a.
Arguments Throw {A} message.

(** What a computation did, in order: the timers it awaited and the calls
    it made, each call with the time it started and what happened inside. *)
Inductive Event : Type :=
| Slept (ms : Z)
| Called (callee : string) (at_ : Z) (inner : list Event).

Definition Trace : Type := list Event.

Definition M (A : Type) : Type := Heap → Completion A * Heap * Trace.

(** A function the embedding does not look into. *)
Definition Opaque (A : Type) : Type := Heap → Completion A * Heap.

Definition ret {A} (a : A) : M A := λ h, (Return a, h, []).

Definition throw {A} (message : string) : M A := λ h, (Throw message, h, []).

Definition bind {A B} (m : M A) (k : A → M B) : M B := λ h,
  match m h with
  | (Return a, h1, t1) => let '(r, h2, t2) := k a h1 in (r, h2, t1 ++ t2)
  | (Throw e, h1, t1) => (Throw e, h1, t1)
  end.

Notation "'let*' x ':=' m 'in' k" := (bind m (λ x, k))
  (at level 10, x pattern, m at level 100, k at level 200).
Notation "m ';;' k" := (bind m (λ _, k))
  (at level 100, k at level 200, right associativity).

Definition getHeap : M Heap := λ h, (Return h, h, []).

Definition modify (f : Heap → Heap) : M unit := λ h, (Return (), f h, []).

(** try { m } catch (error) { handler error.message } *)
Definition tryCatch {A} (m : M A) (handler : string → M A) : M A := λ h,
  match m h with
  | (Return a, h1, t1) => (Return a, h1, t1)
  | (Throw e, h1, t1) => let '(r, h2, t2) := handler e h1 in (r, h2, t1 ++ t2)
  end.

(** try { m } finally { cleanup } for a [cleanup] that cannot throw. *)
Definition tryFinally {A} (m : M A) (cleanup : Heap → Heap) : M A := λ h,
  let '(r, h1, t1) := m h in (r, cleanup h1, t1).

(** await new Promise(resolve => setTimeout(resolve, ms)): a timer never
    fires early, and a negative delay counts as none. *)
Definition elapse (ms : Z) (h : Heap) : Heap :=
  set_now (now h + Z.max 0 ms) h.

Definition delay (ms : Z) : M unit := λ h,
  (Return (), elapse ms h, [Slept (Z.max 0 ms)]).

(** await f(...) for an opaque [f]. *)
Definition callOpaque {A} (callee : string) (f : Opaque A) : M A := λ h,
  let '(r, h1) := f h in (r, h1, [Called callee (now h) []]).

(** await m for an embedded [m], kept as one node of the call tree. *)
Definition call {A} (callee : string) (m : M A) : M A := λ h,
  let '(r, h1, t) := m h in (r, h1, [Called callee (now h) t]).

Definition isCallTo (callee : string) (e : Event) : bool :=
  match e with
  | Called c _ _ => String.eqb c callee
  | Slept _ => false
  end.

(** How many times the computation itself called [callee]. *)
Definition invocations (callee : string) (t : Trace) : nat :=
  length (List.filter (isCallTo callee) t).

(** The times at which the computation itself called [callee]. *)
Fixpoint callTimes (callee : string) (t : Trace) : list Z :=
  match t with
  | [] => []
  | Called c at_ _ :: rest =>
      if String.eqb c callee then at_ :: callTimes callee rest
      else callTimes callee rest
  | Slept _ :: rest => callTimes callee rest
  end.

(** Milliseconds the computation itself spent in [delay]. *)
Fixpoint waited (t : Trace) : Z :=
  match t with
  | [] => 0
  | Slept ms :: rest => ms + waited rest
  | Called _ _ _ :: rest => waited rest
  end.

(** ** OSINTCollector: retrying fetch, rate limiter, time-boxed cache *)

Module OSINTCollector.

Section Fetch.

Context {Response : Type}.

(** The browser's [fetch], left opaque: it may take time and may reject. *)
Variable fetch : string → Opaque Response.

(** for (let i = 0; i < maxRetries; i++) { ... }, entered at [i] with
    [todo] iterations still to run; falling out of the loop returns
    [undefined], here [None]. *)
Fixpoint fetchLoop (url : string) (maxRetries : nat) (i todo : nat)
  : M (option Response) :=
  match todo with
  | O => ret None
  | S todo' =>
      tryCatch
        (let* response := callOpaque "fetch" (fetch url) in
         ret (Some response))
        (λ error,
           if Nat.eqb i (maxRetries - 1) then throw error
           else (delay (1000 * (Z.of_nat i + 1));;
                 fetchLoop url maxRetries (S i) todo'))
  end.

Definition fetchWithRetry (url : string) (maxRetries : nat)
  : M (option Response) :=
  fetchLoop url maxRetries 0 maxRetries.

End Fetch.

(** The default value of the [maxRetries] parameter. *)
Definition defaultMaxRetries : nat := 3.

(** The call reads the service's record, waits if it must, and only then
    writes the record: [meanwhile] is what the rest of the page, other
    callers of [rateLimit] included, did to the heap during that wait. *)
Definition rateLimit (meanwhile : Heap → Heap) (service : string)
    (minInterval : Z) : M unit :=
  let* h := getHeap in
  let lastRequest := default 0 (rateLimits h !! service) in
  let timeSinceLastRequest := now h - lastRequest in
  (if timeSinceLastRequest <? minInterval
   then (delay (minInterval - timeSinceLastRequest);; modify meanwhile)
   else ret ());;
  modify (λ h', set_rateLimits (<[service := now h']> (rateLimits h')) h').

Definition TTL : Z := 3600000.

Definition getCached (key : string) (h : Heap) : JSValue :=
  match collectorCache h !! key with
  | Some cached =>
      if now h - c_timestamp cached <? TTL then c_data cached else JNull
  | None => JNull
  end.

Definition setCached (key : string) (value : JSValue) (h : Heap) : Heap :=
  set_collectorCache
    (<[key := {| c_data := value; c_timestamp := now h |}]> (collectorCache h))
    h.

End OSINTCollector.

(** ** SourceManager: catalog lookup and the single-source query *)

Module SourceManager.

Record Category : Type := {
  cat_name : string;
  cat_sources : list Source
}.

(** The [categories] object of the catalog document, in key order. *)
Record Catalog : Type := {
  categories : list (string * Category)
}.

Record t : Type := {
  sources : option Catalog;
  initialized : bool
}.

Definition getFallbackSources : Catalog :=
  {| categories :=
       [("email", {| cat_name := "Email Intelligence"; cat_sources := [] |});
        ("domain", {| cat_name := "Domain Intelligence"; cat_sources := [] |});
        ("username", {| cat_name := "Username Intelligence"; cat_sources := [] |});
        ("ip", {| cat_name := "IP Intelligence"; cat_sources := [] |})] |}.

(** categories[searchType], for the category keys of the document. *)
Fixpoint category (searchType : string) (cats : list (string * Category))
  : option Category :=
  match cats with
  | [] => None
  | (key, c) :: rest =>
      if String.eqb key searchType then Some c else category searchType rest
  end.

(** The names every object inherits from [Object.prototype]: looked up on
    the [categories] object they are found, with a value that is truthy and
    has no [sources]. *)
Definition inheritedNames : list string :=
  ["constructor"; "hasOwnProperty"; "isPrototypeOf"; "propertyIsEnumerable";
   "toLocaleString"; "toString"; "valueOf"; "__proto__";
   "__defineGetter__"; "__defineSetter__"; "__lookupGetter__";
   "__lookupSetter__"].

Definition inherited (name : string) : bool :=
  existsb (String.eqb name) inheritedNames.

(** [categories[searchType]] is the category of that key, else what the
    object inherits under that name, else [undefined]; calling [filter] on
    the missing [sources] of an inherited value raises a TypeError. *)
Definition getSourcesForType (sm : t) (searchType : string)
  : Completion (list Source) :=
  match initialized sm, sources sm with
  | true, Some catalog =>
      match category searchType (categories catalog) with
      | Some c => Return (List.filter src_enabled (cat_sources c))
      | None =>
          if inherited searchType
          then Throw "Cannot read properties of undefined (reading 'filter')"
          else Return []
      end
  | _, _ => Return []
  end.

Definition getAllSources (sm : t) : list Source :=
  match initialized sm, sources sm with
  | true, Some catalog =>
      List.flat_map (λ kc, List.filter src_enabled (cat_sources kc.2))
                    (categories catalog)
  | _, _ => []
  end.

Definition findSourceById (sm : t) (id : string) : option Source :=
  List.find (λ source, String.eqb (src_id source) id) (getAllSources sm).

(** A source handler: the category-specific analysis or collector method
    selected by [source.id]. It is opaque and may throw. *)
Definition Handler : Type := Source → string → string → Opaque Fields.

Definition handlerOf (source : Source) : string := "handler:" +:+ src_id source.

Definition envelope (source : Source) (query searchType : string) (at_ : Z)
    (payload : Fields) (ok : bool) (kind : option string) : Envelope :=
  {| sourceId := src_id source; sourceName := src_name source;
     query := query; searchType := searchType;
     confidence := src_confidence source; timestamp := at_;
     data := payload; success := ok; dataType := kind |}.

(** components/source-manager.js. [latency h] stands for the value of
    [300 + Math.random() * 700] drawn in heap [h]. *)
Definition performSelfBuiltAnalysis (latency : Heap → Z) (analysis : Handler)
    (source : Source) (query searchType : string) : M Envelope :=
  let* h0 := getHeap in
  delay (latency h0);;
  tryCatch
    (let* analysisResult :=
       callOpaque (handlerOf source) (analysis source query searchType) in
     let* h := getHeap in
     ret (envelope source query searchType (now h) analysisResult true None))
    (λ error,
       let* h := getHeap in
       ret (envelope source query searchType (now h)
              [("found", JBool false); ("error", JString error);
               ("query", JString query)]
              false None)).

(** The integrated manager, which delegates to the collector. *)
Definition performRealIntelligenceGathering (collector : Handler)
    (source : Source) (query searchType : string) : M Envelope :=
  tryCatch
    (let* intelligenceData :=
       callOpaque (handlerOf source) (collector source query searchType) in
     let* h := getHeap in
     ret (envelope source query searchType (now h) intelligenceData true
            (Some "real_intelligence")))
    (λ error,
       let* h := getHeap in
       ret (envelope source query searchType (now h)
              [("found", JBool false); ("error", JString error);
               ("query", JString query);
               ("collectionMethod", JString "Error handling")]
              false (Some "error"))).

(** What differs between the two managers: how long a query waits when its
    source is already being queried, and how the envelope is gathered. *)
Record Backend : Type := {
  busyDelay : Source → Z;
  gather : Source → string → string → M Envelope
}.

(** source.rateLimit || 1000 *)
Definition rateLimitOr1000 (source : Source) : Z :=
  match src_rateLimit source with
  | Some ms => if ms =? 0 then 1000 else ms
  | None => 1000
  end.

Definition selfBuilt (latency : Heap → Z) (analysis : Handler) : Backend :=
  {| busyDelay := rateLimitOr1000;
     gather := performSelfBuiltAnalysis latency analysis |}.

Definition integrated (collector : Handler) : Backend :=
  {| busyDelay := λ _, 2000;
     gather := performRealIntelligenceGathering collector |}.

Definition cacheKey (sourceId query : string) : string :=
  sourceId +:+ ":" +:+ query.

Definition querySource (b : Backend) (sm : t)
    (sourceId query searchType : string) : M Envelope :=
  match findSourceById sm sourceId with
  | None => throw ("Source not found: " +:+ sourceId)
  | Some source =>
      let* h := getHeap in
      match cache h !! cacheKey sourceId query with
      | Some cached => ret cached
      | None =>
          (if bool_decide (sourceId ∈ activeRequests h)
           then delay (busyDelay b source)
           else ret ());;
          tryFinally
            (modify (λ h', set_activeRequests ({[sourceId]} ∪ activeRequests h') h');;
             let* result := gather b source query searchType in
             modify (λ h', set_cache (<[cacheKey sourceId query := result]> (cache h')) h');;
             ret result)
            (λ h', set_activeRequests (activeRequests h' ∖ {[sourceId]}) h')
      end
  end.

Record Validation : Type := {
  valid : bool;
  reason : option string
}.

Definition validateIntelligence (value : JSValue) : Validation :=
  if negb (truthy value) || negb (String.eqb (typeof value) "object")
  then {| valid := false; reason := Some "Invalid data structure" |}
  else if negb (truthy (getProp value "collectionMethod"))
  then {| valid := false; reason := Some "Missing collection method" |}
  else {| valid := true; reason := None |}.

End SourceManager.

(** ** OSINTAggregator: retry wrapper, fan-out and summary *)

Module OSINTAggregator.

(** The source manager as the aggregator uses it. *)
Record Manager : Type := {
  getSourcesForType : string → Completion (list Source);
  querySource : string → string → string → M Envelope
}.

Definition manage (b : SourceManager.Backend) (sm : SourceManager.t) : Manager :=
  {| getSourcesForType := SourceManager.getSourcesForType sm;
     querySource := SourceManager.querySource b sm |}.

(** The aggregator exists in two builds that share their structure: the
    first one ([performOSINTSearch]) and the one of script.js
    ([performRealIntelligenceGathering]), which staggers dispatch and backs
    off twice as long. *)
Inductive Build : Type := Basic | Staggered.

Definition backoffBase (build : Build) : Z :=
  match build with Basic => 1000 | Staggered => 2000 end.

Definition noSourcesMessage (build : Build) (searchType : string) : string :=
  match build with
  | Basic => "No sources available for " +:+ searchType +:+ " searches"
  | Staggered =>
      "No intelligence sources available for " +:+ searchType +:+ " searches"
  end.

(** for (let attempt = 1; attempt <= maxRetries; attempt++) { ... }, entered
    at [attempt] with [todo] iterations still to run; falling out of the
    loop returns [undefined], here [None]. *)
Fixpoint retryLoop (build : Build) (mgr : Manager)
    (sourceId query searchType : string) (maxRetries : nat)
    (attempt todo : nat) : M (option Envelope) :=
  match todo with
  | O => ret None
  | S todo' =>
      tryCatch
        (let* value :=
           call "querySource" (querySource mgr sourceId query searchType) in
         ret (Some value))
        (λ error,
           if Nat.eqb attempt maxRetries then throw error
           else (delay (backoffBase build * Z.of_nat attempt);;
                 retryLoop build mgr sourceId query searchType maxRetries
                   (S attempt) todo'))
  end.

Definition querySourceWithRetry (build : Build) (mgr : Manager)
    (sourceId query searchType : string) (maxRetries : nat)
  : M (option Envelope) :=
  retryLoop build mgr sourceId query searchType maxRetries 1 maxRetries.

(** The default value of the [maxRetries] parameter. *)
Definition defaultMaxRetries : nat := 2.

Record Summary : Type := {
  totalSources : nat;
  successfulSources : nat;
  failedSources : nat;
  dataFound : bool
}.

Record Report : Type := {
  r_query : string;
  r_searchType : string;
  r_timestamp : Z;
  sources : list Envelope;
  summary : Summary
}.

(** One entry of what Promise.allSettled resolves to. *)
Inductive Settled : Type :=
| Fulfilled (value : option Envelope)
| Rejected (reason : string).

(** The fields of the aggregator object; of what the page displays, only
    the error message in the results area, if any. *)
Record App : Type := {
  currentQuery : string;
  currentResults : option Report;
  errorShown : option string
}.

(** What happened while a run awaited Promise.allSettled: how the
    dispatched operations ran, what each settled to, and what the rest of
    the page, another search included, made of the aggregator object in the
    meantime. Promise.allSettled itself never rejects. *)
Definition Scheduler : Type :=
  list (M (option Envelope)) → App → Heap → list Settled * App * Heap * Trace.

Definition settle (r : Completion (option Envelope)) : Settled :=
  match r with
  | Return v => Fulfilled v
  | Throw e => Rejected e
  end.

(** The await during which nothing else happens on the page and each
    operation finishes before the next one starts; with a single operation
    there is no other order. *)
Fixpoint settleInOrder (promises : list (M (option Envelope))) (h : Heap)
  : list Settled * Heap * Trace :=
  match promises with
  | [] => ([], h, [])
  | p :: rest =>
      let '(r, h1, t1) := p h in
      let '(rs, h2, t2) := settleInOrder rest h1 in
      (settle r :: rs, h2, t1 ++ t2)
  end.

Definition allSettledInOrder : Scheduler := λ promises app h,
  let '(results, h', t) := settleInOrder promises h in (results, app, h', t).

Definition found (e : Envelope) : bool := truthy (assoc "found" (data e)).

Definition counted (r : Report) (s : Summary) : Report :=
  {| r_query := r_query r; r_searchType := r_searchType r;
     r_timestamp := r_timestamp r; sources := sources r; summary := s |}.

Definition pushSuccess (value : Envelope) (r : Report) : Report :=
  {| r_query := r_query r; r_searchType := r_searchType r;
     r_timestamp := r_timestamp r;
     sources := sources r ++ [value];
     summary :=
       {| totalSources := totalSources (summary r);
          successfulSources := S (successfulSources (summary r));
          failedSources := failedSources (summary r);
          dataFound := if found value then true else dataFound (summary r) |} |}.

Definition countFailure (r : Report) : Report :=
  counted r
    {| totalSources := totalSources (summary r);
       successfulSources := successfulSources (summary r);
       failedSources := S (failedSources (summary r));
       dataFound := dataFound (summary r) |}.

(** The body of results.forEach. Reading [success] off a fulfilled
    [undefined] is a TypeError. *)
Definition processResult (result : Settled) (r : Report) : Completion Report :=
  match result with
  | Fulfilled None =>
      Throw "Cannot read properties of undefined (reading 'success')"
  | Fulfilled (Some value) =>
      if success value then Return (pushSuccess value r)
      else Return (countFailure r)
  | Rejected _ => Return (countFailure r)
  end.

(** results.forEach(...): the report as the loop leaves it, and whether the
    loop ran to its end. *)
Fixpoint processResults (results : list Settled) (r : Report)
  : Completion unit * Report :=
  match results with
  | [] => (Return (), r)
  | result :: rest =>
      match processResult result r with
      | Return r' => processResults rest r'
      | Throw e => (Throw e, r)
      end
  end.

(** [currentResults] starts as the empty object: no report. *)
Definition newApp : App :=
  {| currentQuery := ""; currentResults := None; errorShown := None |}.

Definition showError (message : string) (app : App) : App :=
  {| currentQuery := currentQuery app; currentResults := currentResults app;
     errorShown := Some message |}.

Definition setResults (r : Report) (app : App) : App :=
  {| currentQuery := currentQuery app; currentResults := Some r;
     errorShown := errorShown app |}.

(** The three rendering calls that end a run. They read [currentResults]
    and write the page; what they make of a report is left open, and each
    may raise. *)
Record Renderer : Type := {
  displayResults : option Report → Completion unit;
  updateTimelineResults : option Report → Completion unit;
  updateNetworkResults : option Report → Completion unit
}.

(** The results area once [displayResults] has written the results over
    whatever it showed. *)
Definition resultsShown (app : App) : App :=
  {| currentQuery := currentQuery app; currentResults := currentResults app;
     errorShown := None |}.

Definition render (page : Renderer) (app : App) : Completion unit * App :=
  match displayResults page (currentResults app) with
  | Throw e => (Throw e, app)
  | Return _ =>
      match updateTimelineResults page (currentResults app) with
      | Throw e => (Throw e, resultsShown app)
      | Return _ =>
          match updateNetworkResults page (currentResults app) with
          | Throw e => (Throw e, resultsShown app)
          | Return _ => (Return (), resultsShown app)
          end
      end
  end.

Definition dispatch (build : Build) (mgr : Manager) (query searchType : string)
    (index : nat) (source : Source) : M (option Envelope) :=
  match build with
  | Basic =>
      querySourceWithRetry build mgr (src_id source) query searchType
        defaultMaxRetries
  | Staggered =>
      delay (Z.of_nat index * 500);;
      querySourceWithRetry build mgr (src_id source) query searchType
        defaultMaxRetries
  end.

Definition initialReport (query searchType : string) (at_ : Z) (n : nat)
  : Report :=
  {| r_query := query; r_searchType := searchType; r_timestamp := at_;
     sources := [];
     summary := {| totalSources := n; successfulSources := 0%nat;
                   failedSources := 0%nat; dataFound := false |} |}.

(** results.forEach(...) on [this.currentResults] as the await left it.
    On the empty object the aggregator starts with, the first entry raises:
    neither [sources] nor [summary] is there to be read. *)
Definition processInto (results : list Settled) (current : option Report)
  : Completion unit * option Report :=
  match current with
  | Some report =>
      let '(outcome, report') := processResults results report in
      (outcome, Some report')
  | None =>
      match results with
      | [] => (Return (), None)
      | Fulfilled None :: _ =>
          (Throw "Cannot read properties of undefined (reading 'success')",
           None)
      | Fulfilled (Some value) :: _ =>
          (Throw (if success value
                  then "Cannot read properties of undefined (reading 'push')"
                  else "Cannot read properties of undefined (reading 'failedSources')"),
           None)
      | Rejected _ :: _ =>
          (Throw "Cannot read properties of undefined (reading 'failedSources')",
           None)
      end
  end.

Definition withResults (current : option Report) (app : App) : App :=
  {| currentQuery := currentQuery app; currentResults := current;
     errorShown := errorShown app |}.

Definition run (build : Build) (allSettled : Scheduler) (page : Renderer)
    (mgr : Manager) (query searchType : string) (app : App) (h : Heap)
  : Completion unit * App * Heap * Trace :=
  match getSourcesForType mgr searchType with
  | Throw e => (Throw e, app, h, [])
  | Return availableSources =>
      if Nat.eqb (length availableSources) 0
      then (Return (), showError (noSourcesMessage build searchType) app, h, [])
      else
        let report :=
          initialReport query searchType (now h) (length availableSources) in
        let promises :=
          imap (dispatch build mgr query searchType) availableSources in
        let '(results, app1, h1, t) :=
          allSettled promises (setResults report app) h in
        let '(outcome, current) := processInto results (currentResults app1) in
        let app2 := withResults current app1 in
        match outcome with
        | Return _ => let '(shown, app3) := render page app2 in (shown, app3, h1, t)
        | Throw e => (Throw e, app2, h1, t)
        end
  end.

Definition performOSINTSearch := run Basic.

Definition performRealIntelligenceGathering := run Staggered.

End OSINTAggregator.


From Stdlib Require Import Ascii.

(** ** SourceManager: counts and statistics *)

Module Stats.

Import SourceManager.

Definition getTotalSourceCount (sm : SourceManager.t) : nat :=
  length (getAllSources sm).

(** One value of the object [getSourcesByCategory] builds. The category's
    [name] and [description] are carried over with the category itself. *)
Record CategoryView : Type := {
  v_category : Category;
  v_sources : list Source;
  v_count : nat
}.

(** object[key] = value on a plain object, for a [value] that is an
    object: the key ["__proto__"] names the prototype, which the assignment
    replaces without adding an entry; any other key is updated in place or
    added after the others. *)
Fixpoint update {V} (key : string) (value : V) (object : list (string * V))
  : list (string * V) :=
  match object with
  | [] => [(key, value)]
  | (k, v) :: rest =>
      if String.eqb k key then (k, value) :: rest
      else (k, v) :: update key value rest
  end.

Definition assign {V} (key : string) (value : V) (object : list (string * V))
  : list (string * V) :=
  if String.eqb key "__proto__" then object else update key value object.

Definition view (c : Category) : CategoryView :=
  {| v_category := c;
     v_sources := List.filter src_enabled (cat_sources c);
     v_count := length (List.filter src_enabled (cat_sources c)) |}.

(** The entries of the object built by [getSourcesByCategory]; the empty
    object when the manager is not initialised. *)
Definition getSourcesByCategory (sm : SourceManager.t)
  : list (string * CategoryView) :=
  match initialized sm, sources sm with
  | true, Some catalog =>
      List.fold_left
        (λ result (kc : string * Category), assign kc.1 (view kc.2) result)
        (categories catalog) []
  | _, _ => []
  end.

Record SourceStats : Type := {
  st_totalSources : nat;
  st_totalCategories : nat;
  st_enabledSources : nat;
  st_categoriesBreakdown : list (string * (string * nat))
}.

(** The body of the forEach over the entries of [getSourcesByCategory]. *)
Definition addCategory (stats : SourceStats) (entry : string * CategoryView)
  : SourceStats :=
  {| st_totalSources := st_totalSources stats + v_count entry.2;
     st_totalCategories := st_totalCategories stats;
     st_enabledSources := st_enabledSources stats + v_count entry.2;
     st_categoriesBreakdown :=
       assign entry.1 (cat_name (v_category entry.2), v_count entry.2)
         (st_categoriesBreakdown stats) |}.

Definition getSourceStats (sm : SourceManager.t) : SourceStats :=
  let byCategory := getSourcesByCategory sm in
  List.fold_left addCategory byCategory
    {| st_totalSources := 0; st_totalCategories := length byCategory;
       st_enabledSources := 0; st_categoriesBreakdown := [] |}.

End Stats.

(** ** SourceManager: loading the catalog *)

Module Loader.

Import SourceManager.

(** What [fetch] resolves to, as far as the loader looks at it. *)
Record Response : Type := {
  ok : bool;
  status : string;
  json : Opaque Catalog
}.

(** [fetch] is opaque: it may reject; the body may fail to parse. *)
Definition loadSources (fetch : string → Opaque Response) : M Catalog :=
  tryCatch
    (let* response := callOpaque "fetch" (fetch "./data/sources.json") in
     if negb (ok response)
     then throw ("HTTP error! status: " +:+ status response)
     else callOpaque "json" (json response))
    (λ error, ret getFallbackSources).

End Loader.

(** ** OSINTAggregator: the search entry point *)

Module Frontend.

Import SourceManager OSINTAggregator.

(** showLoading(): the spinner replaces whatever the results area showed. *)
Definition showLoading (app : App) : App :=
  {| currentQuery := currentQuery app; currentResults := currentResults app;
     errorShown := None |}.

Definition setQuery (query : string) (app : App) : App :=
  {| currentQuery := query; currentResults := currentResults app;
     errorShown := errorShown app |}.

Definition searchFailedMessage (build : Build) : string :=
  match build with
  | Basic => "Search failed. Please try again."
  | Staggered => "Intelligence gathering failed. Please try again."
  end.

(** The branch taken when there is no initialised source manager: the first
    aggregator schedules placeholder results and returns, the second shows
    an error. *)
Definition withoutSources (build : Build) (app : App) : App :=
  match build with
  | Basic => app
  | Staggered => showError "Intelligence sources not available" app
  end.

(** [performSearch], from the trimmed text of the search box and the
    selected search type. [sourceManager] is [None] when the manager could
    not be constructed. *)
Definition performSearch (build : Build) (allSettled : Scheduler)
    (page : Renderer) (b : Backend) (sourceManager : option SourceManager.t)
    (query searchType : string) (app : App) (h : Heap)
  : Completion unit * App * Heap * Trace :=
  if String.eqb query ""
  then (Return (), showError "Please enter a search query" app, h, [])
  else
    let app1 := showLoading (setQuery query app) in
    match sourceManager with
    | Some sm =>
        if initialized sm
        then
          let '(outcome, app2, h', t) :=
            run build allSettled page (manage b sm) query searchType app1 h in
          match outcome with
          | Return _ => (Return (), app2, h', t)
          | Throw _ =>
              (Return (), showError (searchFailedMessage build) app2, h', t)
          end
        else (Return (), withoutSources build app1, h, [])
    | None => (Return (), withoutSources build app1, h, [])
    end.

End Frontend.

(** ** Regular expressions

    The patterns of the code are transcribed into the terms below and
    tested with [test], which matches by derivatives. A string stands for
    its sequence of code units, each below 256. *)

Module Regex.

Inductive t : Type :=
| Never
| Empty
| Class (p : ascii → bool)
| Seq (r1 r2 : t)
| Or (r1 r2 : t)
| Star (r : t).

(** r? , r+ , r{n} and r{0,n} *)
Definition Opt (r : t) : t := Or Empty r.

Definition Plus (r : t) : t := Seq r (Star r).

Fixpoint Times (n : nat) (r : t) : t :=
  match n with
  | O => Empty
  | S n' => Seq r (Times n' r)
  end.

Fixpoint Upto (n : nat) (r : t) : t :=
  match n with
  | O => Empty
  | S n' => Opt (Seq r (Upto n' r))
  end.

(** Character classes *)
Definition inRange (lo hi : ascii) (c : ascii) : bool :=
  (N_of_ascii lo <=? N_of_ascii c)%N && (N_of_ascii c <=? N_of_ascii hi)%N.

Definition isChar (x : ascii) (c : ascii) : bool := Ascii.eqb c x.

Definition anyOf (ps : list (ascii → bool)) (c : ascii) : bool :=
  existsb (λ p, p c) ps.

Definition noneOf (ps : list (ascii → bool)) (c : ascii) : bool :=
  negb (anyOf ps c).

Definition anything (c : ascii) : bool := true.

(** \d and \s *)
Definition digit : ascii → bool := inRange "0"%char "9"%char.

Definition space (c : ascii) : bool :=
  inRange "009"%char "013"%char c || isChar " "%char c || isChar "160"%char c.

Definition lit (x : ascii) : t := Class (isChar x).

Fixpoint nullable (r : t) : bool :=
  match r with
  | Never => false
  | Empty => true
  | Class _ => false
  | Seq r1 r2 => nullable r1 && nullable r2
  | Or r1 r2 => nullable r1 || nullable r2
  | Star _ => true
  end.

Fixpoint deriv (c : ascii) (r : t) : t :=
  match r with
  | Never => Never
  | Empty => Never
  | Class p => if p c then Empty else Never
  | Seq r1 r2 =>
      if nullable r1
      then Or (Seq (deriv c r1) r2) (deriv c r2)
      else Seq (deriv c r1) r2
  | Or r1 r2 => Or (deriv c r1) (deriv c r2)
  | Star r1 => Seq (deriv c r1) (Star r1)
  end.

Fixpoint matches (r : t) (s : list ascii) : bool :=
  match s with
  | [] => nullable r
  | c :: s' => matches (deriv c r) s'
  end.

(** /^r$/.test(s) *)
Definition test (r : t) (s : string) : bool :=
  matches r (String.list_ascii_of_string s).

(** /r/.test(s) and /^r/.test(s) *)
Definition search (r : t) (s : string) : bool :=
  test (Seq (Star (Class anything)) (Seq r (Star (Class anything)))) s.

Definition startsWith (r : t) (s : string) : bool :=
  test (Seq r (Star (Class anything))) s.

(** The strings of a pattern. *)
Inductive Lang : t → list ascii → Prop :=
| LEmpty : Lang Empty []
| LClass p c : p c = true → Lang (Class p) [c]
| LSeq r1 r2 s1 s2 : Lang r1 s1 → Lang r2 s2 → Lang (Seq r1 r2) (s1 ++ s2)
| LOrL r1 r2 s : Lang r1 s → Lang (Or r1 r2) s
| LOrR r1 r2 s : Lang r2 s → Lang (Or r1 r2) s
| LStarNil r : Lang (Star r) []
| LStarApp r s1 s2 : Lang r s1 → Lang (Star r) s2 → Lang (Star r) (s1 ++ s2).

End Regex.

(** ** OSINTCollector: username heuristics *)

Module Collection.

Import Regex.

Definition lower : ascii → bool := inRange "a"%char "z"%char.

Definition upper : ascii → bool := inRange "A"%char "Z"%char.

(** [a-zA-Z0-9] *)
Definition alnum : list (ascii → bool) := [lower; upper; digit].

(** /[._-]/ *)
Definition special : ascii → bool :=
  anyOf [isChar "."%char; isChar "_"%char; isChar "-"%char].

(** The platforms [checkSocialPresence] asks about. *)
Inductive Platform : Type := github | twitter | instagram | reddit | youtube.

Record Pattern : Type := {
  likely : bool;
  reasoning : string
}.

(** The entry of the [patterns] table of [analyzeSocialPattern] for a
    platform, computed for [username]. *)
Definition patterns (username : string) (platform : Platform) : Pattern :=
  match platform with
  | github =>
      {| likely :=
           test (Seq (Class (anyOf alnum))
                   (Seq (Star (Class (anyOf (alnum ++ [isChar "-"%char]))))
                      (Class (anyOf alnum))))
             username
           && (3 <=? String.length username)%nat;
         reasoning := "GitHub allows alphanumeric characters and hyphens" |}
  | twitter =>
      {| likely :=
           test (Plus (Class (anyOf (alnum ++ [isChar "_"%char])))) username
           && (String.length username <=? 15)%nat;
         reasoning :=
           "Twitter usernames are alphanumeric with underscores, max 15 chars" |}
  | instagram =>
      {| likely :=
           test (Plus (Class (anyOf (alnum ++ [isChar "."%char;
                                               isChar "_"%char]))))
             username
           && (String.length username <=? 30)%nat;
         reasoning :=
           "Instagram allows letters, numbers, periods, and underscores" |}
  | reddit =>
      {| likely :=
           test (Plus (Class (anyOf (alnum ++ [isChar "_"%char;
                                               isChar "-"%char]))))
             username
           && (3 <=? String.length username)%nat;
         reasoning :=
           "Reddit usernames are alphanumeric with underscores and hyphens" |}
  | youtube =>
      {| likely :=
           test (Plus (Class (anyOf (alnum ++ [isChar "."%char;
                                               isChar "_"%char;
                                               isChar "-"%char]))))
             username;
         reasoning :=
           "YouTube handles are alphanumeric with periods, underscores, hyphens" |}
  end.

Record SocialAnalysis : Type := {
  patternMatch : bool;
  confidence : string;
  sa_reasoning : string
}.

Definition analyzeSocialPattern (username : string) (platform : Platform)
  : SocialAnalysis :=
  let pattern := patterns username platform in
  {| patternMatch := likely pattern;
     confidence := if likely pattern then "high" else "low";
     sa_reasoning := reasoning pattern |}.

Definition calculateUsernameComplexity (username : string) : string :=
  let score := 0%nat in
  let score := if (8 <=? String.length username)%nat then S score else score in
  let score := if search (Class upper) username then S score else score in
  let score := if search (Class lower) username then S score else score in
  let score := if search (Class digit) username then S score else score in
  let score := if search (Class special) username then S score else score in
  if (score <=? 2)%nat then "low"
  else if (score <=? 3)%nat then "medium"
  else "high".

End Collection.

(** ** The self-built manager: patterns and analyses *)

Module Analysis.

Import Regex.

(** The pattern that matches exactly the given text. *)
Fixpoint text (s : string) : Regex.t :=
  match s with
  | EmptyString => Empty
  | String c s' => Seq (lit c) (text s')
  end.

(** [^\s@] *)
Definition emailChar : ascii → bool := noneOf [space; isChar "@"%char].

(** patterns.email: /^[^\s@]+@[^\s@]+\.[^\s@]+$/ *)
Definition emailPattern : Regex.t :=
  Seq (Plus (Class emailChar))
    (Seq (lit "@")
       (Seq (Plus (Class emailChar))
          (Seq (lit ".") (Plus (Class emailChar))))).

(** 25[0-5]|2[0-4][0-9]|[01]?[0-9][0-9]? *)
Definition octetPattern : Regex.t :=
  Or (Seq (lit "2") (Seq (lit "5") (Class (inRange "0" "5"))))
    (Or (Seq (lit "2") (Seq (Class (inRange "0" "4")) (Class digit)))
       (Seq (Opt (Class (anyOf [isChar "0"%char; isChar "1"%char])))
          (Seq (Class digit) (Opt (Class digit))))).

(** patterns.ip *)
Definition ipPattern : Regex.t :=
  Seq (Times 3 (Seq octetPattern (lit "."))) octetPattern.

(** patterns.socialMedia: /^[a-zA-Z0-9_.-]+$/ *)
Definition socialMediaPattern : Regex.t :=
  Plus (Class (anyOf [inRange "a" "z"; inRange "A" "Z"; digit;
                      isChar "_"%char; isChar "."%char; isChar "-"%char])).

(** String.prototype.toLowerCase on code units below 256: the letters A-Z
    and the accented capitals 192-222, the multiplication sign apart. *)
Definition toLowerChar (c : ascii) : ascii :=
  let n := N_of_ascii c in
  if ((65 <=? n) && (n <=? 90)
      || (192 <=? n) && (n <=? 222) && negb (n =? 215))%N
  then ascii_of_N (n + 32)
  else c.

Fixpoint toLowerCase (s : string) : string :=
  match s with
  | EmptyString => EmptyString
  | String c s' => String (toLowerChar c) (toLowerCase s')
  end.

Definition includes (c : ascii) (s : string) : bool :=
  existsb (isChar c) (String.list_ascii_of_string s).

(** One entry of [profiles]; [confidence] is in tenths. *)
Record Profile : Type := {
  platform : string;
  p_username : string;
  p_confidence : Z;
  p_reasoning : string
}.

Record Characteristics : Type := {
  c_length : nat;
  c_hasNumbers : bool;
  c_hasSpecialChars : bool;
  c_isCommonWord : bool
}.

(** The two shapes of object [analyzeUsernamePatterns] returns. *)
Inductive UsernameAnalysis : Type :=
| InvalidUsername (query message : string)
| UsernameProfiles (found : bool) (query : string) (profiles : list Profile)
    (analysisMethod : string) (totalFound : nat)
    (usernameCharacteristics : Characteristics).

Definition analyzeUsernamePatterns (username : string) : UsernameAnalysis :=
  if negb (test socialMediaPattern username)
  then InvalidUsername username "Invalid username format"
  else
    let len := String.length username in
    let hasNumbers := search (Class digit) username in
    let hasUnderscore := search (lit "_") username in
    let isCommonWord :=
      startsWith
        (Or (text "admin") (Or (text "user") (Or (text "test")
           (Or (text "demo") (text "example")))))
        (toLowerCase username) in
    let platforms := [] in
    let platforms :=
      if (hasUnderscore || includes "-" username) && (4 <? len)%nat
      then platforms ++ [{| platform := "github"; p_username := username;
                            p_confidence := 7;
                            p_reasoning := "Technical username pattern" |}]
      else platforms in
    let platforms :=
      if isCommonWord || ((len <? 8)%nat && negb hasNumbers)
      then platforms ++ [{| platform := "twitter"; p_username := username;
                            p_confidence := 8;
                            p_reasoning := "Common username pattern" |}]
      else platforms in
    let platforms :=
      if hasNumbers && (len <=? 12)%nat
      then platforms ++ [{| platform := "reddit"; p_username := username;
                            p_confidence := 6;
                            p_reasoning := "Gaming/casual username pattern" |}]
      else platforms in
    UsernameProfiles (0 <? length platforms)%nat username platforms
      "Username pattern recognition" (length platforms)
      {| c_length := len; c_hasNumbers := hasNumbers;
         c_hasSpecialChars := hasUnderscore; c_isCommonWord := isCommonWord |}.

(** A JavaScript number that may be [NaN] or missing ([None]), and a
    comparison on it, which is false then. *)
Definition holds (p : Z → bool) (v : option Z) : bool :=
  match v with
  | Some z => p z
  | None => false
  end.

Definition determineIPClass (firstOctet : option Z) : string :=
  if holds (λ v, (1 <=? v) && (v <=? 126)) firstOctet then "A"
  else if holds (λ v, (128 <=? v) && (v <=? 191)) firstOctet then "B"
  else if holds (λ v, (192 <=? v) && (v <=? 223)) firstOctet then "C"
  else "Special".

(** octets[i] *)
Definition at_ (octets : list (option Z)) (i : nat) : option Z :=
  mjoin (octets !! i).

Definition isPrivateIP (octets : list (option Z)) : bool :=
  holds (Z.eqb 10) (at_ octets 0)
  || (holds (Z.eqb 172) (at_ octets 0) && holds (Z.leb 16) (at_ octets 1)
      && holds (λ v, v <=? 31) (at_ octets 1))
  || (holds (Z.eqb 192) (at_ octets 0) && holds (Z.eqb 168) (at_ octets 1)).

Definition isReservedIP (octets : list (option Z)) : bool :=
  holds (Z.eqb 127) (at_ octets 0) || holds (Z.eqb 0) (at_ octets 0).

Definition countries : list string :=
  ["United States"; "United Kingdom"; "Germany"; "France"; "Japan"].

Definition cities : list string :=
  ["New York"; "London"; "Berlin"; "Paris"; "Tokyo"].

Definition isps : list string :=
  ["Comcast"; "Verizon"; "Deutsche Telekom"; "Orange"; "NTT"].

(** table[index]: [None] is [undefined]. *)
Definition entry (table : list string) (index : option Z) : option string :=
  match index with
  | Some i => if i <? 0 then None else table !! Z.to_nat i
  | None => None
  end.

Record Location : Type := {
  country : option string;
  city : option string;
  isp : option string;
  coordinates : JSValue
}.

(** [coords] stands for the pair of random coordinates. *)
Definition generateLocationFromIP (coords : JSValue)
    (octets : list (option Z)) : Location :=
  let index := (λ v, Z.rem v 5) <$> at_ octets 0 in
  {| country := entry countries index; city := entry cities index;
     isp := entry isps index; coordinates := coords |}.

(** ip.split('.') on the code units. *)
Fixpoint split (sep : ascii) (s : list ascii) : list (list ascii) :=
  match s with
  | [] => [[]]
  | c :: rest =>
      if Ascii.eqb c sep then [] :: split sep rest
      else match split sep rest with
           | part :: parts => (c :: part) :: parts
           | [] => [[c]]
           end
  end.

Definition digitValue (c : ascii) : Z := Z.of_N (N_of_ascii c) - 48.

(** Number(text) for a text of decimal digits (the empty text is 0);
    [None] stands for what Number makes of any other text. *)
Definition Number (s : list ascii) : option Z :=
  if forallb digit s
  then Some (fold_left (λ acc c, 10 * acc + digitValue c) s 0)
  else None.

Inductive IPAnalysis : Type :=
| InvalidIP (query message : string)
| IPInfo (query : string) (ipClass : string) (isPrivate isReserved : bool)
    (location : Location) (analysisMethod : string).

Definition analyzeIPPatterns (coords : JSValue) (ip : string) : IPAnalysis :=
  if negb (test ipPattern ip)
  then InvalidIP ip "Invalid IP format"
  else
    let octets :=
      List.map Number (split "." (String.list_ascii_of_string ip)) in
    IPInfo ip (determineIPClass (at_ octets 0)) (isPrivateIP octets)
      (isReservedIP octets) (generateLocationFromIP coords octets)
      "IP pattern analysis".

End Analysis.

(** ** OSINTAggregator: the search box *)

Module SearchBox.

Import Regex.

(** \d{1,3} *)
Definition digits13 : Regex.t := Seq (Class digit) (Upto 2 (Class digit)).

(** /^\d{1,3}\.\d{1,3}\.\d{1,3}\.\d{1,3}$/ *)
Definition ipShape : Regex.t :=
  Seq digits13
    (Seq (lit ".") (Seq digits13
       (Seq (lit ".") (Seq digits13 (Seq (lit ".") digits13))))).

(** [autoDetectSearchType]: the value it gives the search-type selector,
    from the trimmed text of the search box. *)
Definition autoDetectSearchType (input : string) : string :=
  if String.eqb input "" then "auto"
  else if Analysis.includes "@" input && Analysis.includes "." input
  then "email"
  else if test ipShape input then "ip"
  else if Analysis.includes "." input && negb (Analysis.includes "@" input)
  then "domain"
  else "username".

End SearchBox.

(** ** SourceManager (self-built): the structure of domains and e-mail
    addresses *)

Module Structure.

Import Regex.

(** [a-zA-Z0-9]([a-zA-Z0-9\-]{0,61}[a-zA-Z0-9])? *)
Definition labelPattern : Regex.t :=
  Seq (Class (anyOf Collection.alnum))
    (Opt (Seq (Upto 61 (Class (anyOf (Collection.alnum ++ [isChar "-"%char]))))
            (Class (anyOf Collection.alnum)))).

(** patterns.domain *)
Definition domainPattern : Regex.t :=
  Seq labelPattern (Star (Seq (lit ".") labelPattern)).

(** text.split(sep), for a separator of one code unit. *)
Definition split (sep : ascii) (text : string) : list string :=
  List.map String.string_of_list_ascii
    (Analysis.split sep (String.list_ascii_of_string text)).

(** parts[i] *)
Definition item (parts : list string) (i : nat) : JSValue :=
  from_option JString JUndefined (parts !! i).

(** strings.includes(v) *)
Definition includesValue (strings : list string) (v : JSValue) : bool :=
  match v with
  | JString s => existsb (String.eqb s) strings
  | _ => false
  end.

Definition commonTlds : list string := ["com"; "org"; "net"; "edu"; "gov"].

Definition checkCommonSubdomainPatterns (subdomain : string) : bool :=
  existsb (String.eqb (Analysis.toLowerCase subdomain))
    ["www"; "mail"; "ftp"; "api"; "cdn"; "blog"; "shop"].

Definition invalid (query message : string) : Fields :=
  [("found", JBool false); ("query", JString query);
   ("message", JString message)].

Section Lookups.

(** [getTldType] and [analyzeSubdomainType] look their argument up in an
    object literal and put a default in place of a falsy answer; what the
    lookup answers is left open here. *)
Variables getTldType analyzeSubdomainType : JSValue → JSValue.

Definition analyzeDomainPatterns (domain : string) : Fields :=
  if negb (test domainPattern domain)
  then invalid domain "Invalid domain format"
  else
    let parts := split "." domain in
    let tld := item parts (length parts - 1) in
    let subdomain := if (2 <? length parts)%nat then item parts 0 else JNull in
    [("found", JBool true); ("query", JString domain);
     ("structure",
      JObject [("tld", tld); ("subdomain", subdomain);
               ("isSubdomain", JBool (2 <? length parts)%nat);
               ("depth", JNumber (Z.of_nat (length parts)))]);
     ("analysisMethod", JString "Domain structure analysis");
     ("tldInfo",
      JObject [("isCommon", JBool (includesValue commonTlds tld));
               ("type", getTldType tld)])]
    ++ (if truthy subdomain
        then [("subdomainAnalysis",
               JObject [("type", analyzeSubdomainType subdomain);
                        ("commonPatterns",
                         match subdomain with
                         | JString s => JBool (checkCommonSubdomainPatterns s)
                         | _ => JUndefined
                         end)])]
        else []).

(** /^[a-zA-Z]+\.[a-zA-Z]+$/ *)
Definition commonFormat : Regex.t :=
  let letters := Plus (Class (anyOf [Collection.lower; Collection.upper])) in
  Seq letters (Seq (lit ".") letters).

(** [analyzeEmailPatterns]; reading a property of [undefined] raises. *)
Definition analyzeEmailPatterns (email : string) : Completion Fields :=
  if negb (test Analysis.emailPattern email)
  then Return (invalid email "Invalid email format")
  else
    let parts := split "@" email in
    match parts !! 0%nat with
    | None =>
        Throw "Cannot read properties of undefined (reading 'length')"
    | Some username =>
        match parts !! 1%nat with
        | None =>
            Throw "Cannot read properties of undefined (reading 'split')"
        | Some domain =>
            Return
              [("found", JBool true); ("query", JString email);
               ("structure",
                JObject
                  [("username", JString username); ("domain", JString domain);
                   ("usernameLength",
                    JNumber (Z.of_nat (String.length username)));
                   ("domainParts",
                    JNumber (Z.of_nat (length (split "." domain))))]);
               ("patterns",
                JObject
                  [("hasNumbers", JBool (search (Class digit) username));
                   ("hasSpecialChars",
                    JBool (search (Class Collection.special) username));
                   ("isCommonFormat", JBool (test commonFormat username))]);
               ("domainAnalysis", assoc "data" (analyzeDomainPatterns domain));
               ("analysisMethod", JString "Email structure analysis")]
        end
    end.

End Lookups.

End Structure.

(** ** OSINTCollector: DNS records over HTTPS *)

Module DNS.

(** What [fetch] resolves to, as far as [getDNSRecords] looks at it. *)
Record Response : Type := {
  ok : bool;
  json : Opaque JSValue
}.

Definition recordTypes : list string :=
  ["A"; "AAAA"; "MX"; "NS"; "TXT"; "CNAME"].

Definition dnsOverHttps : string := "https://cloudflare-dns.com/dns-query".

(** object[key] = value *)
Fixpoint setProp (key : string) (value : JSValue) (fields : Fields) : Fields :=
  match fields with
  | [] => [(key, value)]
  | (k, v) :: rest =>
      if String.eqb k key then (k, value) :: rest
      else (k, v) :: setProp key value rest
  end.

(** records.map(record => record.data); [None] when a record is [null] or
    [undefined], of which no property can be read. *)
Fixpoint recordData (records : list JSValue) : option (list JSValue) :=
  match records with
  | [] => Some []
  | JUndefined :: _ | JNull :: _ => None
  | record :: rest =>
      match recordData rest with
      | Some values => Some (getProp record "data" :: values)
      | None => None
      end
  end.

(** What
      if (data.Answer && data.Answer.length > 0)
          results[type] = data.Answer.map(record => record.data);
    stores for a parsed body [data], if anything.  Nothing is stored when
    the guard fails and when the statement raises, which the enclosing
    [catch] absorbs: for a [data] that is [null] or [undefined], for an
    [Answer] that is no array (a parsed body holds no function, so such an
    [Answer] has no [map] to call), and for an array with a [null]
    record. *)
Definition answerData (data : JSValue) : option (list JSValue) :=
  match getProp data "Answer" with
  | JArray (record :: rest) => recordData (record :: rest)
  | _ => None
  end.

(** x || [] *)
Definition orEmpty (v : JSValue) : JSValue :=
  if truthy v then v else JArray [].

Section Lookup.

(** The browser's [fetch] and [encodeURIComponent], left opaque, and what
    the rest of the page does to the heap while a lookup waits for the
    limiter. *)
Variable fetch : string → Opaque Response.
Variable encodeURIComponent : JSValue → string.
Variable meanwhile : Heap → Heap.

Variable domain : JSValue.

Definition url (type : string) : string :=
  dnsOverHttps +:+ "?name=" +:+ encodeURIComponent domain
  +:+ "&type=" +:+ type.

(** One turn of the loop over the record types. *)
Definition lookupType (type : string) (results : Fields) : M Fields :=
  tryCatch
    (OSINTCollector.rateLimit meanwhile "dns" 100;;
     let* response := callOpaque "fetch" (fetch (url type)) in
     if ok response
     then
       let* data := callOpaque "json" (json response) in
       ret (match answerData data with
            | Some values => setProp type (JArray values) results
            | None => results
            end)
     else ret results)
    (λ err, ret results).

Fixpoint lookupTypes (types : list string) (results : Fields) : M Fields :=
  match types with
  | [] => ret results
  | type :: rest =>
      let* results' := lookupType type results in
      lookupTypes rest results'
  end.

Definition getDNSRecords : M Fields :=
  tryCatch
    (let* results := lookupTypes recordTypes [] in
     ret [("found", JBool (0 <? length results)%nat);
          ("domain", domain);
          ("records", JObject results);
          ("ipAddresses", orEmpty (assoc "A" results));
          ("ipv6Addresses", orEmpty (assoc "AAAA" results));
          ("mailServers", orEmpty (assoc "MX" results));
          ("nameservers", orEmpty (assoc "NS" results));
          ("textRecords", orEmpty (assoc "TXT" results));
          ("collectionMethod", JString "DNS over HTTPS")])
    (λ error,
       ret [("found", JBool false); ("domain", domain);
            ("error", JString error)]).

End Lookup.

End DNS.

(** ** OSINTCollector: social presence and e-mail intelligence *)

Module Presence.

Import Regex Collection.

(** The [platforms] table of [checkSocialPresence]. *)
Definition platforms : list (Platform * string * string) :=
  [(github, "github", "https://github.com/");
   (twitter, "twitter", "https://twitter.com/");
   (instagram, "instagram", "https://instagram.com/");
   (reddit, "reddit", "https://reddit.com/user/");
   (youtube, "youtube", "https://youtube.com/@")].

Definition analysisObject (a : SocialAnalysis) : JSValue :=
  JObject [("patternMatch", JBool (patternMatch a));
           ("confidence", JString (confidence a));
           ("reasoning", JString (sa_reasoning a))].

(** The collector's [analyzeUsernamePatterns]. *)
Definition analyzeUsernamePatterns (username : string) : JSValue :=
  JObject
    [("length", JNumber (Z.of_nat (String.length username)));
     ("hasNumbers", JBool (search (Class digit) username));
     ("hasSpecialChars", JBool (search (Class special) username));
     ("isAlphanumeric", JBool (test (Plus (Class (anyOf alnum))) username));
     ("commonWords",
      JBool
        (startsWith
           (Or (Analysis.text "admin") (Or (Analysis.text "user")
              (Or (Analysis.text "test") (Or (Analysis.text "demo")
                 (Or (Analysis.text "example") (Analysis.text "sample"))))))
           (Analysis.toLowerCase username)));
     ("complexity", JString (calculateUsernameComplexity username))].

Definition profile (username : string) (p : Platform * string * string)
  : JSValue :=
  let '(platform, name, baseUrl) := p in
  JObject [("platform", JString name);
           ("username", JString username);
           ("url", JString (baseUrl +:+ username));
           ("status", JString "requires_manual_verification");
           ("analysis", analysisObject (analyzeSocialPattern username platform))].

Definition checkSocialPresence (username : string) : Fields :=
  [("found", JBool true);
   ("username", JString username);
   ("analysisType", JString "Social Intelligence Analysis");
   ("collectionMethod", JString "Pattern Analysis & URL Generation");
   ("profiles", JArray (List.map (profile username) platforms));
   ("recommendations",
    JArray
      [JString "Manually verify generated URLs for actual profile existence";
       JString "Use browser network tools to check HTTP status codes";
       JString "Consider using browser extensions for automated checking"]);
   ("patterns", analyzeUsernamePatterns username);
   ("totalChecked", JNumber (Z.of_nat (length platforms)))].

(** How a promise given to [Promise.allSettled] settled; the lookups
    resolve to objects when they resolve. *)
Inductive Outcome : Type :=
| Fulfilled (value : Fields)
| Rejected (reason : string).

(** if (outcome.status === 'fulfilled' && outcome.value.found)
        results[key] = outcome.value; *)
Definition addFound (key : string) (outcome : Outcome) (results : Fields)
  : Fields :=
  match outcome with
  | Fulfilled value =>
      if truthy (assoc "found" value)
      then DNS.setProp key (JObject value) results
      else results
  | Rejected _ => results
  end.

(** [analyzeEmail], after [Promise.allSettled] has settled: [domainDNS] and
    [domainCerts] are the outcomes of [getDNSRecords(domain)] and
    [getCertificateData(domain)]; [checkSocialPresence(username)] cannot
    raise, so that its outcome is always fulfilled.  Reading a property of
    [undefined] raises. *)
Definition analyzeEmail (domainDNS domainCerts : Outcome) (email : string)
  : Completion Fields :=
  let parts := Structure.split "@" email in
  match parts !! 0%nat with
  | None => Throw "Cannot read properties of undefined (reading 'length')"
  | Some username =>
      match parts !! 1%nat with
      | None => Throw "Cannot read properties of undefined (reading 'split')"
      | Some domain =>
          let results :=
            [("found", JBool true);
             ("email", JString email);
             ("username", JString username);
             ("domain", JString domain);
             ("structure",
              JObject
                [("usernameLength",
                  JNumber (Z.of_nat (String.length username)));
                 ("domainParts",
                  JNumber (Z.of_nat (length (Structure.split "." domain))));
                 ("hasNumbers", JBool (search (Class digit) username));
                 ("hasSpecialChars",
                  JBool (search (Class special) username))]);
             ("collectionMethod",
              JString "Multi-source email intelligence analysis")] in
          let results := addFound "domainDNS" domainDNS results in
          let results := addFound "domainCertificates" domainCerts results in
          Return
            (DNS.setProp "socialProfiles"
               (JObject (checkSocialPresence username)) results)
      end
  end.

End Presence.

(** ** OSINTCollector: certificate transparency *)

Module CT.

(** What [fetch] resolves to, as far as [getCertificateData] looks at
    it. *)
Record Response : Type := {
  ok : bool;
  status : string;
  json : Opaque JSValue
}.



(** text.includes(part) *)
Fixpoint startsWith (part text : list ascii) : bool :=
  match part, text with
  | [], _ => true
  | _ :: _, [] => false
  | a :: part', b :: text' => Ascii.eqb a b && startsWith part' text'
  end.

Fixpoint includes (part text : list ascii) : bool :=
  startsWith part text
  || match text with
     | [] => false
     | _ :: text' => includes part text'
     end.








Definition summary (cert : JSValue) : JSValue :=
  JObject [("issuer", getProp cert "issuer_name");
           ("subject", getProp cert "name_value");
           ("notBefore", getProp cert "not_before");
           ("notAfter", getProp cert "not_after");
           ("serialNumber", getProp cert "serial_number")].



Section Lookup.

(** The browser's [fetch], left opaque, and the address of the lookup,
    [dataSources.certificateTransparency] with the encoded domain in
    place. *)
Variable fetch : string → Opaque Response.
Variable lookupUrl : string → string.


End Lookup.

End CT.
(** * Properties *)

Import SourceManager OSINTAggregator.

(** ** Vocabulary of the statements *)

(** A value whose [typeof] is ["object"] and that is not [null]. *)
Definition isObject (value : JSValue) : Prop :=
  typeof value = "object" ∧ value ≠ JNull.

(** The value owns a property of that name. *)
Definition present (key : string) (value : JSValue) : Prop :=
  match value with
  | JObject fields => hasProp key fields
  | _ => False
  end.

(** ** Sample inputs *)

(** A network that is down until the clock reads 3000 ms. *)
Definition flakyFetch : string → Opaque nat := λ _ h,
  if now h <? 3000 then (Throw "Failed to fetch", h) else (Return 200%nat, h).

Definition sampleSource : Source :=
  {| src_id := "s1"; src_name := "Source one"; src_type := "generic";
     src_confidence := 80; src_enabled := true; src_rateLimit := Some 1000 |}.

Definition sampleEnvelope : Envelope :=
  envelope sampleSource "q" "email" 0 [("found", JBool true)] true None.

(** A manager whose single-source query rejects until the clock reads
    3000 ms. *)
Definition flakyManager : Manager :=
  {| getSourcesForType := λ _, Return [sampleSource];
     querySource := λ _ _ _ h,
       if now h <? 3000 then (Throw "Source not found: s1", h, [])
       else (Return sampleEnvelope, h, []) |}.

(** A network and a manager that never recover. *)
Definition deadFetch : string → Opaque nat := λ _ h,
  (Throw (if now h <? 2500 then "Failed to fetch" else "Connection reset"), h).

Definition deadManager : Manager :=
  {| getSourcesForType := λ _, Return [sampleSource];
     querySource := λ _ _ _ h,
       (Throw (if now h <? 2500 then "No answer" else "Gave up"), h, []) |}.

(** ** Vocabulary of the single-source query *)

(** The two source managers that gather real or self-built intelligence. *)
Definition Shipped (b : Backend) : Prop :=
  (∃ latency analysis, b = selfBuilt latency analysis)
  ∨ (∃ collector, b = integrated collector).

(** The source is listed, enabled, in a category of a loaded catalog. *)
Definition KnownEnabled (sm : SourceManager.t) (source : Source) : Prop :=
  initialized sm = true
  ∧ ∃ catalog key c,
      SourceManager.sources sm = Some catalog
      ∧ In (key, c) (categories catalog)
      ∧ In source (cat_sources c)
      ∧ src_enabled source = true.

(** The source is listed, enabled, under the category of the search type in
    a loaded catalog. *)
Definition Eligible (sm : SourceManager.t) (searchType : string)
    (source : Source) : Prop :=
  initialized sm = true
  ∧ ∃ catalog c,
      SourceManager.sources sm = Some catalog
      ∧ category searchType (categories catalog) = Some c
      ∧ In source (cat_sources c)
      ∧ src_enabled source = true.

(** The heap in which a query that missed the cache starts gathering: after
    the wait for a request in flight, if any, and with its own marker set. *)
Definition entering (b : Backend) (source : Source) (sourceId : string)
    (h : Heap) : Heap :=
  let h1 := if bool_decide (sourceId ∈ activeRequests h)
            then elapse (busyDelay b source) h else h in
  set_activeRequests ({[sourceId]} ∪ activeRequests h1) h1.

(** The wait a query that missed the cache starts with. *)
Definition busyWait (b : Backend) (source : Source) (sourceId : string)
    (h : Heap) : Trace :=
  if bool_decide (sourceId ∈ activeRequests h)
  then [Slept (Z.max 0 (busyDelay b source))] else [].

(** The heap a query that missed the cache leaves behind, from the outcome
    and the heap of the gathering. *)
Definition leaving (sourceId query : string) (r : Completion Envelope)
    (h : Heap) : Heap :=
  let h1 := match r with
            | Return result =>
                set_cache (<[cacheKey sourceId query := result]> (cache h)) h
            | Throw _ => h
            end in
  set_activeRequests (activeRequests h1 ∖ {[sourceId]}) h1.

(** What the integrated manager makes of the collector's outcome [r],
    stamped [at_]. *)
Definition realEnvelope (source : Source) (query searchType : string)
    (r : Completion Fields) (at_ : Z) : Envelope :=
  match r with
  | Return payload =>
      envelope source query searchType at_ payload true
        (Some "real_intelligence")
  | Throw error =>
      envelope source query searchType at_
        [("found", JBool false); ("error", JString error);
         ("query", JString query);
         ("collectionMethod", JString "Error handling")]
        false (Some "error")
  end.

(** What the self-built manager makes of the analysis' outcome. *)
Definition selfBuiltEnvelope (source : Source) (query searchType : string)
    (r : Completion Fields) (at_ : Z) : Envelope :=
  match r with
  | Return payload => envelope source query searchType at_ payload true None
  | Throw error =>
      envelope source query searchType at_
        [("found", JBool false); ("error", JString error);
         ("query", JString query)]
        false None
  end.

(** More sample inputs: a catalog with one enabled and one disabled e-mail
    source, and handlers that answer after 300 ms, answer at once, or
    always fail. *)
Definition retiredSource : Source :=
  {| src_id := "s0"; src_name := "Source zero"; src_type := "generic";
     src_confidence := 10; src_enabled := false; src_rateLimit := None |}.

Definition sampleManager : SourceManager.t :=
  {| SourceManager.sources :=
       Some {| categories :=
                 [("email", {| cat_name := "Email Intelligence";
                               cat_sources := [retiredSource; sampleSource] |});
                  ("domain", {| cat_name := "Domain Intelligence";
                                cat_sources := [] |})] |};
     initialized := true |}.

Definition steadyHandler : Handler := λ _ query _ h,
  (Return [("found", JBool true); ("query", JString query)], elapse 300 h).

(** A synchronous analysis: it answers without letting time pass. *)
Definition instantHandler : Handler := λ _ query _ h,
  (Return [("found", JBool true); ("query", JString query)], h).

Definition failingHandler : Handler := λ _ _ _ h,
  (Throw "Network request failed", h).

(** ** Vocabulary of the limiter *)

(** While a caller of [rateLimit] sleeps, the clock does not go back and no
    other caller is granted [service]. *)
Definition Quiet (service : string) (meanwhile : Heap → Heap) : Prop :=
  ∀ h, now h ≤ now (meanwhile h)
       ∧ rateLimits (meanwhile h) !! service = rateLimits h !! service.

(** Nothing else runs while the caller sleeps. *)
Definition alone : Heap → Heap := λ h, h.

(** ** Vocabulary of the aggregation *)

(** A settled entry other than a fulfilled [undefined]. *)
Definition defined (result : Settled) : Prop := result ≠ Fulfilled None.

(** The envelopes a list of settled entries contributes to the report:
    those of the fulfilled entries whose [success] flag is set. *)
Definition successes (results : list Settled) : list Envelope :=
  List.flat_map
    (λ result, match result with
               | Fulfilled (Some value) => if success value then [value] else []
               | _ => []
               end)
    results.

(** The scheduler settles every promise it is given, once. *)
Definition OnePerPromise (allSettled : Scheduler) : Prop :=
  ∀ promises app h,
    length (allSettled promises app h).1.1.1 = length promises.

(** No other search starts while a run awaits: the report the run stored is
    still the current one when the await ends. *)
Definition Undisturbed (allSettled : Scheduler) : Prop :=
  ∀ promises app h,
    currentResults (allSettled promises app h).1.1.2 = currentResults app.

(** A page on which rendering a report never raises. *)
Definition plainPage : Renderer :=
  {| displayResults := λ _, Return ();
     updateTimelineResults := λ _, Return ();
     updateNetworkResults := λ _, Return () |}.

(** The search type is a name that the [categories] object of the loaded
    catalog inherits and does not define itself. *)
Definition InheritedName (sm : SourceManager.t) (searchType : string) : Prop :=
  initialized sm = true
  ∧ ∃ catalog,
      SourceManager.sources sm = Some catalog
      ∧ category searchType (categories catalog) = None
      ∧ inherited searchType = true.

(** The report counts as successful exactly the envelopes it lists, all of
    them successful, and flags data as found exactly when one of them
    found some. *)
Definition Consistent (r : Report) : Prop :=
  successfulSources (summary r) = length (sources r)
  ∧ Forall (λ e, success e = true) (sources r)
  ∧ (dataFound (summary r) = true
     ↔ ∃ e, e ∈ sources r ∧ success e = true ∧ found e = true).

(** Whatever runs on the page while a run awaits, another search storing
    and filling its own report included, leaves a consistent report
    current if the one stored when the await began was consistent. *)
Definition KeepsConsistent (allSettled : Scheduler) : Prop :=
  ∀ promises app h,
    (∀ R, currentResults app = Some R → Consistent R) →
    ∀ R, currentResults (allSettled promises app h).1.1.2 = Some R →
         Consistent R.

(** A manager over the catalog the loader falls back to. *)
Definition fallbackManager : SourceManager.t :=
  {| SourceManager.sources := Some getFallbackSources; initialized := true |}.

(** ** Vocabulary of the further properties *)

Import Stats Loader Frontend.

(** The categories a manager works on: those of its catalog, once it is
    initialised. *)
Definition catalogOf (sm : SourceManager.t) : list (string * Category) :=
  match initialized sm, SourceManager.sources sm with
  | true, Some catalog => categories catalog
  | _, _ => []
  end.

(** The key that names the prototype of an object. *)
Definition isProto (key : string) : bool := String.eqb key "__proto__".

(** The categories whose key is not that one, and those under it. *)
Definition listed (sm : SourceManager.t) : list (string * Category) :=
  List.filter (λ kc, negb (isProto kc.1)) (catalogOf sm).

Definition hidden (sm : SourceManager.t) : list (string * Category) :=
  List.filter (λ kc, isProto kc.1) (catalogOf sm).

Definition enabledCount (c : Category) : nat :=
  length (List.filter src_enabled (cat_sources c)).

(** A catalog with a category under the key of the prototype, as
    [JSON.parse] makes of a document that has one. *)
Definition shadowedManager : SourceManager.t :=
  {| SourceManager.sources :=
       Some {| categories :=
                 [("email", {| cat_name := "Email Intelligence";
                               cat_sources := [retiredSource; sampleSource] |});
                  ("__proto__", {| cat_name := "Prototype";
                                   cat_sources := [sampleSource] |})] |};
     initialized := true |}.


(** The heap in which the query of the [index]-th source starts, and the
    wait before it. *)
Definition staggered (build : Build) (index : nat) (h : Heap) : Heap :=
  match build with
  | Basic => h
  | Staggered => elapse (Z.of_nat index * 500) h
  end.

Definition staggerWait (build : Build) (index : nat) : Trace :=
  match build with
  | Basic => []
  | Staggered => [Slept (Z.max 0 (Z.of_nat index * 500))]
  end.

(** What one step of the results loop makes of a report, for an outcome
    that is an envelope. *)
Definition counting (e : Envelope) (r : Report) : Report :=
  if success e then pushSuccess e r else countFailure r.

(** The await of a run over a single source during which another search
    stores its fresh report [other] and is still waiting for its own
    queries when the await ends. *)
Definition overtakenBy (other : Report) : Scheduler := λ promises app h,
  let '(results, h', t) := settleInOrder promises h in
  (results, setResults other app, h', t).

(** ** Vocabulary of the text heuristics *)

(** The code units of a string, and whether one of them is in a class. *)
Definition chars (s : string) : list ascii := String.list_ascii_of_string s.

Definition has (p : ascii → bool) (s : string) : bool := existsb p (chars s).

(** How many of the four kinds of character (upper case, lower case,
    digit, special) occur in the string. *)
Definition kinds (s : string) : nat :=
  (Nat.b2n (has Collection.upper s) + Nat.b2n (has Collection.lower s)
   + Nat.b2n (has Regex.digit s) + Nat.b2n (has Collection.special s))%nat.

(** The [found] flag and the profiles of either shape of result. *)
Definition foundOf (r : Analysis.UsernameAnalysis) : bool :=
  match r with
  | Analysis.InvalidUsername _ _ => false
  | Analysis.UsernameProfiles found _ _ _ _ _ => found
  end.

(** The text of a decimal number between 0 and 255, in one to three
    digits. *)
Definition OctetText (l : list ascii) : Prop :=
  (1 ≤ length l ≤ 3)%nat
  ∧ ∃ v, Analysis.Number l = Some v ∧ 0 ≤ v ≤ 255.

(** Four texts joined by dots. *)
Definition dotted (a b c d : list ascii) : list ascii :=
  a ++ "."%char :: b ++ "."%char :: c ++ "."%char :: d.

(** The ten decimal digits, and the texts of [n] of them. *)
Definition digitChars : list ascii := chars "0123456789".

Fixpoint digitTexts (n : nat) : list (list ascii) :=
  match n with
  | O => [[]]
  | S n' => flat_map (λ c, List.map (cons c) (digitTexts n')) digitChars
  end.

(** The octet pattern accepts a text exactly when its number is at most
    255. *)
Definition octetAgrees (t : list ascii) : bool :=
  Bool.eqb (Regex.matches Analysis.octetPattern t)
    (match Analysis.Number t with
     | Some v => (0 <=? v) && (v <=? 255)
     | None => false
     end).

(** The numbers of a dotted quad, as [analyzeIPPatterns] reads them. *)
Definition octetsOf (ip : string) : list (option Z) :=
  List.map Analysis.Number (Analysis.split "." (chars ip)).

(** A pair of coordinates as [generateLocationFromIP] draws them. *)
Definition sampleCoordinates : JSValue :=
  JObject [("lat", JString "48.8566"); ("lon", JString "2.3522")].

(** A label of a domain name: 1 to 63 letters, digits and hyphens, with no
    hyphen at either end. *)
Definition labelChar : ascii → bool :=
  Regex.anyOf (Collection.alnum ++ [Regex.isChar "-"%char]).

Definition Label (l : list ascii) : Prop :=
  (1 ≤ length l ≤ 63)%nat
  ∧ Forall (λ c, labelChar c = true) l
  ∧ (∃ c, head l = Some c ∧ Regex.anyOf Collection.alnum c = true)
  ∧ (∃ c, last l = Some c ∧ Regex.anyOf Collection.alnum c = true).

(** labels.join('.') *)
Definition joinDots (labels : list (list ascii)) : list ascii :=
  match labels with
  | [] => []
  | l :: ls => l ++ flat_map (cons "."%char) ls
  end.

(** The text of a list of code units. *)
Definition str (l : list ascii) : string := String.string_of_list_ascii l.

(** An opaque call that neither turns the clock back nor touches the
    collector's record of granted requests. *)
Definition Passive {A} (f : Opaque A) : Prop :=
  ∀ h, now h ≤ now (f h).2 ∧ rateLimits (f h).2 = rateLimits h.

(** A [fetch] that is passive and whose responses have a passive body. *)
Definition PassiveFetch (fetch : string → Opaque DNS.Response) : Prop :=
  ∀ url,
    Passive (fetch url)
    ∧ ∀ h response, (fetch url h).1 = Return response →
                    Passive (DNS.json response).

(** Times in order, each at least [gap] after the one before. *)
Fixpoint Spaced (gap : Z) (times : list Z) : Prop :=
  match times with
  | [] => True
  | a :: rest =>
      match rest with
      | [] => True
      | b :: _ => a + gap ≤ b
      end ∧ Spaced gap rest
  end.

(** The record types found, in the order of the answer. *)
Definition recordKeys (fields : Fields) : list string := fields.*1.

(** A name server that answers every question with one address. *)
Definition answeringFetch (latency : Z) (url : string)
  : Opaque DNS.Response := λ h,
  (Return {| DNS.ok := true;
             DNS.json := λ h',
               (Return (JObject
                  [("Answer",
                    JArray [JObject [("data", JString "93.184.216.34")]])]),
                h') |},
   elapse latency h).

(** The request made in heap [h] is answered with the records [values]:
    the fetch resolves with an ok status and a body that parses to an
    [Answer] of at least one record, with these data. *)
Definition AnsweredAt (fetch : string → Opaque DNS.Response) (url : string)
    (h : Heap) (values : list JSValue) : Prop :=
  ∃ response h1 data h2,
    fetch url h = (Return response, h1)
    ∧ DNS.ok response = true
    ∧ DNS.json response h1 = (Return data, h2)
    ∧ DNS.answerData data = Some values.

(** A name server that answers the request with [values] whenever it is
    asked, and one that never answers it with any records. *)
Definition Answers (fetch : string → Opaque DNS.Response) (url : string)
    (values : list JSValue) : Prop :=
  ∀ h, AnsweredAt fetch url h values.

Definition Unanswered (fetch : string → Opaque DNS.Response) (url : string)
  : Prop :=
  ∀ h values, ¬ AnsweredAt fetch url h values.

(** A record type stored with its non-empty array of answers. *)
Definition Stored (entry : string * JSValue) : Prop :=
  ∃ v vs, entry.2 = JArray (v :: vs).

(** The earliest time at which the limiter lets the next DNS request go. *)
Definition nextGrant (h : Heap) : Z :=
  Z.max (now h) (default 0 (rateLimits h !! "dns") + 100).

(** The answer of [getDNSRecords] for the records found. *)
Definition dnsAnswer (domain : JSValue) (results : Fields) : Fields :=
  [("found", JBool (0 <? length results)%nat);
   ("domain", domain);
   ("records", JObject results);
   ("ipAddresses", DNS.orEmpty (assoc "A" results));
   ("ipv6Addresses", DNS.orEmpty (assoc "AAAA" results));
   ("mailServers", DNS.orEmpty (assoc "MX" results));
   ("nameservers", DNS.orEmpty (assoc "NS" results));
   ("textRecords", DNS.orEmpty (assoc "TXT" results));
   ("collectionMethod", JString "DNS over HTTPS")].

(** What [analyzeEmail] reports of a lookup: its value when it resolved to
    an object with a truthy [found], nothing otherwise. *)
Definition reported (outcome : Presence.Outcome) : JSValue :=
  match outcome with
  | Presence.Fulfilled value =>
      if truthy (assoc "found" value) then JObject value else JUndefined
  | Presence.Rejected _ => JUndefined
  end.



(** ** Validation of envelope data *)

Lemma assoc_absent (key : string) (fields : Fields) :
  ¬ hasProp key fields → assoc key fields = JUndefined.
Proof.
  unfold hasProp. induction fields as [|[k v] rest IH]; simpl; [done|].
  intros Hnot. destruct (String.eqb_spec k key) as [->|Hne].
  - exfalso. apply Hnot. left.
  - apply IH. intros Hin. apply Hnot. by right.
Qed.

Lemma truthy_present (key : string) (value : JSValue) :
  truthy (getProp value key) = true → present key value.
Proof.
  destruct value; simpl; try discriminate.
  intros Ht. unfold hasProp. destruct (decide (key ∈ fields.*1)) as [|Hno]; [done|].
  rewrite (assoc_absent _ _ Hno) in Ht. discriminate.
Qed.

(** Case analysis on the shape of a JavaScript value, closing the shapes
    the hypotheses rule out. *)
Ltac by_shape value :=
  destruct value as [| |b|n| |s|items|fields|];
  simpl in *; rewrite ?orb_true_r in *; simpl in *;
  try discriminate; try done.

(** C10. [validateIntelligence] answers [{valid: true}] exactly for a
    non-null object whose [collectionMethod] property is present and truthy;
    anything that is not an object is rejected with 'Invalid data
    structure', an object without a truthy [collectionMethod] with 'Missing
    collection method'; envelope data lacking the field is never valid. *)
Theorem validateIntelligence_spec (value : JSValue) :
  (validateIntelligence value = {| valid := true; reason := None |}
     ↔ isObject value ∧ present "collectionMethod" value
       ∧ truthy (getProp value "collectionMethod") = true)
  ∧ (valid (validateIntelligence value) = true
     ↔ validateIntelligence value = {| valid := true; reason := None |})
  ∧ (¬ isObject value →
     validateIntelligence value
     = {| valid := false; reason := Some "Invalid data structure" |})
  ∧ (isObject value →
     ¬ (present "collectionMethod" value
        ∧ truthy (getProp value "collectionMethod") = true) →
     validateIntelligence value
     = {| valid := false; reason := Some "Missing collection method" |})
  ∧ (∀ e : Envelope,
       ¬ hasProp "collectionMethod" (data e) →
       validateIntelligence (JObject (data e))
       = {| valid := false; reason := Some "Missing collection method" |}).
Proof.
  assert (Hiff : validateIntelligence value = {| valid := true; reason := None |}
     ↔ isObject value ∧ present "collectionMethod" value
       ∧ truthy (getProp value "collectionMethod") = true).
  { unfold isObject, validateIntelligence. split.
    - intros Hv. by_shape value.
      destruct (truthy (assoc "collectionMethod" fields)) eqn:Ht;
        simpl in *; [|discriminate].
      repeat split; try done.
      by apply (truthy_present "collectionMethod" (JObject fields)).
    - intros [[Hty Hnn] [_ Ht]]. by_shape value. by rewrite Ht. }
  split; [exact Hiff|]. split; [|split; [|split]].
  - unfold validateIntelligence. split; [|by intros ->].
    intros Hv. by_shape value.
    destruct (truthy _); simpl in *; discriminate || done.
  - unfold isObject, validateIntelligence. intros Hno.
    by_shape value; exfalso; apply Hno; (split; [done | discriminate]).
  - intros Hobj Hno. unfold validateIntelligence.
    destruct Hobj as [Hty Hnn]. by_shape value.
    destruct (truthy (assoc "collectionMethod" fields)) eqn:Ht; [|done].
    exfalso. apply Hno. split; [|done].
    by apply (truthy_present "collectionMethod" (JObject fields)).
  - intros e Hno. unfold validateIntelligence. simpl.
    by rewrite (assoc_absent _ _ Hno).
Qed.

(** ** Retry wrappers *)

(** Replays three attempts whose outcomes are given by the hypotheses. *)
Ltac attempts H1 H2 H3 :=
  change (Z.of_nat 0 + 1) with 1; change (Z.of_nat 1 + 1) with 2;
  change (Z.of_nat 1) with 1; change (Z.of_nat 2) with 2;
  rewrite H1; simpl; rewrite H2; simpl; rewrite H3; simpl.

(** C6. Under three attempts, a wrapped function that fails twice and then
    succeeds is invoked exactly three times, the wrapper returns its result
    and waits [base * 1] and then [base * 2] in between (the base is
    1000 ms in [fetchWithRetry] and in the first aggregator, 2000 ms in the
    second); when the third attempt fails too, its failure is the one
    re-raised. *)
Theorem retry_three_attempts :
  (∀ (Response : Type) (fetch : string → Opaque Response) url h0 e1 h1 e2 h2,
     fetch url h0 = (Throw e1, h1) →
     fetch url (elapse (1000 * 1) h1) = (Throw e2, h2) →
     (∀ response h3,
        fetch url (elapse (1000 * 2) h2) = (Return response, h3) →
        ∃ t, OSINTCollector.fetchWithRetry fetch url
               OSINTCollector.defaultMaxRetries h0
             = (Return (Some response), h3, t)
             ∧ invocations "fetch" t = 3%nat
             ∧ waited t = 1000 * (1 + 2))
     ∧ (∀ e3 h3,
        fetch url (elapse (1000 * 2) h2) = (Throw e3, h3) →
        ∃ t, OSINTCollector.fetchWithRetry fetch url
               OSINTCollector.defaultMaxRetries h0
             = (Throw e3, h3, t)
             ∧ invocations "fetch" t = 3%nat))
  ∧ (∀ build mgr sourceId query searchType h0 e1 h1 t1 e2 h2 t2,
     querySource mgr sourceId query searchType h0 = (Throw e1, h1, t1) →
     querySource mgr sourceId query searchType
       (elapse (backoffBase build * 1) h1) = (Throw e2, h2, t2) →
     (∀ value h3 t3,
        querySource mgr sourceId query searchType
          (elapse (backoffBase build * 2) h2) = (Return value, h3, t3) →
        ∃ t, querySourceWithRetry build mgr sourceId query searchType 3 h0
             = (Return (Some value), h3, t)
             ∧ invocations "querySource" t = 3%nat
             ∧ waited t = backoffBase build * (1 + 2))
     ∧ (∀ e3 h3 t3,
        querySource mgr sourceId query searchType
          (elapse (backoffBase build * 2) h2) = (Throw e3, h3, t3) →
        ∃ t, querySourceWithRetry build mgr sourceId query searchType 3 h0
             = (Throw e3, h3, t)
             ∧ invocations "querySource" t = 3%nat)).
Proof.
  split.
  - intros Response fetch url h0 e1 h1 e2 h2 H1 H2. split.
    + intros response h3 H3. eexists.
      unfold OSINTCollector.fetchWithRetry, OSINTCollector.defaultMaxRetries.
      simpl. unfold tryCatch, bind, callOpaque, delay, ret; simpl.
      attempts H1 H2 H3.
      split; [reflexivity|]. split; reflexivity.
    + intros e3 h3 H3. eexists.
      unfold OSINTCollector.fetchWithRetry, OSINTCollector.defaultMaxRetries.
      simpl. unfold tryCatch, bind, callOpaque, delay, throw, ret; simpl.
      attempts H1 H2 H3.
      split; reflexivity.
  - intros build mgr sourceId query searchType h0 e1 h1 t1 e2 h2 t2 H1 H2.
    assert (Hb : 0 < backoffBase build) by (by destruct build).
    split.
    + intros value h3 t3 H3. eexists.
      unfold querySourceWithRetry. simpl.
      unfold tryCatch, bind, call, delay, ret; simpl.
      attempts H1 H2 H3.
      split; [reflexivity|]. split; [reflexivity|].
      unfold waited. lia.
    + intros e3 h3 t3 H3. eexists.
      unfold querySourceWithRetry. simpl.
      unfold tryCatch, bind, call, delay, throw, ret; simpl.
      attempts H1 H2 H3.
      split; reflexivity.
Qed.

Lemma retry_three_attempts_witness :
  (∃ t, OSINTCollector.fetchWithRetry flakyFetch "https://crt.sh/" 3
          (emptyHeap 0)
        = (Return (Some 200%nat), emptyHeap 3000, t)
        ∧ invocations "fetch" t = 3%nat ∧ waited t = 1000 * (1 + 2))
  ∧ (∃ t, OSINTCollector.fetchWithRetry deadFetch "https://crt.sh/" 3
          (emptyHeap 0)
        = (Throw "Connection reset", emptyHeap 3000, t)
        ∧ invocations "fetch" t = 3%nat)
  ∧ (∃ t, querySourceWithRetry Basic flakyManager "s1" "q" "email" 3
          (emptyHeap 0)
        = (Return (Some sampleEnvelope), emptyHeap 3000, t)
        ∧ invocations "querySource" t = 3%nat ∧ waited t = 1000 * (1 + 2))
  ∧ (∃ t, querySourceWithRetry Staggered deadManager "s1" "q" "email" 3
          (emptyHeap 0)
        = (Throw "Gave up", emptyHeap 6000, t)
        ∧ invocations "querySource" t = 3%nat).
Proof.
  destruct retry_three_attempts as [Hfetch Hquery].
  split; [|split; [|split]].
  - exact (proj1 (Hfetch nat flakyFetch "https://crt.sh/" (emptyHeap 0)
                    "Failed to fetch" (emptyHeap 0)
                    "Failed to fetch" (emptyHeap 1000) eq_refl eq_refl)
             200%nat (emptyHeap 3000) eq_refl).
  - exact (proj2 (Hfetch nat deadFetch "https://crt.sh/" (emptyHeap 0)
                    "Failed to fetch" (emptyHeap 0)
                    "Failed to fetch" (emptyHeap 1000) eq_refl eq_refl)
             "Connection reset" (emptyHeap 3000) eq_refl).
  - exact (proj1 (Hquery Basic flakyManager "s1" "q" "email" (emptyHeap 0)
                    "Source not found: s1" (emptyHeap 0) []
                    "Source not found: s1" (emptyHeap 1000) []
                    eq_refl eq_refl)
             sampleEnvelope (emptyHeap 3000) [] eq_refl).
  - exact (proj2 (Hquery Staggered deadManager "s1" "q" "email" (emptyHeap 0)
                    "No answer" (emptyHeap 0) []
                    "No answer" (emptyHeap 2000) []
                    eq_refl eq_refl)
             "Gave up" (emptyHeap 6000) [] eq_refl).
Defined.

(** ** The single-source query *)

Lemma getAllSources_spec (sm : SourceManager.t) (source : Source) :
  In source (getAllSources sm) ↔ KnownEnabled sm source.
Proof.
  unfold getAllSources, KnownEnabled.
  destruct (initialized sm), (SourceManager.sources sm) as [catalog|]; simpl.
  - rewrite in_flat_map. split.
    + intros [[key c] [Hin Hs]]. apply filter_In in Hs as [Hs Hen].
      split; [done|]. by exists catalog, key, c.
    + intros [_ (catalog' & key & c & Heq & Hin & Hs & Hen)].
      injection Heq as <-. exists (key, c). split; [done|].
      by apply filter_In.
  - split; [done|]. by intros [_ (? & ? & ? & ? & _)].
  - split; [done|]. by intros [? _].
  - split; [done|]. by intros [? _].
Qed.

Lemma findSourceById_None (sm : SourceManager.t) (id : string) :
  findSourceById sm id = None
  ↔ ¬ ∃ source, KnownEnabled sm source ∧ src_id source = id.
Proof.
  unfold findSourceById. split.
  - intros Hnone [source [Hk Hid]].
    apply getAllSources_spec in Hk.
    pose proof (find_none _ _ Hnone source Hk) as Hf. simpl in Hf.
    rewrite Hid, String.eqb_refl in Hf. discriminate.
  - intros Hno.
    destruct (find _ _) as [source|] eqn:Hf; [|done].
    apply find_some in Hf as [Hin Heq]. exfalso. apply Hno.
    exists source. split; [by apply getAllSources_spec|].
    by apply String.eqb_eq.
Qed.

Lemma querySource_unknown b sm sourceId query searchType h :
  findSourceById sm sourceId = None →
  SourceManager.querySource b sm sourceId query searchType h
  = (Throw ("Source not found: " +:+ sourceId), h, []).
Proof. intros Hf. unfold SourceManager.querySource. by rewrite Hf. Qed.

Lemma querySource_hit b sm sourceId query searchType h source cached :
  findSourceById sm sourceId = Some source →
  cache h !! cacheKey sourceId query = Some cached →
  SourceManager.querySource b sm sourceId query searchType h
  = (Return cached, h, []).
Proof.
  intros Hf Hc. unfold SourceManager.querySource. rewrite Hf.
  unfold bind, getHeap. by rewrite Hc.
Qed.

Lemma querySource_miss b sm sourceId query searchType h source :
  findSourceById sm sourceId = Some source →
  cache h !! cacheKey sourceId query = None →
  SourceManager.querySource b sm sourceId query searchType h
  = let '(r, h', t) :=
      gather b source query searchType (entering b source sourceId h) in
    (r, leaving sourceId query r h', busyWait b source sourceId h ++ t).
Proof.
  intros Hf Hc. unfold SourceManager.querySource. rewrite Hf.
  unfold bind at 1. unfold getHeap at 1. rewrite Hc.
  unfold entering, busyWait, leaving.
  destruct (bool_decide (sourceId ∈ activeRequests h));
    unfold bind, delay, ret, tryFinally, modify; simpl;
    destruct (gather b source query searchType _) as [[[result|e] h'] t];
    simpl; by rewrite ?app_nil_r.
Qed.

Lemma performRealIntelligenceGathering_spec collector source query searchType h :
  SourceManager.performRealIntelligenceGathering collector source query
    searchType h
  = let '(r, h') := collector source query searchType h in
    (Return (realEnvelope source query searchType r (now h')), h',
     [Called (handlerOf source) (now h) []]).
Proof.
  unfold SourceManager.performRealIntelligenceGathering, tryCatch, bind,
    callOpaque, getHeap, ret.
  by destruct (collector source query searchType h) as [[payload|error] h'].
Qed.

Lemma performSelfBuiltAnalysis_spec latency analysis source query searchType h :
  performSelfBuiltAnalysis latency analysis source query searchType h
  = let '(r, h') := analysis source query searchType (elapse (latency h) h) in
    (Return (selfBuiltEnvelope source query searchType r (now h')), h',
     [Slept (Z.max 0 (latency h));
      Called (handlerOf source) (now (elapse (latency h) h)) []]).
Proof.
  unfold performSelfBuiltAnalysis, tryCatch, bind, callOpaque, getHeap, ret,
    delay.
  by destruct (analysis source query searchType _) as [[payload|error] h'].
Qed.

Lemma invocations_single callee c at_ inner :
  (invocations callee [Called c at_ inner] ≤ 1)%nat.
Proof. unfold invocations. simpl. destruct (String.eqb c callee); simpl; lia. Qed.

(** Neither shipped manager lets a handler failure escape, and each calls
    the handler once per gathering. *)
Lemma shipped_gather b source query searchType h :
  Shipped b →
  ∃ result h' t,
    gather b source query searchType h = (Return result, h', t)
    ∧ ∀ callee, (invocations callee t ≤ 1)%nat.
Proof.
  intros [(latency & analysis & ->) | (collector & ->)]; simpl.
  - rewrite performSelfBuiltAnalysis_spec.
    destruct (analysis source query searchType _) as [r h'].
    do 3 eexists. split; [done|].
    intros callee. apply (invocations_single callee).
  - rewrite performRealIntelligenceGathering_spec.
    destruct (collector source query searchType h) as [r h'].
    do 3 eexists. split; [done|].
    intros callee. apply invocations_single.
Qed.

Lemma invocations_busyWait callee b source sourceId h t :
  invocations callee (busyWait b source sourceId h ++ t) = invocations callee t.
Proof. unfold busyWait. by destruct (bool_decide _). Qed.

(** The outcome of a query for a source the catalog knows, with a shipped
    manager: an envelope, left in the cache under the query's key. *)
Lemma querySource_known b sm sourceId query searchType h source :
  Shipped b →
  findSourceById sm sourceId = Some source →
  ∃ result h' t,
    SourceManager.querySource b sm sourceId query searchType h
    = (Return result, h', t)
    ∧ cache h' !! cacheKey sourceId query = Some result
    ∧ ∀ callee, (invocations callee t ≤ 1)%nat.
Proof.
  intros Hb Hf.
  destruct (cache h !! cacheKey sourceId query) as [cached|] eqn:Hc.
  - rewrite (querySource_hit _ _ _ _ _ _ _ _ Hf Hc).
    do 3 eexists. split; [done|]. split; [done|].
    intros callee. unfold invocations. simpl. lia.
  - rewrite (querySource_miss _ _ _ _ _ _ _ Hf Hc).
    destruct (shipped_gather b source query searchType
                (entering b source sourceId h) Hb)
      as (result & h' & t & -> & Hcalls).
    do 3 eexists. split; [done|]. split.
    + unfold leaving. simpl. apply lookup_insert_eq.
    + intros callee. rewrite invocations_busyWait. apply Hcalls.
Qed.


(** On a miss a shipped manager calls the source's handler exactly once. *)
Lemma shipped_gather_once b source query searchType h :
  Shipped b →
  invocations (handlerOf source) (gather b source query searchType h).2
  = 1%nat.
Proof.
  intros [(latency & analysis & ->) | (collector & ->)]; simpl.
  - rewrite performSelfBuiltAnalysis_spec.
    destruct (analysis source query searchType _) as [r h'].
    unfold invocations. simpl. by rewrite String.eqb_refl.
  - rewrite performRealIntelligenceGathering_spec.
    destruct (collector source query searchType h) as [r h'].
    unfold invocations. simpl. by rewrite String.eqb_refl.
Qed.

(** C8. Two consecutive calls of [querySource] for the same source and
    query, however long apart (so in particular within the hour). For a
    known source the first call returns an envelope and leaves it in the
    cache under the query's key: the cached envelope, with no wait and no
    handler call, if there was one; otherwise the envelope the manager makes
    of the outcome of the source's handler, which it calls exactly once.
    The second call returns that very envelope, served from the cache: it
    waits for nothing, calls no handler and leaves the heap as it found it,
    so no handler runs more than once over the two calls. For an id that
    names no enabled source of the catalog, which is exactly when
    [findSourceById] finds none, both calls raise the same error, and
    nothing else happens. *)
Theorem querySource_cached_idempotent b sm sourceId query searchType
    searchType' h ms :
  Shipped b →
  (findSourceById sm sourceId = None
   ↔ ¬ ∃ source, KnownEnabled sm source ∧ src_id source = sourceId)
  ∧
  match findSourceById sm sourceId with
  | Some source =>
      ∃ e h1 t1,
        SourceManager.querySource b sm sourceId query searchType h
        = (Return e, h1, t1)
        ∧ SourceManager.querySource b sm sourceId query searchType'
            (elapse ms h1)
          = (Return e, elapse ms h1, [])
        ∧ cache h1 !! cacheKey sourceId query = Some e
        ∧ (∀ callee, (invocations callee (t1 ++ []) ≤ 1)%nat)
        ∧ match cache h !! cacheKey sourceId query with
          | Some cached => e = cached ∧ h1 = h ∧ t1 = []
          | None =>
              let started := entering b source sourceId h in
              invocations (handlerOf source) t1 = 1%nat
              ∧ (∀ collector, b = integrated collector →
                   let '(r, h') := collector source query searchType started in
                   e = realEnvelope source query searchType r (now h'))
              ∧ (∀ latency analysis, b = selfBuilt latency analysis →
                   let '(r, h') :=
                     analysis source query searchType
                       (elapse (latency started) started) in
                   e = selfBuiltEnvelope source query searchType r (now h'))
          end
  | None =>
      SourceManager.querySource b sm sourceId query searchType h
      = (Throw ("Source not found: " +:+ sourceId), h, [])
      ∧ SourceManager.querySource b sm sourceId query searchType'
          (elapse ms h)
        = (Throw ("Source not found: " +:+ sourceId), elapse ms h, [])
  end.
Proof.
  intros Hb. split; [apply findSourceById_None|].
  destruct (findSourceById sm sourceId) as [source|] eqn:Hf;
    [|by rewrite !querySource_unknown].
  destruct (cache h !! cacheKey sourceId query) as [cached|] eqn:Hc.
  - exists cached, h, []. rewrite (querySource_hit _ _ _ _ _ _ _ _ Hf Hc).
    split; [done|]. split; [by apply (querySource_hit _ _ _ _ _ _ source)|].
    split; [done|]. split; [|done].
    intros callee. unfold invocations. simpl. lia.
  - rewrite (querySource_miss _ _ _ _ _ _ _ Hf Hc).
    pose proof (shipped_gather_once b source query searchType
                  (entering b source sourceId h) Hb) as Honce.
    destruct (shipped_gather b source query searchType
                (entering b source sourceId h) Hb)
      as (e & h0 & t0 & Hg & Hcalls).
    rewrite Hg in Honce |- *. simpl in Honce.
    assert (Hkept : cache (leaving sourceId query (Return e) h0)
                    !! cacheKey sourceId query = Some e).
    { unfold leaving. simpl. apply lookup_insert_eq. }
    exists e, (leaving sourceId query (Return e) h0),
      (busyWait b source sourceId h ++ t0).
    split; [done|].
    split; [by apply (querySource_hit _ _ _ _ _ _ source)|].
    split; [done|].
    split; [intros callee; by rewrite app_nil_r, invocations_busyWait|].
    cbv zeta. split; [by rewrite invocations_busyWait|]. split.
    + intros collector ->. simpl in Hg.
      rewrite performRealIntelligenceGathering_spec in Hg.
      destruct (collector source query searchType _) as [r h'].
      by injection Hg as <- _ _.
    + intros latency analysis ->. simpl in Hg.
      rewrite performSelfBuiltAnalysis_spec in Hg.
      destruct (analysis source query searchType _) as [r h'].
      by injection Hg as <- _ _.
Qed.

Lemma querySource_cached_idempotent_witness :
  Shipped (integrated steadyHandler)
  ∧ ∃ e h1 t1,
      SourceManager.querySource (integrated steadyHandler) sampleManager
        "s1" "alice@example.com" "email" (emptyHeap 0)
      = (Return e, h1, t1)
      ∧ SourceManager.querySource (integrated steadyHandler) sampleManager
          "s1" "alice@example.com" "email" (elapse 60000 h1)
        = (Return e, elapse 60000 h1, [])
      ∧ e = envelope sampleSource "alice@example.com" "email" 300
              [("found", JBool true);
               ("query", JString "alice@example.com")]
              true (Some "real_intelligence")
      ∧ invocations (handlerOf sampleSource) t1 = 1%nat.
Proof.
  assert (Hb : Shipped (integrated steadyHandler)) by (right; by eexists).
  split; [exact Hb|].
  destruct (proj2 (querySource_cached_idempotent (integrated steadyHandler)
                     sampleManager "s1" "alice@example.com" "email" "email"
                     (emptyHeap 0) 60000 Hb))
    as (e & h1 & t1 & Hfirst & Hsecond & _ & _ & Honce & Hmade & _).
  exists e, h1, t1. split; [exact Hfirst|]. split; [exact Hsecond|].
  split; [exact (Hmade steadyHandler eq_refl)|exact Honce].
Defined.

(** C5. With either shipped manager, [querySource] rejects exactly when the
    id names no enabled source of the loaded catalog; for a known source it
    returns an envelope, and a handler that throws is answered with an
    envelope whose [success] is false, whose [data.found] is false and
    whose [data.error] carries the message thrown. *)
Theorem querySource_raises_iff_unknown b sm sourceId query searchType h :
  Shipped b →
  ((∃ message,
      (SourceManager.querySource b sm sourceId query searchType h).1.1
      = Throw message)
   ↔ ¬ ∃ source, KnownEnabled sm source ∧ src_id source = sourceId)
  ∧ ((∃ source, KnownEnabled sm source ∧ src_id source = sourceId) →
     ∃ result,
       (SourceManager.querySource b sm sourceId query searchType h).1.1
       = Return result)
  ∧ (∀ source message h',
       findSourceById sm sourceId = Some source →
       cache h !! cacheKey sourceId query = None →
       (∀ collector,
          b = integrated collector →
          collector source query searchType (entering b source sourceId h)
          = (Throw message, h') →
          ∃ result,
            (SourceManager.querySource b sm sourceId query searchType h).1.1
            = Return result
            ∧ success result = false ∧ found result = false
            ∧ assoc "error" (data result) = JString message)
       ∧ (∀ latency analysis,
          b = selfBuilt latency analysis →
          analysis source query searchType
            (elapse (latency (entering b source sourceId h))
               (entering b source sourceId h))
          = (Throw message, h') →
          ∃ result,
            (SourceManager.querySource b sm sourceId query searchType h).1.1
            = Return result
            ∧ success result = false ∧ found result = false
            ∧ assoc "error" (data result) = JString message)).
Proof.
  intros Hb. split; [|split].
  - rewrite <- findSourceById_None. split.
    + intros [message Hthrow].
      destruct (findSourceById sm sourceId) as [source|] eqn:Hf; [|done].
      destruct (querySource_known b sm sourceId query searchType h source Hb Hf)
        as (result & h' & t & Hq & _).
      rewrite Hq in Hthrow. discriminate.
    + intros Hf. rewrite querySource_unknown by done. by eexists.
  - intros Hknown.
    destruct (findSourceById sm sourceId) as [source|] eqn:Hf.
    + destruct (querySource_known b sm sourceId query searchType h source Hb Hf)
        as (result & h' & t & -> & _).
      by exists result.
    + by apply findSourceById_None in Hf.
  - intros source message h' Hf Hc. split.
    + intros collector -> Hthrow.
      rewrite (querySource_miss _ _ _ _ _ _ _ Hf Hc). simpl.
      rewrite performRealIntelligenceGathering_spec, Hthrow. simpl.
      by eexists.
    + intros latency analysis -> Hthrow.
      rewrite (querySource_miss _ _ _ _ _ _ _ Hf Hc). simpl.
      rewrite performSelfBuiltAnalysis_spec, Hthrow. simpl.
      by eexists.
Qed.

Lemma querySource_raises_iff_unknown_witness :
  Shipped (integrated failingHandler)
  ∧ (SourceManager.querySource (integrated failingHandler) sampleManager
       "s0" "alice@example.com" "email" (emptyHeap 0)).1.1
    = Throw "Source not found: s0"
  ∧ ∃ result,
      (SourceManager.querySource (integrated failingHandler) sampleManager
         "s1" "alice@example.com" "email" (emptyHeap 0)).1.1
      = Return result
      ∧ success result = false ∧ found result = false
      ∧ assoc "error" (data result) = JString "Network request failed".
Proof.
  assert (Hb : Shipped (integrated failingHandler)) by (right; by eexists).
  split; [exact Hb|]. split; [reflexivity|].
  exact (proj1 (proj2 (proj2
           (querySource_raises_iff_unknown (integrated failingHandler)
              sampleManager "s1" "alice@example.com" "email" (emptyHeap 0) Hb))
           sampleSource "Network request failed"
           (entering (integrated failingHandler) sampleSource "s1"
              (emptyHeap 0))
           eq_refl eq_refl)
         failingHandler eq_refl eq_refl).
Defined.

(** ** Cache expiry *)

(** C3, as the claim states it, fails: the self-built manager answers a
    query repeated one hour and one millisecond later from its cache, with
    the envelope stamped at the first call and without calling the
    handler. *)
Lemma querySource_serves_expired_entry :
  let b := selfBuilt (λ _, 300) instantHandler in
  let first :=
    SourceManager.querySource b sampleManager "s1" "alice@example.com"
      "email" (emptyHeap 0) in
  let later := elapse (OSINTCollector.TTL + 1) first.1.2 in
  let second :=
    SourceManager.querySource b sampleManager "s1" "alice@example.com"
      "email" later in
  let stale :=
    envelope sampleSource "alice@example.com" "email" 300
      [("found", JBool true); ("query", JString "alice@example.com")]
      true None in
  first.1.1 = Return stale ∧ second.1.1 = Return stale
  ∧ OSINTCollector.TTL ≤ now later - timestamp stale
  ∧ invocations (handlerOf sampleSource) first.2 = 1%nat
  ∧ invocations (handlerOf sampleSource) second.2 = 0%nat.
Proof.
  cbv zeta.
  split; [by vm_compute|]. split; [by vm_compute|].
  split; [by vm_compute|]. split; by vm_compute.
Qed.

Lemma getCached_fresh key h entry :
  collectorCache h !! key = Some entry →
  now h - c_timestamp entry < OSINTCollector.TTL →
  OSINTCollector.getCached key h = c_data entry.
Proof.
  intros Hc Hlt. unfold OSINTCollector.getCached. rewrite Hc.
  by rewrite (proj2 (Z.ltb_lt _ _) Hlt).
Qed.

Lemma getCached_expired key h entry :
  collectorCache h !! key = Some entry →
  OSINTCollector.TTL ≤ now h - c_timestamp entry →
  OSINTCollector.getCached key h = JNull.
Proof.
  intros Hc Hge. unfold OSINTCollector.getCached. rewrite Hc.
  by rewrite (proj2 (Z.ltb_ge _ _) Hge).
Qed.

(** C3, amended. The time-boxed cache is the collector's: an entry read
    through [getCached] yields its data while less than an hour old and
    reads as absent ([null], as for a missing or deleted key) from then on.
    The cache [querySource] consults has no expiry: an entry is served,
    without wait and without handler call, however late the query is
    repeated. *)
Theorem cache_expiry :
  (∀ key h entry,
     collectorCache h !! key = Some entry →
     (now h - c_timestamp entry < OSINTCollector.TTL →
      OSINTCollector.getCached key h = c_data entry)
     ∧ (OSINTCollector.TTL ≤ now h - c_timestamp entry →
        OSINTCollector.getCached key h = JNull
        ∧ OSINTCollector.getCached key h
          = OSINTCollector.getCached key
              (set_collectorCache (delete key (collectorCache h)) h)))
  ∧ (∀ key value h ms,
       0 ≤ ms →
       OSINTCollector.getCached key
         (elapse ms (OSINTCollector.setCached key value h))
       = if ms <? OSINTCollector.TTL then value else JNull)
  ∧ (∀ key h,
       collectorCache h !! key = None → OSINTCollector.getCached key h = JNull)
  ∧ (∀ b sm sourceId query searchType h source cached ms,
       findSourceById sm sourceId = Some source →
       cache h !! cacheKey sourceId query = Some cached →
       SourceManager.querySource b sm sourceId query searchType (elapse ms h)
       = (Return cached, elapse ms h, [])).
Proof.
  split; [|split; [|split]].
  - intros key h entry Hc. split.
    + by apply getCached_fresh.
    + intros Hge. split; [by eapply getCached_expired|].
      rewrite (getCached_expired _ _ _ Hc Hge).
      unfold OSINTCollector.getCached. simpl.
      by rewrite lookup_delete_eq.
  - intros key value h ms Hms.
    unfold OSINTCollector.getCached, OSINTCollector.setCached. simpl.
    rewrite lookup_insert_eq. simpl.
    replace (now h + Z.max 0 ms - now h) with ms by lia. done.
  - intros key h Hc. unfold OSINTCollector.getCached. by rewrite Hc.
  - intros b sm sourceId query searchType h source cached ms Hf Hc.
    by apply (querySource_hit b sm sourceId query searchType (elapse ms h)
                source cached Hf).
Qed.

Lemma cache_expiry_witness :
  OSINTCollector.getCached "crt:example.com"
    (elapse 3599999
       (OSINTCollector.setCached "crt:example.com" (JBool true) (emptyHeap 0)))
  = JBool true
  ∧ OSINTCollector.getCached "crt:example.com"
      (elapse 3600000
         (OSINTCollector.setCached "crt:example.com" (JBool true) (emptyHeap 0)))
    = JNull.
Proof.
  destruct cache_expiry as (_ & Hset & _).
  split.
  - exact (Hset "crt:example.com" (JBool true) (emptyHeap 0) 3599999
             ltac:(done)).
  - exact (Hset "crt:example.com" (JBool true) (emptyHeap 0) 3600000
             ltac:(done)).
Defined.


(** ** Rate limiting *)


Lemma rateLimit_spec meanwhile service minInterval h :
  OSINTCollector.rateLimit meanwhile service minInterval h
  = let since := now h - default 0 (rateLimits h !! service) in
    let h1 := if since <? minInterval
              then meanwhile (elapse (minInterval - since) h) else h in
    (Return (),
     set_rateLimits (<[service := now h1]> (rateLimits h1)) h1,
     if since <? minInterval then [Slept (Z.max 0 (minInterval - since))]
     else []).
Proof.
  unfold OSINTCollector.rateLimit, bind, getHeap. simpl.
  by destruct (_ <? _).
Qed.




(** ** Aggregation *)

Lemma initialReport_consistent query searchType at_ n :
  Consistent (initialReport query searchType at_ n).
Proof.
  unfold Consistent. simpl. split; [done|]. split; [constructor|].
  split; [done|]. intros (e & He & _). by apply elem_of_nil in He.
Qed.

Lemma processResult_consistent result r r' :
  Consistent r → processResult result r = Return r' → Consistent r'.
Proof.
  intros (Hlen & Hall & Hfound) Hstep.
  assert (Hfail : Consistent (countFailure r)) by done.
  destruct result as [[value|]|reason]; simpl in Hstep;
    [|discriminate|by injection Hstep as <-].
  destruct (success value) eqn:Hs; injection Hstep as <-; [|done].
  unfold Consistent. simpl. split; [|split].
  - rewrite length_app. simpl. lia.
  - apply Forall_app. split; [done|]. by constructor.
  - destruct (found value) eqn:Hf.
    + split; [|done]. intros _. exists value.
      split; [|done]. apply elem_of_app. right. by apply list_elem_of_singleton.
    + rewrite Hfound. split.
      * intros (e & He & Hse & Hfe). exists e.
        split; [|done]. apply elem_of_app. by left.
      * intros (e & He & Hse & Hfe). apply elem_of_app in He as [He|He].
        -- by exists e.
        -- apply list_elem_of_singleton in He as ->. congruence.
Qed.

(** The loop keeps the report consistent, also when it is cut short. *)
Lemma processResults_consistent results r :
  Consistent r → Consistent (processResults results r).2.
Proof.
  revert r. induction results as [|result rest IH]; intros r Hr; [done|].
  simpl. destruct (processResult result r) as [r'|e] eqn:Hstep; [|done].
  apply IH. by eapply processResult_consistent.
Qed.

Lemma processResults_totalSources results r :
  totalSources (summary (processResults results r).2) = totalSources (summary r).
Proof.
  revert r. induction results as [|result rest IH]; intros r; [done|].
  simpl. destruct (processResult result r) as [r'|e] eqn:Hstep; [|done].
  rewrite IH.
  destruct result as [[value|]|reason]; simpl in Hstep;
    [destruct (success value)|discriminate|]; by injection Hstep as <-.
Qed.

(** Over settled entries that are all defined, the loop runs to its end and
    its effect has a closed form. *)
Lemma processResults_defined results r :
  Forall defined results →
  ∃ r', processResults results r = (Return (), r')
    ∧ sources r' = sources r ++ successes results
    ∧ successfulSources (summary r')
      = (successfulSources (summary r) + length (successes results))%nat
    ∧ (failedSources (summary r') + length (successes results)
       = failedSources (summary r) + length results)%nat
    ∧ dataFound (summary r')
      = dataFound (summary r) || existsb found (successes results).
Proof.
  intros Hdef. revert r.
  induction Hdef as [|result rest Hd Hrest IH]; intros r.
  - exists r. simpl. rewrite app_nil_r, orb_false_r.
    repeat split; lia.
  - destruct result as [[value|]|reason]; [|done|].
    + simpl. destruct (success value) eqn:Hs.
      * destruct (IH (pushSuccess value r))
          as (r' & -> & Hsrc & Hsucc & Hfail & Hfound).
        exists r'. split; [done|]. simpl in *.
        rewrite Hsrc, Hsucc, Hfound, <- app_assoc.
        repeat split; try lia.
        destruct (found value), (dataFound (summary r)); done.
      * destruct (IH (countFailure r))
          as (r' & -> & Hsrc & Hsucc & Hfail & Hfound).
        exists r'. split; [done|]. simpl in *.
        repeat split; try done; lia.
    + simpl. destruct (IH (countFailure r))
        as (r' & -> & Hsrc & Hsucc & Hfail & Hfound).
      exists r'. split; [done|]. simpl in *.
      repeat split; try done; lia.
Qed.


Lemma existsb_Permutation {A} (f : A → bool) (l l' : list A) :
  Permutation l l' → existsb f l = existsb f l'.
Proof.
  induction 1 as [|x l l' _ IH|x y l|l l' l'' _ IH1 _ IH2]; simpl.
  - done.
  - by rewrite IH.
  - destruct (f x), (f y); done.
  - by rewrite IH1.
Qed.

(** With its default of two attempts the retry wrapper settles to an
    envelope or to a rejection, never to [undefined]. *)
Lemma dispatch_defined build mgr query searchType index source h :
  (dispatch build mgr query searchType index source h).1.1 ≠ Return None.
Proof.
  assert (Hretry : ∀ h0,
    (querySourceWithRetry build mgr (src_id source) query searchType
       defaultMaxRetries h0).1.1 ≠ Return None).
  { intros h0. unfold querySourceWithRetry, defaultMaxRetries. simpl.
    unfold tryCatch, bind, call, delay, throw, ret. simpl.
    destruct (querySource mgr _ _ _ h0) as [[[v1|e1] h1] t1]; simpl; [done|].
    destruct (querySource mgr _ _ _ _) as [[[v2|e2] h2] t2]; simpl; done. }
  destruct build; simpl; [apply Hretry|].
  unfold bind, delay. simpl.
  specialize (Hretry (elapse (Z.of_nat index * 500) h)).
  destruct (querySourceWithRetry _ _ _ _ _ _ _) as [[[v|e] h1] t1]; done.
Qed.



Lemma allSettledInOrder_undisturbed : Undisturbed allSettledInOrder.
Proof.
  intros promises app h. unfold allSettledInOrder.
  by destruct (settleInOrder promises h) as [[results h'] t].
Qed.

Lemma undisturbed_consistent allSettled :
  Undisturbed allSettled → KeepsConsistent allSettled.
Proof.
  intros Hund promises app h Happ R HR. apply Happ.
  by rewrite <- (Hund promises app h).
Qed.

(** What a run over a non-empty category leaves in [currentResults]: what
    the loop makes of the report that is current when the await ends. *)
Lemma run_report build allSettled page mgr query searchType app h available :
  getSourcesForType mgr searchType = Return available →
  available ≠ [] →
  let awaited :=
    allSettled (imap (dispatch build mgr query searchType) available)
      (setResults
         (initialReport query searchType (now h) (length available)) app)
      h in
  let processed :=
    processInto awaited.1.1.1 (currentResults awaited.1.1.2) in
  currentResults
    (run build allSettled page mgr query searchType app h).1.1.2
  = processed.2
  ∧ ((run build allSettled page mgr query searchType app h).1.1.1 = Return ()
     → processed.1 = Return ()).
Proof.
  intros Ha Hne. unfold run. rewrite Ha.
  destruct available as [|s rest]; [done|].
  change (length (s :: rest) =? 0)%nat with false. cbv iota zeta.
  destruct (allSettled _ _ h) as [[[results app1] h1] t]. simpl.
  destruct (processInto results _) as [[u|e] current]; simpl;
    [|split; [reflexivity|intros Hr; exact Hr]].
  unfold render. simpl.
  destruct (displayResults page current); simpl; [|done].
  destruct (updateTimelineResults page current); simpl; [|done].
  destruct (updateNetworkResults page current); simpl; [|done].
  split; [done|]. intros _. by destruct u.
Qed.





(** C7. In every report a run produces, [dataFound] is set exactly when
    some listed envelope is successful and found data; where the handlers
    keep to a boolean [found], that is exactly when some listed envelope is
    successful and has [data.found] equal to [true]. This holds of whatever
    report is current when the run ends, its own or, when searches overlap,
    the one another search stored in the meantime: every step of the loop
    updates the list and the flag of one report together. *)
Theorem dataFound_iff build allSettled page mgr query searchType app h
    available R :
  KeepsConsistent allSettled →
  getSourcesForType mgr searchType = Return available →
  available ≠ [] →
  currentResults (run build allSettled page mgr query searchType app h).1.1.2
  = Some R →
  (dataFound (summary R) = true
   ↔ ∃ e, e ∈ sources R ∧ success e = true ∧ found e = true)
  ∧ (Forall (λ e, ∃ b, assoc "found" (data e) = JBool b) (sources R) →
     dataFound (summary R) = true
     ↔ ∃ e, e ∈ sources R ∧ success e = true
            ∧ assoc "found" (data e) = JBool true).
Proof.
  intros Hkeep Ha Hne Hcur.
  destruct (run_report build allSettled page mgr query searchType app h
              available Ha Hne) as [Hrep _].
  rewrite Hrep in Hcur. clear Hrep.
  set (r0 := initialReport query searchType (now h) (length available)) in *.
  pose proof (Hkeep (imap (dispatch build mgr query searchType) available)
                (setResults r0 app) h) as Hinv.
  set (awaited := allSettled _ (setResults r0 app) h) in *.
  assert (Hiff : dataFound (summary R) = true
                 ↔ ∃ e, e ∈ sources R ∧ success e = true ∧ found e = true).
  { destruct (currentResults awaited.1.1.2) as [R1|] eqn:HR1.
    - assert (HR1c : Consistent R1).
      { apply Hinv; [|done]. intros R' [= <-]. apply initialReport_consistent. }
      destruct (processResults_consistent awaited.1.1.1 R1 HR1c)
        as (_ & _ & Hiff).
      simpl in Hcur. destruct (processResults awaited.1.1.1 R1) as [o R2].
      by injection Hcur as <-.
    - simpl in Hcur. by destruct awaited.1.1.1 as [|[[v|]|reason] rest]. }
  split; [exact Hiff|].
  intros Hbool. rewrite Hiff. rewrite Forall_forall in Hbool.
  split; intros (e & He & Hs & Hf); exists e; (split; [done|]);
    (split; [done|]); destruct (Hbool e He) as [b Hb];
    unfold found in *; rewrite Hb in *; simpl in *; congruence.
Qed.

Lemma dataFound_iff_witness :
  ∃ R,
    currentResults
      (run Staggered allSettledInOrder plainPage
         (manage (integrated steadyHandler) sampleManager)
         "alice@example.com" "email" newApp (emptyHeap 0)).1.1.2
    = Some R
    ∧ dataFound (summary R) = true
    ∧ (dataFound (summary R) = true
       ↔ ∃ e, e ∈ sources R ∧ success e = true ∧ found e = true).
Proof.
  eexists. split; [vm_compute; reflexivity|]. split; [reflexivity|].
  apply (dataFound_iff Staggered allSettledInOrder plainPage
           (manage (integrated steadyHandler) sampleManager)
           "alice@example.com" "email" newApp (emptyHeap 0) [sampleSource]);
    [exact (undisturbed_consistent _ allSettledInOrder_undisturbed)
    | reflexivity | discriminate | vm_compute; reflexivity].
Defined.

Lemma defined_Permutation results results' :
  Permutation results results' →
  Forall defined results → Forall defined results'.
Proof.
  intros Hperm Hdef. apply Forall_forall. intros result Hin.
  rewrite Forall_forall in Hdef. apply Hdef. by rewrite Hperm.
Qed.

Lemma summary_eq (s s' : Summary) :
  totalSources s = totalSources s' →
  successfulSources s = successfulSources s' →
  failedSources s = failedSources s' →
  dataFound s = dataFound s' →
  s = s'.
Proof. destruct s, s'. simpl. by intros -> -> -> ->. Qed.

(** C9. The summary does not depend on the order in which the outcomes
    arrive: over any two arrangements of the same settled outcomes the
    loop runs to its end and computes the same four summary values, and so
    do two runs whose awaits settle the same outcomes in different orders
    and end with the same report current. *)
Theorem summary_order_independent results results' :
  Permutation results results' →
  Forall defined results →
  (∀ report,
     (processResults results report).1 = Return ()
     ∧ (processResults results' report).1 = Return ()
     ∧ summary (processResults results report).2
       = summary (processResults results' report).2)
  ∧ (∀ build page mgr query searchType app h (first second : Scheduler),
       let stored available :=
         setResults
           (initialReport query searchType (now h) (length available)) app in
       (∀ available,
          getSourcesForType mgr searchType = Return available →
          let promises :=
            imap (dispatch build mgr query searchType) available in
          (first promises (stored available) h).1.1.1 = results
          ∧ (second promises (stored available) h).1.1.1 = results'
          ∧ currentResults (first promises (stored available) h).1.1.2
            = currentResults (second promises (stored available) h).1.1.2) →
       summary <$>
         currentResults
           (run build first page mgr query searchType app h).1.1.2
       = summary <$>
           currentResults
             (run build second page mgr query searchType app h).1.1.2).
Proof.
  intros Hperm Hdef.
  assert (Hloop : ∀ report,
     (processResults results report).1 = Return ()
     ∧ (processResults results' report).1 = Return ()
     ∧ summary (processResults results report).2
       = summary (processResults results' report).2).
  { intros report.
    pose proof (processResults_totalSources results report) as Ht1.
    pose proof (processResults_totalSources results' report) as Ht2.
    destruct (processResults_defined results report Hdef)
      as (r1 & Heq1 & _ & Hs1 & Hf1 & Hd1).
    destruct (processResults_defined results' report
                (defined_Permutation _ _ Hperm Hdef))
      as (r2 & Heq2 & _ & Hs2 & Hf2 & Hd2).
    rewrite Heq1 in *. rewrite Heq2 in *. simpl in *.
    assert (Hsucc : Permutation (successes results) (successes results'))
      by (by apply Permutation_flat_map).
    pose proof (Permutation_length Hsucc) as Hlen.
    pose proof (Permutation_length Hperm) as Hlen'.
    split; [done|]. split; [done|].
    apply summary_eq; try lia.
    rewrite Hd1, Hd2. f_equal. by apply existsb_Permutation. }
  split; [exact Hloop|].
  intros build page mgr query searchType app h first second. cbv zeta.
  intros Hsame.
  destruct (getSourcesForType mgr searchType) as [available|e] eqn:Ha;
    [|unfold run; by rewrite Ha].
  destruct available as [|s rest] eqn:Hav; [unfold run; by rewrite Ha|].
  rewrite <- Hav in *.
  assert (Hne : available ≠ []) by (by rewrite Hav).
  destruct (run_report build first page mgr query searchType app h
              available Ha Hne) as [-> _].
  destruct (run_report build second page mgr query searchType app h
              available Ha Hne) as [-> _].
  destruct (Hsame available eq_refl) as (-> & -> & ->).
  destruct (currentResults _) as [R1|]; simpl.
  - destruct (Hloop R1) as (_ & _ & Hsum).
    destruct (processResults results R1), (processResults results' R1).
    simpl in *. by rewrite Hsum.
  - destruct results as [|[[v|]|reason] rest1],
      results' as [|[[v'|]|reason'] rest2]; done.
Qed.

Lemma summary_order_independent_witness :
  let results :=
    [Fulfilled (Some sampleEnvelope); Rejected "Source not found: s9"] in
  let results' :=
    [Rejected "Source not found: s9"; Fulfilled (Some sampleEnvelope)] in
  let report := initialReport "q" "email" 0 2 in
  (processResults results report).1 = Return ()
  ∧ (processResults results' report).1 = Return ()
  ∧ summary (processResults results report).2
    = summary (processResults results' report).2.
Proof.
  exact (proj1 (summary_order_independent
                  [Fulfilled (Some sampleEnvelope);
                   Rejected "Source not found: s9"]
                  [Rejected "Source not found: s9";
                   Fulfilled (Some sampleEnvelope)]
                  (perm_swap _ _ [])
                  ltac:(repeat constructor; discriminate))
           (initialReport "q" "email" 0 2)).
Defined.


(** C2, as the claim states it, fails: over the fallback catalog, whose
    e-mail category is empty, the run completes without building a report;
    it shows an error message instead. *)
Lemma empty_category_builds_no_report :
  let after :=
    performOSINTSearch allSettledInOrder plainPage
      (manage (integrated steadyHandler) fallbackManager)
      "nobody@nowhere.tld" "email" newApp (emptyHeap 0) in
  after.1.1.1 = Return ()
  ∧ errorShown after.1.1.2 = Some "No sources available for email searches"
  ∧ currentResults after.1.1.2 = None
  ∧ ¬ ∃ R, currentResults after.1.1.2 = Some R
           ∧ totalSources (summary R) = 0%nat.
Proof.
  cbv zeta. split; [by vm_compute|]. split; [by vm_compute|].
  assert (Hnone : currentResults
            (performOSINTSearch allSettledInOrder plainPage
               (manage (integrated steadyHandler) fallbackManager)
               "nobody@nowhere.tld" "email" newApp (emptyHeap 0)).1.1.2
          = None) by (by vm_compute).
  split; [exact Hnone|]. intros (R & HR & _). rewrite Hnone in HR. discriminate.
Qed.

(** The sources [getSourcesForType] offers are the eligible ones. *)
Lemma getSourcesForType_spec (sm : SourceManager.t) searchType offered source :
  SourceManager.getSourcesForType sm searchType = Return offered →
  In source offered ↔ Eligible sm searchType source.
Proof.
  unfold SourceManager.getSourcesForType, Eligible.
  destruct (initialized sm), (SourceManager.sources sm) as [catalog|]; simpl.
  - destruct (category searchType (categories catalog)) as [c|] eqn:Hc.
    + intros [= <-]. rewrite filter_In. split.
      * intros [Hin Hen]. split; [done|]. by exists catalog, c.
      * intros [_ (catalog' & c' & Heq & Hc' & Hin & Hen)].
        injection Heq as <-. rewrite Hc in Hc'. by injection Hc' as <-.
    + destruct (inherited searchType); [done|]. intros [= <-].
      split; [done|].
      intros [_ (catalog' & c' & Heq & Hc' & _)].
      injection Heq as <-. congruence.
  - intros [= <-]. split; [done|]. by intros [_ (? & ? & ? & _)].
  - intros [= <-]. split; [done|]. by intros [? _].
  - intros [= <-]. split; [done|]. by intros [? _].
Qed.

(** [getSourcesForType] raises exactly on a name that the [categories]
    object inherits and does not define. *)
Lemma getSourcesForType_raises (sm : SourceManager.t) searchType :
  (∃ message, SourceManager.getSourcesForType sm searchType = Throw message)
  ↔ InheritedName sm searchType.
Proof.
  unfold SourceManager.getSourcesForType, InheritedName.
  destruct (initialized sm), (SourceManager.sources sm) as [catalog|]; simpl.
  - destruct (category searchType (categories catalog)) as [c|] eqn:Hc.
    + split; [by intros [? ?]|].
      intros [_ (catalog' & Heq & Hc' & _)]. injection Heq as <-. congruence.
    + destruct (inherited searchType) eqn:Hi.
      * split; [|by eexists]. intros _. split; [done|]. by exists catalog.
      * split; [by intros [? ?]|].
        intros [_ (catalog' & _ & _ & ?)]. congruence.
  - split; [by intros [? ?]|]. by intros [_ (? & ? & _)].
  - split; [by intros [? ?]|]. by intros [? _].
  - split; [by intros [? ?]|]. by intros [? _].
Qed.

(** C2, amended. When the category of the search type holds no eligible
    source (the manager is not initialised, the catalog has no such
    category, or none of its sources is enabled), the run builds no report:
    it dispatches nothing and leaves [currentResults] as it was. Unless the
    search type is a name that the [categories] object inherits without
    defining it (such as [constructor], [toString] or [__proto__]), the run
    does not raise and shows the message that no sources are available for
    the search type; on such a name the catalog lookup raises a TypeError,
    which the run passes on, showing nothing. *)
Theorem empty_category_signals build allSettled page b sm query searchType
    app h :
  (∀ source, ¬ Eligible sm searchType source) →
  let '(outcome, app', h', t) :=
    run build allSettled page (manage b sm) query searchType app h in
  currentResults app' = currentResults app
  ∧ h' = h ∧ t = []
  ∧ (¬ InheritedName sm searchType →
     outcome = Return ()
     ∧ errorShown app' = Some (noSourcesMessage build searchType))
  ∧ (InheritedName sm searchType →
     (∃ message, outcome = Throw message) ∧ app' = app).
Proof.
  intros Hnone. unfold run. simpl.
  destruct (SourceManager.getSourcesForType sm searchType)
    as [offered|message] eqn:Hs.
  - assert (Hnil : offered = []).
    { destruct offered as [|source rest]; [done|].
      exfalso. apply (Hnone source).
      apply (getSourcesForType_spec sm searchType _ source Hs). by left. }
    subst offered. simpl.
    split; [done|]. split; [done|]. split; [done|]. split; [done|].
    intros Hin. apply getSourcesForType_raises in Hin as [message Hm].
    congruence.
  - split; [done|]. split; [done|]. split; [done|]. split.
    + intros Hno. exfalso. apply Hno, getSourcesForType_raises. by eexists.
    + intros _. split; [by eexists|done].
Qed.

Lemma empty_category_signals_witness :
  (let '(outcome, app', h', t) :=
     run Staggered allSettledInOrder plainPage
       (manage (integrated steadyHandler) fallbackManager)
       "nobody@nowhere.tld" "email" newApp (emptyHeap 0) in
   outcome = Return ()
   ∧ currentResults app' = None
   ∧ errorShown app'
     = Some "No intelligence sources available for email searches"
   ∧ h' = emptyHeap 0 ∧ t = [])
  ∧ (let '(outcome, app', h', t) :=
       run Staggered allSettledInOrder plainPage
         (manage (integrated steadyHandler) fallbackManager)
         "nobody@nowhere.tld" "constructor" newApp (emptyHeap 0) in
     (∃ message, outcome = Throw message)
     ∧ app' = newApp ∧ h' = emptyHeap 0 ∧ t = []).
Proof.
  split.
  - pose proof (empty_category_signals Staggered allSettledInOrder plainPage
                  (integrated steadyHandler) fallbackManager
                  "nobody@nowhere.tld" "email" newApp (emptyHeap 0)) as Hrun.
    destruct (run Staggered allSettledInOrder plainPage _ _ _ _ _)
      as [[[outcome app'] h'] t].
    destruct Hrun as (Hcur & Hh & Ht & Hplain & _).
    { intros source (_ & catalog & c & Hcat & Hc & Hin & _).
      injection Hcat as <-. simpl in Hc. injection Hc as <-. done. }
    destruct Hplain as [Hout Hshown].
    { intros (_ & catalog & _ & _ & Hi). discriminate Hi. }
    done.
  - pose proof (empty_category_signals Staggered allSettledInOrder plainPage
                  (integrated steadyHandler) fallbackManager
                  "nobody@nowhere.tld" "constructor" newApp (emptyHeap 0))
      as Hrun.
    destruct (run Staggered allSettledInOrder plainPage _ _ _ _ _)
      as [[[outcome app'] h'] t].
    destruct Hrun as (Hcur & Hh & Ht & _ & Hraise).
    { intros source (_ & catalog & c & Hcat & Hc & _).
      injection Hcat as <-. discriminate Hc. }
    destruct Hraise as [Hout Happ].
    { split; [done|]. by exists getFallbackSources. }
    done.
Defined.


(** * Further properties of the code *)

(** ** The catalog *)

Lemma category_In searchType cats c :
  category searchType cats = Some c → In (searchType, c) cats.
Proof.
  induction cats as [|[key c'] rest IH]; simpl; [done|].
  destruct (String.eqb_spec key searchType) as [->|Hne].
  - intros [= ->]. by left.
  - intros Hc. right. by apply IH.
Qed.

Lemma Eligible_KnownEnabled sm searchType source :
  Eligible sm searchType source → KnownEnabled sm source.
Proof.
  intros [Hinit (catalog & c & Hcat & Hc & Hin & Hen)].
  split; [done|]. exists catalog, searchType, c.
  repeat split; try done. by apply category_In.
Qed.

Lemma eligible_found sm searchType source :
  Eligible sm searchType source →
  ∃ known, findSourceById sm (src_id source) = Some known
           ∧ src_id known = src_id source ∧ src_enabled known = true.
Proof.
  intros Hin.
  pose proof (Eligible_KnownEnabled _ _ _ Hin) as Hknown.
  destruct (findSourceById sm (src_id source)) as [known|] eqn:Hf.
  - exists known. split; [done|].
    unfold findSourceById in Hf. apply find_some in Hf as [Hk Heq].
    split; [by apply String.eqb_eq|].
    apply getAllSources_spec in Hk.
    by destruct Hk as [_ (? & ? & ? & _ & _ & _ & ?)].
  - exfalso. apply findSourceById_None in Hf. apply Hf. by exists source.
Qed.

(** X1. Every source the manager offers for a search type is enabled and
    can be found again by its id, by an enabled source of that id; so with
    either shipped manager a query for it is answered with an envelope,
    never with 'Source not found'. *)
Theorem eligible_sources_are_known sm searchType offered source :
  SourceManager.getSourcesForType sm searchType = Return offered →
  In source offered →
  src_enabled source = true
  ∧ (∃ known, findSourceById sm (src_id source) = Some known
              ∧ src_id known = src_id source ∧ src_enabled known = true)
  ∧ ∀ b query searchType' h,
      Shipped b →
      ∃ result h' t,
        SourceManager.querySource b sm (src_id source) query searchType' h
        = (Return result, h', t).
Proof.
  intros Hoffered Hin.
  apply (getSourcesForType_spec sm searchType offered source Hoffered) in Hin.
  destruct (eligible_found sm searchType source Hin)
    as (known & Hf & Hid & Hen).
  split.
  - by destruct Hin as [_ (? & ? & _ & _ & _ & ?)].
  - split; [by exists known|].
    intros b query searchType' h Hb.
    destruct (querySource_known b sm (src_id source) query searchType' h
                known Hb Hf) as (result & h' & t & Hq & _).
    by exists result, h', t.
Qed.

Lemma eligible_sources_are_known_witness :
  src_enabled sampleSource = true
  ∧ (∃ known, findSourceById sampleManager "s1" = Some known
              ∧ src_id known = "s1" ∧ src_enabled known = true)
  ∧ ∀ b query searchType' h,
      Shipped b →
      ∃ result h' t,
        SourceManager.querySource b sampleManager "s1" query searchType' h
        = (Return result, h', t).
Proof.
  apply (eligible_sources_are_known sampleManager "email" [sampleSource]
           sampleSource); [reflexivity|].
  simpl. by left.
Defined.

Lemma update_fresh {V} key (value : V) object :
  key ∉ object.*1 → update key value object = object ++ [(key, value)].
Proof.
  induction object as [|[k v] rest IH]; simpl; [done|].
  intros Hnot. apply not_elem_of_cons in Hnot as [Hne Hnot].
  destruct (String.eqb_spec k key) as [->|_]; [done|].
  by rewrite IH.
Qed.

(** Assigning the entries of an object with distinct keys to the
    properties of another, one after the other. *)
Lemma fold_assign {C V} (f : string * C → V) entries object :
  NoDup (object.*1 ++ entries.*1) →
  fold_left (λ result kc, assign kc.1 (f kc) result) entries object
  = object
    ++ List.map (λ kc, (kc.1, f kc))
         (List.filter (λ kc, negb (isProto kc.1)) entries).
Proof.
  revert object. induction entries as [|[k c] rest IH]; intros object Hnd;
    simpl; [by rewrite app_nil_r|].
  rewrite fmap_cons in Hnd. simpl in Hnd.
  assert (Hrest : NoDup (object.*1 ++ rest.*1)).
  { apply NoDup_app in Hnd as (Ho & Hdisj & Hr).
    apply NoDup_cons in Hr as [_ Hr]. apply NoDup_app.
    split; [done|]. split; [|done].
    intros x Hx Hx'. apply (Hdisj x Hx). by right. }
  unfold assign at 2, isProto. simpl.
  destruct (String.eqb k "__proto__"); simpl; [by apply IH|].
  rewrite update_fresh.
  - rewrite IH.
    + by rewrite <- app_assoc.
    + by rewrite fmap_app, <- app_assoc.
  - apply NoDup_app in Hnd as (_ & Hdisj & _).
    intros Hin. apply (Hdisj k Hin). by left.
Qed.


Lemma getSourcesByCategory_spec sm :
  NoDup (catalogOf sm).*1 →
  getSourcesByCategory sm = List.map (λ kc, (kc.1, view kc.2)) (listed sm).
Proof.
  unfold getSourcesByCategory, listed, catalogOf.
  destruct (initialized sm), (SourceManager.sources sm) as [catalog|];
    try done.
  intros Hnd.
  by rewrite (fold_assign (λ kc : string * Category, view kc.2)
                (categories catalog) []).
Qed.

Lemma fold_addCategory entries stats :
  NoDup ((st_categoriesBreakdown stats).*1 ++ entries.*1) →
  Forall (λ e : string * CategoryView, isProto e.1 = false) entries →
  st_totalSources (fold_left addCategory entries stats)
  = (st_totalSources stats + list_sum (List.map (λ e, v_count e.2) entries))%nat
  ∧ st_enabledSources (fold_left addCategory entries stats)
    = (st_enabledSources stats
       + list_sum (List.map (λ e, v_count e.2) entries))%nat
  ∧ st_totalCategories (fold_left addCategory entries stats)
    = st_totalCategories stats
  ∧ st_categoriesBreakdown (fold_left addCategory entries stats)
    = st_categoriesBreakdown stats
      ++ List.map (λ e, (e.1, (cat_name (v_category e.2), v_count e.2)))
           entries.
Proof.
  revert stats. induction entries as [|[k v] rest IH]; intros stats Hnd Hkeys;
    simpl.
  - rewrite app_nil_r. repeat split; lia.
  - apply Forall_cons in Hkeys as [Hk Hkeys]. simpl in Hk.
    rewrite fmap_cons in Hnd. simpl in Hnd.
    assert (Hstep : st_categoriesBreakdown (addCategory stats (k, v))
                    = st_categoriesBreakdown stats
                      ++ [(k, (cat_name (v_category v), v_count v))]).
    { simpl. unfold assign. unfold isProto in Hk. rewrite Hk.
      apply update_fresh. apply NoDup_app in Hnd as (_ & Hdisj & _).
      intros Hin. apply (Hdisj k Hin). by left. }
    destruct (IH (addCategory stats (k, v))) as (-> & -> & -> & ->);
      [|done|].
    + rewrite Hstep, fmap_app, <- app_assoc. done.
    + rewrite Hstep, <- app_assoc. simpl. repeat split; lia.
Qed.

Lemma list_sum_filter {A} (f : A → nat) (p : A → bool) (l : list A) :
  list_sum (List.map f l)
  = (list_sum (List.map f (List.filter (λ x, negb (p x)) l))
     + list_sum (List.map f (List.filter p l)))%nat.
Proof.
  induction l as [|x l IH]; simpl; [done|].
  destruct (p x); simpl; lia.
Qed.

Lemma category_NoDup key c cats :
  NoDup cats.*1 → In (key, c) cats → category key cats = Some c.
Proof.
  induction cats as [|[k c'] rest IH]; simpl; [done|].
  intros Hnd Hin. apply NoDup_cons in Hnd as [Hnot Hnd].
  destruct Hin as [[= -> ->]|Hin].
  - by rewrite String.eqb_refl.
  - destruct (String.eqb_spec k key) as [->|Hne]; [|by apply IH].
    exfalso. apply Hnot, list_elem_of_In, in_map_iff. by exists (key, c).
Qed.

(** X2. The statistics against the catalog, whose keys are distinct. A
    category under the key [__proto__] is left out of the object
    [getSourcesByCategory] builds, because assigning to that property sets
    the prototype. So the breakdown lists the other categories, in order,
    each with its name and the number of sources [getSourcesForType] offers
    for its key; the number of categories is theirs, the total and the
    enabled count are both the sum of their counts, and
    [getTotalSourceCount], which does count the sources under [__proto__],
    exceeds the reported total by their number. With no such key the
    statistics cover the whole catalog and the total equals
    [getTotalSourceCount]. *)
Theorem stats_agree_with_catalog sm :
  NoDup (catalogOf sm).*1 →
  let stats := getSourceStats sm in
  st_categoriesBreakdown stats
  = List.map (λ kc, (kc.1, (cat_name kc.2, enabledCount kc.2))) (listed sm)
  ∧ st_totalCategories stats = length (listed sm)
  ∧ st_totalSources stats
    = list_sum (List.map (λ kc, enabledCount kc.2) (listed sm))
  ∧ st_enabledSources stats = st_totalSources stats
  ∧ getTotalSourceCount sm
    = (st_totalSources stats
       + list_sum (List.map (λ kc, enabledCount kc.2) (hidden sm)))%nat
  ∧ (∀ key name count,
       In (key, (name, count)) (st_categoriesBreakdown stats) →
       ∃ offered, SourceManager.getSourcesForType sm key = Return offered
                  ∧ count = length offered)
  ∧ (hidden sm = [] →
     st_totalSources stats = getTotalSourceCount sm
     ∧ st_totalCategories stats = length (catalogOf sm)).
Proof.
  intros Hnd. cbv zeta. unfold getSourceStats.
  rewrite (getSourcesByCategory_spec sm Hnd).
  assert (Hsub : NoDup (listed sm).*1).
  { unfold listed. clear -Hnd.
    induction (catalogOf sm) as [|[k c] rest IH]; simpl; [done|].
    simpl in Hnd. apply NoDup_cons in Hnd as [Hnot Hrest].
    destruct (negb (isProto k)); [|by apply IH].
    simpl. apply NoDup_cons. split; [|by apply IH].
    intros Hin. apply Hnot. apply list_elem_of_fmap in Hin as ([k' c'] & -> & Hin).
    apply list_elem_of_In, filter_In in Hin as [Hin _].
    apply list_elem_of_fmap. exists (k', c'). split; [done|].
    by apply list_elem_of_In. }
  destruct (fold_addCategory
              (List.map (λ kc : string * Category, (kc.1, view kc.2)) (listed sm))
    {| st_totalSources := 0;
       st_totalCategories :=
         length (List.map (λ kc : string * Category, (kc.1, view kc.2))
                   (listed sm));
       st_enabledSources := 0; st_categoriesBreakdown := [] |})
    as (Htot & Hen & Hcat & Hbr).
  { simpl. replace ((List.map (λ kc : string * Category, (kc.1, view kc.2))
                       (listed sm)).*1) with ((listed sm).*1); [done|].
    clear. induction (listed sm) as [|[k c] rest IH]; simpl; [done|].
    f_equal. exact IH. }
  { apply Forall_forall. intros e Hin.
    apply list_elem_of_In, in_map_iff in Hin as ([k c] & <- & Hin).
    apply filter_In in Hin as [_ Hk]. simpl in *.
    by destruct (isProto k). }
  rewrite Htot, Hen, Hcat, Hbr. simpl. rewrite !List.map_map, length_map.
  simpl.
  assert (Hall : getTotalSourceCount sm
                 = list_sum (List.map (λ kc, enabledCount kc.2) (catalogOf sm))).
  { unfold getTotalSourceCount, getAllSources, catalogOf.
    destruct (initialized sm), (SourceManager.sources sm) as [catalog|];
      try done.
    induction (categories catalog) as [|[key c] rest IH]; simpl; [done|].
    rewrite length_app. simpl in IH. by rewrite IH. }
  assert (Hsplit : getTotalSourceCount sm
    = (list_sum (List.map (λ kc, enabledCount kc.2) (listed sm))
       + list_sum (List.map (λ kc, enabledCount kc.2) (hidden sm)))%nat).
  { rewrite Hall. unfold listed, hidden.
    apply (list_sum_filter (λ kc : string * Category, enabledCount kc.2)
             (λ kc, isProto kc.1)). }
  unfold enabledCount in *.
  split; [done|]. split; [done|]. split; [done|]. split; [done|].
  split; [done|]. split.
  - intros key name count Hin.
    apply in_map_iff in Hin as ([key' c] & [= <- <- <-] & Hin).
    apply filter_In in Hin as [Hin _]. simpl.
    unfold SourceManager.getSourcesForType. unfold catalogOf in Hin, Hnd.
    destruct (initialized sm), (SourceManager.sources sm) as [catalog|];
      try done.
    rewrite (category_NoDup key' c (categories catalog) Hnd Hin).
    by eexists.
  - intros Hhid. rewrite Hsplit, Hhid. simpl. split; [lia|].
    unfold listed. unfold hidden in Hhid. clear -Hhid.
    induction (catalogOf sm) as [|[k c] rest IH]; simpl in *; [done|].
    destruct (isProto k); [done|]. simpl. by rewrite IH.
Qed.

Lemma stats_agree_with_catalog_witness :
  NoDup (catalogOf shadowedManager).*1
  ∧ st_categoriesBreakdown (getSourceStats shadowedManager)
    = [("email", ("Email Intelligence", 1%nat))]
  ∧ st_totalCategories (getSourceStats shadowedManager) = 1%nat
  ∧ st_totalSources (getSourceStats shadowedManager) = 1%nat
  ∧ getTotalSourceCount shadowedManager = 2%nat.
Proof.
  assert (Hnd : NoDup (catalogOf shadowedManager).*1) by compute_done.
  split; [exact Hnd|].
  destruct (stats_agree_with_catalog shadowedManager Hnd)
    as (Hbr & Hcat & Htot & _ & Hall & _).
  split; [exact Hbr|]. split; [exact Hcat|]. split; [exact Htot|].
  rewrite Hall, Htot. reflexivity.
Defined.


Lemma fallback_offers_nothing searchType :
  SourceManager.getSourcesForType fallbackManager searchType
  = if inherited searchType
    then Throw "Cannot read properties of undefined (reading 'filter')"
    else Return [].
Proof.
  unfold SourceManager.getSourcesForType. cbn -[String.eqb inherited].
  destruct (String.eqb_spec "email" searchType) as [<-|_]; [done|].
  destruct (String.eqb_spec "domain" searchType) as [<-|_]; [done|].
  destruct (String.eqb_spec "username" searchType) as [<-|_]; [done|].
  destruct (String.eqb_spec "ip" searchType) as [<-|_]; done.
Qed.

(** X3. [loadSources] never rejects: it returns the parsed document when
    the fetch resolves with an ok status and the body parses, and the
    fallback catalog when the fetch rejects, the status is not ok or the
    body does not parse. A manager over the fallback catalog knows no source
    id and offers no source: for a search type that is not a name objects
    inherit, its own four keys included, [getSourcesForType] returns the
    empty list; for an inherited name, such as [constructor], it raises. *)
Theorem loadSources_falls_back fetch h :
  (loadSources fetch h
   = match fetch "./data/sources.json" h with
     | (Throw _, h1) =>
         (Return getFallbackSources, h1, [Called "fetch" (now h) []])
     | (Return response, h1) =>
         if ok response
         then match json response h1 with
              | (Return catalog, h2) =>
                  (Return catalog, h2,
                   [Called "fetch" (now h) []; Called "json" (now h1) []])
              | (Throw _, h2) =>
                  (Return getFallbackSources, h2,
                   [Called "fetch" (now h) []; Called "json" (now h1) []])
              end
         else (Return getFallbackSources, h1, [Called "fetch" (now h) []])
     end)
  ∧ (∃ catalog, (loadSources fetch h).1.1 = Return catalog)
  ∧ (∀ searchType,
       inherited searchType = false →
       SourceManager.getSourcesForType fallbackManager searchType = Return [])
  ∧ (∀ searchType,
       inherited searchType = true →
       ∃ message,
         SourceManager.getSourcesForType fallbackManager searchType
         = Throw message)
  ∧ (∀ searchType, In searchType ["email"; "domain"; "username"; "ip"] →
                   inherited searchType = false)
  ∧ inherited "constructor" = true
  ∧ getTotalSourceCount fallbackManager = 0%nat
  ∧ (∀ id, findSourceById fallbackManager id = None).
Proof.
  assert (Hshape : loadSources fetch h
   = match fetch "./data/sources.json" h with
     | (Throw _, h1) =>
         (Return getFallbackSources, h1, [Called "fetch" (now h) []])
     | (Return response, h1) =>
         if ok response
         then match json response h1 with
              | (Return catalog, h2) =>
                  (Return catalog, h2,
                   [Called "fetch" (now h) []; Called "json" (now h1) []])
              | (Throw _, h2) =>
                  (Return getFallbackSources, h2,
                   [Called "fetch" (now h) []; Called "json" (now h1) []])
              end
         else (Return getFallbackSources, h1, [Called "fetch" (now h) []])
     end).
  { unfold loadSources, tryCatch, bind, callOpaque, throw, ret.
    destruct (fetch "./data/sources.json" h) as [[response|e] h1]; [|done].
    destruct (ok response); simpl; [|done].
    by destruct (json response h1) as [[catalog|e] h2]. }
  split; [exact Hshape|]. split.
  - rewrite Hshape.
    destruct (fetch "./data/sources.json" h) as [[response|e] h1];
      [|by eexists].
    destruct (ok response); [|by eexists].
    destruct (json response h1) as [[catalog|e] h2]; by eexists.
  - split; [intros searchType Hi; by rewrite fallback_offers_nothing, Hi|].
    split.
    { intros searchType Hi. rewrite fallback_offers_nothing, Hi. by eexists. }
    split.
    { intros searchType Hin. simpl in Hin.
      by destruct Hin as [<-|[<-|[<-|[<-|[]]]]]. }
    split; done.
Qed.
(** ** Retry wrappers, any number of attempts *)

Lemma invocations_app callee t1 t2 :
  invocations callee (t1 ++ t2)
  = (invocations callee t1 + invocations callee t2)%nat.
Proof. unfold invocations. by rewrite List.filter_app, length_app. Qed.

Lemma fetchLoop_exhausted {Response} (fetch : string → Opaque Response)
    url n todo i h :
  (∀ h0, ∃ e h1, fetch url h0 = (Throw e, h1)) →
  (i + todo = n)%nat → (0 < todo)%nat →
  ∃ e h' t,
    OSINTCollector.fetchLoop fetch url n i todo h = (Throw e, h', t)
    ∧ invocations "fetch" t = todo
    ∧ 2 * waited t
      = 1000 * (Z.of_nat n * (Z.of_nat n - 1) - Z.of_nat i * (Z.of_nat i + 1)).
Proof.
  intros Hfail. revert i h.
  induction todo as [|todo IH]; intros i h Hsum Hpos; [lia|].
  simpl. unfold tryCatch, bind, callOpaque at 1.
  destruct (Hfail h) as (e & h1 & ->). simpl.
  destruct (Nat.eqb_spec i (n - 1)) as [Hlast|Hmore].
  - unfold throw. do 3 eexists. split; [done|].
    split; [cbn; lia|]. cbn. nia.
  - destruct (IH (S i) (elapse (1000 * (Z.of_nat i + 1)) h1))
      as (e' & h' & t & Hrun & Hcalls & Hwait); [lia|lia|].
    unfold bind, delay. rewrite Hrun. simpl.
    do 3 eexists. split; [done|]. split.
    + change (Called "fetch" (now h) [] :: Slept _ :: t)
        with ([Called "fetch" (now h) []; Slept (Z.max 0 (1000 * (Z.of_nat i + 1)))] ++ t).
      rewrite invocations_app, Hcalls. cbn. lia.
    + cbn [waited]. nia.
Qed.

Lemma retryLoop_exhausted build mgr sourceId query searchType n todo attempt h :
  (∀ h0, ∃ e h1 t, querySource mgr sourceId query searchType h0
                   = (Throw e, h1, t)) →
  (attempt + todo = n + 1)%nat → (0 < todo)%nat → (0 < attempt)%nat →
  ∃ e h' t,
    retryLoop build mgr sourceId query searchType n attempt todo h
    = (Throw e, h', t)
    ∧ invocations "querySource" t = todo
    ∧ 2 * waited t
      = backoffBase build
        * (Z.of_nat n * (Z.of_nat n - 1)
           - Z.of_nat attempt * (Z.of_nat attempt - 1)).
Proof.
  intros Hfail. revert attempt h.
  assert (Hb : 0 < backoffBase build) by (by destruct build).
  induction todo as [|todo IH]; intros attempt h Hsum Hpos Hatt; [lia|].
  simpl. unfold tryCatch, bind, call at 1.
  destruct (Hfail h) as (e & h1 & t1 & ->). simpl.
  destruct (Nat.eqb_spec attempt n) as [Hlast|Hmore].
  - unfold throw. do 3 eexists. split; [done|].
    split; [cbn; lia|]. cbn. nia.
  - destruct (IH (S attempt)
                (elapse (backoffBase build * Z.of_nat attempt) h1))
      as (e' & h' & t & Hrun & Hcalls & Hwait); [lia|lia|lia|].
    unfold bind, delay. rewrite Hrun. simpl.
    do 3 eexists. split; [done|]. split.
    + change (Called "querySource" (now h) t1 :: Slept _ :: t)
        with ([Called "querySource" (now h) t1;
               Slept (Z.max 0 (backoffBase build * Z.of_nat attempt))] ++ t).
      rewrite invocations_app, Hcalls. cbn. lia.
    + cbn [waited]. nia.
Qed.

(** X4. Whatever the number of attempts: with none allowed, either wrapper
    returns [undefined] without calling the wrapped function; with
    [n >= 1] attempts and a wrapped function that keeps failing, it calls
    the function exactly [n] times, re-raises a failure, and has waited
    [base * (1 + 2 + ... + (n - 1))] milliseconds in between, the base being
    1000 ms for [fetchWithRetry] and the first aggregator and 2000 ms for
    the second. *)
Theorem retry_exhaustion :
  (∀ (Response : Type) (fetch : string → Opaque Response) url h,
     OSINTCollector.fetchWithRetry fetch url 0 h = (Return None, h, [])
     ∧ ∀ n,
         (0 < n)%nat →
         (∀ h0, ∃ e h1, fetch url h0 = (Throw e, h1)) →
         ∃ e h' t,
           OSINTCollector.fetchWithRetry fetch url n h = (Throw e, h', t)
           ∧ invocations "fetch" t = n
           ∧ 2 * waited t = 1000 * (Z.of_nat n * (Z.of_nat n - 1)))
  ∧ (∀ build mgr sourceId query searchType h,
       querySourceWithRetry build mgr sourceId query searchType 0 h
       = (Return None, h, [])
       ∧ ∀ n,
           (0 < n)%nat →
           (∀ h0, ∃ e h1 t, querySource mgr sourceId query searchType h0
                            = (Throw e, h1, t)) →
           ∃ e h' t,
             querySourceWithRetry build mgr sourceId query searchType n h
             = (Throw e, h', t)
             ∧ invocations "querySource" t = n
             ∧ 2 * waited t
               = backoffBase build * (Z.of_nat n * (Z.of_nat n - 1))).
Proof.
  split.
  - intros Response fetch url h. split; [done|].
    intros n Hn Hfail.
    destruct (fetchLoop_exhausted fetch url n n 0 h Hfail)
      as (e & h' & t & Hrun & Hcalls & Hwait); [lia|lia|].
    exists e, h', t. split; [done|]. split; [done|]. lia.
  - intros build mgr sourceId query searchType h. split; [done|].
    intros n Hn Hfail.
    destruct (retryLoop_exhausted build mgr sourceId query searchType n n 1 h
                Hfail) as (e & h' & t & Hrun & Hcalls & Hwait); [lia|lia|lia|].
    exists e, h', t. split; [done|]. split; [done|]. lia.
Qed.

Lemma retry_exhaustion_witness :
  ∃ e h' t,
    OSINTCollector.fetchWithRetry deadFetch "https://crt.sh/" 5 (emptyHeap 0)
    = (Throw e, h', t)
    ∧ invocations "fetch" t = 5%nat
    ∧ 2 * waited t = 1000 * (5 * (5 - 1)).
Proof.
  destruct retry_exhaustion as [Hfetch _].
  apply (proj2 (Hfetch nat deadFetch "https://crt.sh/" (emptyHeap 0)) 5%nat);
    [lia|].
  intros h0. by eexists _, _.
Defined.


(** ** The search entry point *)

(** X5. [performSearch] never raises, whatever the scheduler delivers and
    whatever the rendering does. An empty query only shows 'Please enter a
    search query'; without an initialised source manager nothing is
    dispatched; in both cases the previous report stays in place. A failure
    that escapes the run, be it from the catalog lookup, the results loop
    or the rendering, is caught and shown as the build's 'failed'
    message. *)
Theorem performSearch_never_raises build allSettled page b sourceManager
    query searchType app h :
  (performSearch build allSettled page b sourceManager query searchType
     app h).1.1.1
  = Return ()
  ∧ (query = "" →
     performSearch build allSettled page b sourceManager query searchType
       app h
     = (Return (), showError "Please enter a search query" app, h, []))
  ∧ (query ≠ "" →
     (sourceManager = None
      ∨ ∃ sm, sourceManager = Some sm ∧ initialized sm = false) →
     let '(outcome, app', h', t) :=
       performSearch build allSettled page b sourceManager query searchType
         app h in
     currentQuery app' = query ∧ currentResults app' = currentResults app
     ∧ h' = h ∧ t = []
     ∧ errorShown app'
       = match build with
         | Basic => None
         | Staggered => Some "Intelligence sources not available"
         end)
  ∧ (query ≠ "" →
     ∀ sm e,
       sourceManager = Some sm → initialized sm = true →
       (run build allSettled page (manage b sm) query searchType
          (showLoading (setQuery query app)) h).1.1.1 = Throw e →
       errorShown
         (performSearch build allSettled page b sourceManager query
            searchType app h).1.1.2
       = Some (searchFailedMessage build)).
Proof.
  unfold performSearch.
  destruct (String.eqb_spec query "") as [->|Hq].
  - repeat split; try done.
  - split; [|split; [done|split]].
    + destruct sourceManager as [sm|]; [|done].
      destruct (initialized sm); [|done].
      destruct (run _ _ _ _ _ _ _ _) as [[[outcome app2] h'] t].
      by destruct outcome.
    + intros _ [->|(sm & -> & ->)]; by destruct build.
    + intros _ sm e -> -> Hthrow.
      destruct (run _ _ _ _ _ _ _ _) as [[[outcome app2] h'] t].
      simpl in Hthrow. by subst outcome.
Qed.

Lemma performSearch_never_raises_witness :
  errorShown
    (performSearch Basic allSettledInOrder plainPage
       (integrated steadyHandler) (Some sampleManager)
       "alice@example.com" "constructor" newApp (emptyHeap 0)).1.1.2
  = Some "Search failed. Please try again.".
Proof.
  refine (proj2 (proj2 (proj2
    (performSearch_never_raises Basic allSettledInOrder plainPage
       (integrated steadyHandler) (Some sampleManager)
       "alice@example.com" "constructor" newApp (emptyHeap 0))))
    _ sampleManager
    "Cannot read properties of undefined (reading 'filter')"
    eq_refl eq_refl _); [done|by vm_compute].
Defined.


(** ** One dispatched operation, and runs over a single source *)

Lemma dispatch_settles build mgr query searchType index source h e h' inner :
  querySource mgr (src_id source) query searchType (staggered build index h)
  = (Return e, h', inner) →
  dispatch build mgr query searchType index source h
  = (Return (Some e), h',
     staggerWait build index
     ++ [Called "querySource" (now (staggered build index h)) inner]).
Proof.
  intros Hq. unfold dispatch, querySourceWithRetry, defaultMaxRetries.
  destruct build; simpl in *;
    unfold tryCatch, bind, call, delay, ret; simpl; by rewrite Hq.
Qed.


(** A run whose await settles a single envelope and leaves the run's own
    report current. *)
Lemma run_settled build allSettled page mgr query searchType app h source e
    h' t :
  getSourcesForType mgr searchType = Return [source] →
  allSettled [dispatch build mgr query searchType 0 source]
    (setResults (initialReport query searchType (now h) 1) app) h
  = ([Fulfilled (Some e)],
     setResults (initialReport query searchType (now h) 1) app, h', t) →
  run build allSettled page mgr query searchType app h
  = let shown :=
      render page
        (setResults
           (counting e (initialReport query searchType (now h) 1)) app) in
    (shown.1, shown.2, h', t).
Proof.
  intros Ha Hsched. unfold run. rewrite Ha.
  change (length [source] =? 0)%nat with false. cbv iota zeta.
  change (imap (dispatch build mgr query searchType) [source])
    with [dispatch build mgr query searchType 0 source].
  change (length [source]) with 1%nat. rewrite Hsched.
  unfold processInto, setResults, withResults, counting. simpl.
  destruct (success e); simpl;
    by match goal with |- context [render page ?a] =>
         destruct (render page a) end.
Qed.

Lemma allSettledInOrder_single p app h :
  allSettledInOrder [p] app h
  = let '(r, h', t) := p h in ([settle r], app, h', t ++ []).
Proof.
  unfold allSettledInOrder. simpl. by destruct (p h) as [[r h'] t].
Qed.

(** X6. With either shipped manager, the operation dispatched for an
    eligible source, when it runs from any heap without interruption,
    settles to an envelope after exactly one call of [querySource], which
    leaves the envelope in the cache and calls no handler twice: the retry
    wrapper never retries and never backs off, and the only wait of the
    operation itself is its staggered start in the second aggregator, 500 ms
    times its index. Over a category with a single eligible source, with
    nothing else happening on the page, the run is that one operation
    followed by the loop and the rendering: the report counts the envelope
    as successful or failed by its flag, and the run ends as the rendering
    does. *)
Theorem run_queries_each_source_once build b sm query searchType offered :
  Shipped b →
  SourceManager.getSourcesForType sm searchType = Return offered →
  (∀ index source h,
     In source offered →
     ∃ e h' inner,
       dispatch build (manage b sm) query searchType index source h
       = (Return (Some e), h',
          staggerWait build index
          ++ [Called "querySource" (now (staggered build index h)) inner])
       ∧ cache h' !! cacheKey (src_id source) query = Some e
       ∧ (∀ callee, (invocations callee inner ≤ 1)%nat))
  ∧ (∀ source page app h,
       offered = [source] →
       ∃ e h' inner,
         dispatch build (manage b sm) query searchType 0 source h
         = (Return (Some e), h',
            staggerWait build 0
            ++ [Called "querySource" (now (staggered build 0 h)) inner])
         ∧ run build allSettledInOrder page (manage b sm) query searchType
             app h
           = let shown :=
               render page
                 (setResults
                    (counting e (initialReport query searchType (now h) 1))
                    app) in
             (shown.1, shown.2, h',
              staggerWait build 0
              ++ [Called "querySource" (now (staggered build 0 h)) inner])).
Proof.
  intros Hb Hoffered.
  assert (Hop : ∀ index source h,
     In source offered →
     ∃ e h' inner,
       dispatch build (manage b sm) query searchType index source h
       = (Return (Some e), h',
          staggerWait build index
          ++ [Called "querySource" (now (staggered build index h)) inner])
       ∧ cache h' !! cacheKey (src_id source) query = Some e
       ∧ (∀ callee, (invocations callee inner ≤ 1)%nat)).
  { intros index source h Hin.
    apply (getSourcesForType_spec sm searchType offered source Hoffered)
      in Hin.
    destruct (eligible_found sm searchType source Hin) as (known & Hf & _).
    destruct (querySource_known b sm (src_id source) query searchType
                (staggered build index h) known Hb Hf)
      as (e & h' & inner & Hq & Hc & Hcalls).
    exists e, h', inner. split; [by apply dispatch_settles|]. done. }
  split; [exact Hop|].
  intros source page app h ->.
  destruct (Hop 0%nat source h (or_introl eq_refl))
    as (e & h' & inner & Hd & _).
  exists e, h', inner. split; [done|].
  apply (run_settled build allSettledInOrder page (manage b sm) query
           searchType app h source e h'); [done|].
  rewrite allSettledInOrder_single, Hd. simpl. by rewrite app_nil_r.
Qed.

Lemma run_queries_each_source_once_witness :
  Shipped (integrated steadyHandler)
  ∧ run Staggered allSettledInOrder plainPage
      (manage (integrated steadyHandler) sampleManager)
      "alice@example.com" "email" newApp (emptyHeap 0)
    = (Return (),
       setResults
         {| r_query := "alice@example.com"; r_searchType := "email";
            r_timestamp := 0;
            sources :=
              [envelope sampleSource "alice@example.com" "email" 300
                 [("found", JBool true);
                  ("query", JString "alice@example.com")]
                 true (Some "real_intelligence")];
            summary := {| totalSources := 1; successfulSources := 1;
                          failedSources := 0; dataFound := true |} |}
         newApp,
       set_cache
         {[ cacheKey "s1" "alice@example.com" :=
              envelope sampleSource "alice@example.com" "email" 300
                [("found", JBool true);
                 ("query", JString "alice@example.com")]
                true (Some "real_intelligence") ]}
         (emptyHeap 300),
       [Slept 0;
        Called "querySource" 0 [Called (handlerOf sampleSource) 0 []]]).
Proof.
  assert (Hb : Shipped (integrated steadyHandler)) by (right; by eexists).
  split; [exact Hb|].
  destruct (proj2 (run_queries_each_source_once Staggered
                     (integrated steadyHandler) sampleManager
                     "alice@example.com" "email" [sampleSource] Hb eq_refl)
              sampleSource plainPage newApp (emptyHeap 0) eq_refl)
    as (e & h' & inner & Hd & ->).
  vm_compute in Hd. injection Hd as <- <- <-. vm_compute. reflexivity.
Defined.


(** X7. Overlapping searches share one report. A run counts the outcomes
    of its queries into the report that is current when its await ends; when
    another search has made its report [other] the current one in the
    meantime, and no query settled to [undefined], the run appends its
    successful envelopes to the sources of [other] and adds its counts to
    those of [other], leaving the query, the search type, the timestamp and
    [totalSources] of [other] as they are. So once every promise has
    settled, [successfulSources + failedSources] of that report has grown by
    the number of sources of this run, whatever [totalSources] says. *)
Theorem overlapping_searches_share_report build allSettled page mgr query
    searchType app h available other :
  getSourcesForType mgr searchType = Return available →
  available ≠ [] →
  let promises := imap (dispatch build mgr query searchType) available in
  let own := initialReport query searchType (now h) (length available) in
  let awaited := allSettled promises (setResults own app) h in
  let results := awaited.1.1.1 in
  currentResults awaited.1.1.2 = Some other →
  Forall defined results →
  ∃ R,
    currentResults
      (run build allSettled page mgr query searchType app h).1.1.2
    = Some R
    ∧ r_query R = r_query other
    ∧ r_searchType R = r_searchType other
    ∧ r_timestamp R = r_timestamp other
    ∧ totalSources (summary R) = totalSources (summary other)
    ∧ sources R = sources other ++ successes results
    ∧ successfulSources (summary R)
      = (successfulSources (summary other) + length (successes results))%nat
    ∧ (failedSources (summary R) + length (successes results)
       = failedSources (summary other) + length results)%nat
    ∧ (OnePerPromise allSettled →
       (successfulSources (summary R) + failedSources (summary R)
        = successfulSources (summary other) + failedSources (summary other)
          + length available)%nat).
Proof.
  intros Ha Hne. cbv zeta. intros Hother Hdef.
  destruct (run_report build allSettled page mgr query searchType app h
              available Ha Hne) as [Hcur _].
  set (r0 := initialReport query searchType (now h) (length available)) in *.
  set (awaited := allSettled _ (setResults r0 app) h) in *.
  rewrite Hother in Hcur. simpl in Hcur.
  destruct (processResults_defined awaited.1.1.1 other Hdef)
    as (R & Hrun & Hsrc & Hsucc & Hfail & _).
  pose proof (processResults_totalSources awaited.1.1.1 other) as Htot.
  assert (Hkept : ∀ results r,
    r_query (processResults results r).2 = r_query r
    ∧ r_searchType (processResults results r).2 = r_searchType r
    ∧ r_timestamp (processResults results r).2 = r_timestamp r).
  { clear. intros results. induction results as [|result rest IH]; intros r;
      [done|].
    simpl. destruct result as [[value|]|reason]; simpl; [|done|].
    - destruct (success value); by destruct (IH (pushSuccess value r)),
        (IH (countFailure r)).
    - by destruct (IH (countFailure r)). }
  destruct (Hkept awaited.1.1.1 other) as (Hq & Hst & Hts).
  rewrite Hrun in Hcur, Htot, Hq, Hst, Hts. simpl in *.
  exists R. split; [done|]. split; [done|]. split; [done|]. split; [done|].
  split; [done|]. split; [done|]. split; [done|]. split; [done|].
  intros Hone.
  pose proof (Hone (imap (dispatch build mgr query searchType) available)
                (setResults r0 app) h) as Hlen.
  fold awaited in Hlen. rewrite length_imap in Hlen. lia.
Qed.

Lemma overlapping_searches_share_report_witness :
  let other := initialReport "bob@example.com" "email" 100 1 in
  ∃ R,
    currentResults
      (run Basic (overtakenBy other) plainPage
         (manage (integrated steadyHandler) sampleManager)
         "alice@example.com" "email" newApp (emptyHeap 0)).1.1.2
    = Some R
    ∧ r_query R = "bob@example.com"
    ∧ query <$> sources R = ["alice@example.com"]
    ∧ successfulSources (summary R) = 1%nat.
Proof.
  cbv zeta.
  destruct (overlapping_searches_share_report Basic
              (overtakenBy (initialReport "bob@example.com" "email" 100 1))
              plainPage (manage (integrated steadyHandler) sampleManager)
              "alice@example.com" "email" newApp (emptyHeap 0)
              [sampleSource]
              (initialReport "bob@example.com" "email" 100 1)
              eq_refl ltac:(discriminate) eq_refl
              ltac:(repeat constructor; discriminate))
    as (R & HR & Hq & _ & _ & _ & Hsrc & Hsucc & _).
  exists R. split; [exact HR|]. split; [exact Hq|].
  split; [by rewrite Hsrc|by rewrite Hsucc].
Defined.


(** ** Regular expressions: matching by derivatives is sound and complete *)

Lemma Lang_nil_nullable r : Regex.Lang r [] ↔ Regex.nullable r = true.
Proof.
  split.
  - remember [] as s0 eqn:Hs. intros HL.
    induction HL; simpl; try done.
    + apply app_eq_nil in Hs as [-> ->]. by rewrite IHHL1, IHHL2.
    + by rewrite IHHL.
    + rewrite IHHL by done. by rewrite orb_true_r.
  - induction r as [| |p|r1 IH1 r2 IH2|r1 IH1 r2 IH2|r IH]; simpl;
      try discriminate.
    + intros _. constructor.
    + intros [H1 H2]%andb_true_iff.
      change (@nil ascii) with (@nil ascii ++ []). constructor; auto.
    + intros [H|H]%orb_true_iff; [apply Regex.LOrL|apply Regex.LOrR]; auto.
    + intros _. constructor.
Qed.

Lemma Lang_Star_cons r c s :
  Regex.Lang (Regex.Star r) (c :: s) →
  ∃ s1 s2, s = s1 ++ s2 ∧ Regex.Lang r (c :: s1)
           ∧ Regex.Lang (Regex.Star r) s2.
Proof.
  remember (Regex.Star r) as r' eqn:Hr. remember (c :: s) as cs eqn:Hcs.
  intros HL. revert s Hcs.
  induction HL as [| | | | | |r0 s1 s2 H1 _ H2 IH2]; intros rest Hcs;
    try discriminate.
  injection Hr as ->.
  destruct s1 as [|c1 s1]; simpl in Hcs.
  - by apply IH2.
  - injection Hcs as -> <-. by exists s1, s2.
Qed.

Lemma Lang_deriv r c s :
  Regex.Lang (Regex.deriv c r) s ↔ Regex.Lang r (c :: s).
Proof.
  revert s.
  induction r as [| |p|r1 IH1 r2 IH2|r1 IH1 r2 IH2|r IH]; intros s; simpl.
  - split; inversion 1.
  - split; inversion 1.
  - destruct (p c) eqn:Hp; split; inversion 1; subst.
    + by constructor.
    + constructor.
    + congruence.
  - assert (Hseq : Regex.Lang (Regex.Seq (Regex.deriv c r1) r2) s
                   → Regex.Lang (Regex.Seq r1 r2) (c :: s)).
    { inversion 1; subst. change (c :: s1 ++ s2) with ((c :: s1) ++ s2).
      constructor; [by apply IH1|done]. }
    assert (Hinv : Regex.Lang (Regex.Seq r1 r2) (c :: s)
                   → Regex.Lang (Regex.Seq (Regex.deriv c r1) r2) s
                     ∨ (Regex.Lang r1 [] ∧ Regex.Lang r2 (c :: s))).
    { inversion 1 as [| |? ? s1 s2 H1 H2 Heq| | | |]; subst.
      destruct s1 as [|c1 s1]; simpl in *.
      - right. by subst.
      - match goal with H : _ :: _ = _ :: _ |- _ => injection H as -> <- end.
        left. constructor; [by apply IH1|done]. }
    destruct (Regex.nullable r1) eqn:Hn.
    + split.
      * inversion 1; subst; [by apply Hseq|].
        change (c :: s) with ([] ++ c :: s).
        constructor; [by apply Lang_nil_nullable|by apply IH2].
      * intros [H|[_ H]]%Hinv; [by apply Regex.LOrL|].
        apply Regex.LOrR. by apply IH2.
    + split; [exact Hseq|].
      intros [H|[H _]]%Hinv; [done|].
      apply Lang_nil_nullable in H. congruence.
  - split.
    + inversion 1; subst; [apply Regex.LOrL; by apply IH1
                          |apply Regex.LOrR; by apply IH2].
    + inversion 1; subst; [apply Regex.LOrL; by apply IH1
                          |apply Regex.LOrR; by apply IH2].
  - split.
    + inversion 1; subst. change (c :: s1 ++ s2) with ((c :: s1) ++ s2).
      constructor; [by apply IH|done].
    + intros (s1 & s2 & -> & H1 & H2)%Lang_Star_cons.
      constructor; [by apply IH|done].
Qed.

Lemma matches_Lang r s : Regex.matches r s = true ↔ Regex.Lang r s.
Proof.
  revert r. induction s as [|c s IH]; intros r; simpl.
  - symmetry. apply Lang_nil_nullable.
  - rewrite IH. apply Lang_deriv.
Qed.


(** ** Text heuristics *)

Lemma test_Lang r s : Regex.test r s = true ↔ Regex.Lang r (chars s).
Proof. apply matches_Lang. Qed.

Lemma Lang_Class p s :
  Regex.Lang (Regex.Class p) s ↔ ∃ c, s = [c] ∧ p c = true.
Proof.
  split.
  - inversion 1; subst. by eexists.
  - intros (c & -> & Hp). by constructor.
Qed.

Lemma Lang_Seq r1 r2 s :
  Regex.Lang (Regex.Seq r1 r2) s
  ↔ ∃ s1 s2, s = s1 ++ s2 ∧ Regex.Lang r1 s1 ∧ Regex.Lang r2 s2.
Proof.
  split.
  - inversion 1; subst. by eexists _, _.
  - intros (s1 & s2 & -> & H1 & H2). by constructor.
Qed.

Lemma Lang_Or r1 r2 s :
  Regex.Lang (Regex.Or r1 r2) s ↔ Regex.Lang r1 s ∨ Regex.Lang r2 s.
Proof.
  split.
  - inversion 1; subst; auto.
  - intros [H|H]; [by apply Regex.LOrL|by apply Regex.LOrR].
Qed.

Lemma Lang_Empty s : Regex.Lang Regex.Empty s ↔ s = [].
Proof. split; [by inversion 1|intros ->; constructor]. Qed.

Lemma Lang_Star_Class p s :
  Regex.Lang (Regex.Star (Regex.Class p)) s ↔ Forall (λ c, p c = true) s.
Proof.
  split.
  - remember (Regex.Star (Regex.Class p)) as r eqn:Hr. intros HL.
    induction HL; try discriminate; [constructor|].
    injection Hr as ->. apply Forall_app. split; [|by apply IHHL2].
    apply Lang_Class in HL1 as (c & -> & Hp). by constructor.
  - induction 1 as [|c s Hc _ IH]; [constructor|].
    change (c :: s) with ([c] ++ s). constructor; [by constructor|done].
Qed.

Lemma Lang_Plus_Class p s :
  Regex.Lang (Regex.Plus (Regex.Class p)) s
  ↔ s ≠ [] ∧ Forall (λ c, p c = true) s.
Proof.
  unfold Regex.Plus. rewrite Lang_Seq. split.
  - intros (s1 & s2 & -> & (c & -> & Hp)%Lang_Class & H2%Lang_Star_Class).
    split; [done|]. by constructor.
  - intros [Hne Hall]. destruct s as [|c s]; [done|].
    apply Forall_cons in Hall as [Hc Hall].
    exists [c], s. split; [done|]. split; [by constructor|].
    by apply Lang_Star_Class.
Qed.

Lemma Lang_anything s : Regex.Lang (Regex.Star (Regex.Class Regex.anything)) s.
Proof. apply Lang_Star_Class, Forall_forall. done. Qed.

Lemma search_Class p s : Regex.search (Regex.Class p) s = has p s.
Proof.
  apply eq_true_iff_eq. unfold Regex.search, has. rewrite test_Lang.
  rewrite existsb_exists. split.
  - intros (s1 & s2 & Hs & _ & (s3 & s4 & -> & (c & -> & Hp)%Lang_Class & _)
             %Lang_Seq)%Lang_Seq.
    exists c. split; [|done]. rewrite Hs. apply in_app_iff. right. by left.
  - intros (c & Hin & Hp). apply in_split in Hin as (s1 & s2 & Hs).
    apply Lang_Seq. exists s1, (c :: s2). split; [done|].
    split; [apply Lang_anything|].
    apply Lang_Seq. exists [c], s2. split; [done|].
    split; [by constructor|apply Lang_anything].
Qed.

Lemma anyOf_true ps c :
  Regex.anyOf ps c = true ↔ ∃ p, In p ps ∧ p c = true.
Proof. unfold Regex.anyOf. apply existsb_exists. Qed.

Lemma anyOf_incl ps ps' c :
  (∀ p, In p ps → In p ps') →
  Regex.anyOf ps c = true → Regex.anyOf ps' c = true.
Proof.
  intros Hincl (p & Hin & Hp)%anyOf_true. apply anyOf_true.
  exists p. auto.
Qed.

Lemma test_Plus_Class p s :
  Regex.test (Regex.Plus (Regex.Class p)) s = true
  ↔ chars s ≠ [] ∧ Forall (λ c, p c = true) (chars s).
Proof. by rewrite test_Lang, Lang_Plus_Class. Qed.

Lemma test_Plus_Class_incl p q s :
  (∀ c, p c = true → q c = true) →
  Regex.test (Regex.Plus (Regex.Class p)) s = true →
  Regex.test (Regex.Plus (Regex.Class q)) s = true.
Proof.
  intros Hpq. rewrite !test_Plus_Class. intros [Hne Hall].
  split; [done|]. eapply Forall_impl; [exact Hall|]. exact Hpq.
Qed.

(** Solves inclusions between classes listed with [anyOf]. *)
Ltac class_incl :=
  let c := fresh "c" in
  intros c; apply anyOf_incl; simpl; intros ? ?; intuition.

(** X9. The platform patterns of [analyzeSocialPattern] are nested: a
    username judged likely on GitHub is likely on Reddit, one likely on
    Twitter is likely on Instagram and, when it has at least three
    characters, on Reddit, and one likely on any platform is likely on
    YouTube. The confidence reported is 'high' exactly when the pattern
    matches. *)
Theorem social_patterns_nested username :
  let likelyOn platform :=
    Collection.patternMatch
      (Collection.analyzeSocialPattern username platform) in
  (likelyOn Collection.github = true → likelyOn Collection.reddit = true)
  ∧ (likelyOn Collection.twitter = true →
     likelyOn Collection.instagram = true)
  ∧ (likelyOn Collection.twitter = true →
     (3 ≤ String.length username)%nat →
     likelyOn Collection.reddit = true)
  ∧ (∀ platform, likelyOn platform = true →
                 likelyOn Collection.youtube = true)
  ∧ (∀ platform,
       Collection.confidence
         (Collection.analyzeSocialPattern username platform) = "high"
       ↔ likelyOn platform = true).
Proof.
  cbv zeta. unfold Collection.analyzeSocialPattern.
  cbn [Collection.patternMatch Collection.confidence].
  assert (Hgithub :
    Regex.test (Regex.Seq (Regex.Class (Regex.anyOf Collection.alnum))
      (Regex.Seq (Regex.Star (Regex.Class (Regex.anyOf
                    (Collection.alnum ++ [Regex.isChar "-"%char]))))
         (Regex.Class (Regex.anyOf Collection.alnum)))) username = true →
    chars username ≠ []
    ∧ Forall (λ c, Regex.anyOf (Collection.alnum ++ [Regex.isChar "-"%char]) c
                   = true) (chars username)).
  { rewrite test_Lang.
    intros (s1 & s2 & -> & (c & -> & Hc)%Lang_Class
            & (s3 & s4 & -> & H3%Lang_Star_Class & (d & -> & Hd)%Lang_Class)
              %Lang_Seq)%Lang_Seq.
    split; [done|]. apply Forall_app. split.
    - constructor; [|constructor]. revert Hc. apply anyOf_incl.
      simpl. intros ? ?. intuition.
    - apply Forall_app. split; [done|].
      constructor; [|constructor]. revert Hd. apply anyOf_incl.
      simpl. intros ? ?. intuition. }
  assert (Hreddit : Regex.test (Regex.Plus (Regex.Class (Regex.anyOf
            (Collection.alnum ++ [Regex.isChar "_"%char; Regex.isChar "-"%char]))))
            username = true →
          Regex.test (Regex.Plus (Regex.Class (Regex.anyOf
            (Collection.alnum ++ [Regex.isChar "."%char; Regex.isChar "_"%char;
                                  Regex.isChar "-"%char])))) username = true).
  { apply test_Plus_Class_incl. class_incl. }
  assert (Hinsta : Regex.test (Regex.Plus (Regex.Class (Regex.anyOf
            (Collection.alnum ++ [Regex.isChar "."%char; Regex.isChar "_"%char]))))
            username = true →
          Regex.test (Regex.Plus (Regex.Class (Regex.anyOf
            (Collection.alnum ++ [Regex.isChar "."%char; Regex.isChar "_"%char;
                                  Regex.isChar "-"%char])))) username = true).
  { apply test_Plus_Class_incl. class_incl. }
  assert (Htwitter_insta : Regex.test (Regex.Plus (Regex.Class (Regex.anyOf
            (Collection.alnum ++ [Regex.isChar "_"%char])))) username = true →
          Regex.test (Regex.Plus (Regex.Class (Regex.anyOf
            (Collection.alnum ++ [Regex.isChar "."%char; Regex.isChar "_"%char]))))
            username = true).
  { apply test_Plus_Class_incl. class_incl. }
  assert (Htwitter_reddit : Regex.test (Regex.Plus (Regex.Class (Regex.anyOf
            (Collection.alnum ++ [Regex.isChar "_"%char])))) username = true →
          Regex.test (Regex.Plus (Regex.Class (Regex.anyOf
            (Collection.alnum ++ [Regex.isChar "_"%char; Regex.isChar "-"%char]))))
            username = true).
  { apply test_Plus_Class_incl. class_incl. }
  assert (Hgithub_reddit :
    Regex.test (Regex.Seq (Regex.Class (Regex.anyOf Collection.alnum))
      (Regex.Seq (Regex.Star (Regex.Class (Regex.anyOf
                    (Collection.alnum ++ [Regex.isChar "-"%char]))))
         (Regex.Class (Regex.anyOf Collection.alnum)))) username = true →
    Regex.test (Regex.Plus (Regex.Class (Regex.anyOf
            (Collection.alnum ++ [Regex.isChar "_"%char; Regex.isChar "-"%char]))))
            username = true).
  { intros [Hne Hall]%Hgithub. apply test_Plus_Class. split; [done|].
    eapply Forall_impl; [exact Hall|]. class_incl. }
  split; [|split; [|split; [|split]]];
    cbn [Collection.patterns Collection.likely].
  - intros [Hg Hlen]%andb_true_iff. apply andb_true_iff. auto.
  - intros [Ht Hlen]%andb_true_iff. apply andb_true_iff.
    split; [auto|]. apply Nat.leb_le in Hlen. apply Nat.leb_le. lia.
  - intros [Ht _]%andb_true_iff Hlen. apply andb_true_iff.
    split; [auto|]. by apply Nat.leb_le.
  - intros [] H; cbn [Collection.patterns Collection.likely] in H;
      try apply andb_true_iff in H as [H _]; auto.
  - intros platform.
    by destruct (Collection.likely (Collection.patterns username platform)).
Qed.


(** X10. [calculateUsernameComplexity] counts the kinds of character
    present (upper case, lower case, digit, one of [._-]) plus one for a
    length of eight or more: the result is 'low' up to two points, 'medium'
    for three and 'high' from four. So a username made of a single kind of
    character is 'low' whatever its length, 'high' needs at least three
    kinds, and a username shorter than eight characters is 'high' only
    with all four. *)
Theorem username_complexity username :
  let score :=
    (kinds username
     + Nat.b2n (8 <=? String.length username)%nat)%nat in
  Collection.calculateUsernameComplexity username
  = (if (score <=? 2)%nat then "low"
     else if (score <=? 3)%nat then "medium" else "high")
  ∧ ((kinds username ≤ 1)%nat →
     Collection.calculateUsernameComplexity username = "low")
  ∧ (Collection.calculateUsernameComplexity username = "high" →
     (3 ≤ kinds username)%nat
     ∧ ((String.length username < 8)%nat → kinds username = 4%nat)).
Proof.
  cbv zeta.
  assert (Hshape : Collection.calculateUsernameComplexity username
    = (if (kinds username + Nat.b2n (8 <=? String.length username)%nat <=? 2)%nat
       then "low"
       else if (kinds username
                + Nat.b2n (8 <=? String.length username)%nat <=? 3)%nat
            then "medium" else "high")).
  { unfold Collection.calculateUsernameComplexity, kinds.
    rewrite !search_Class.
    destruct (8 <=? String.length username)%nat,
      (has Collection.upper username), (has Collection.lower username),
      (has Regex.digit username), (has Collection.special username); done. }
  split; [exact Hshape|]. rewrite Hshape.
  assert (Hk : (kinds username ≤ 4)%nat).
  { unfold kinds.
    destruct (has Collection.upper username), (has Collection.lower username),
      (has Regex.digit username), (has Collection.special username);
      simpl; lia. }
  split.
  - intros Hone.
    destruct (Nat.leb_spec 8 (String.length username)); simpl Nat.b2n;
      repeat match goal with
             | |- context [(?a <=? ?b)%nat] => destruct (Nat.leb_spec a b)
             end; try done; lia.
  - destruct (Nat.leb_spec 8 (String.length username)); simpl Nat.b2n;
      repeat match goal with
             | |- context [(?a <=? ?b)%nat] => destruct (Nat.leb_spec a b)
             end; try done; intros _; split; lia.
Qed.


(** X11. [analyzeUsernamePatterns] of the self-built manager rejects a
    username outside [a-zA-Z0-9_.-]+ with 'Invalid username format' and
    otherwise lists at most three profiles, for github, twitter and reddit
    in that order, each carrying the username; [totalFound] is their number
    and [found] says whether there is any. Every valid username shorter
    than eight characters is found. *)
Theorem username_patterns username :
  (Regex.test Analysis.socialMediaPattern username = false →
   Analysis.analyzeUsernamePatterns username
   = Analysis.InvalidUsername username "Invalid username format")
  ∧ (Regex.test Analysis.socialMediaPattern username = true →
     (∃ profiles characteristics,
        Analysis.analyzeUsernamePatterns username
        = Analysis.UsernameProfiles (0 <? length profiles)%nat username
            profiles "Username pattern recognition" (length profiles)
            characteristics
        ∧ sublist (List.map Analysis.platform profiles)
            ["github"; "twitter"; "reddit"]
        ∧ Forall (λ p, Analysis.p_username p = username) profiles)
     ∧ ((String.length username < 8)%nat →
        foundOf (Analysis.analyzeUsernamePatterns username) = true)).
Proof.
  unfold Analysis.analyzeUsernamePatterns.
  split; [by intros ->|]. intros ->. cbn [negb].
  set (c1 := (_ || _) && (4 <? _)%nat).
  set (common := Regex.startsWith _ _).
  set (numbers := Regex.search (Regex.Class Regex.digit) username).
  split.
  - do 2 eexists. split; [reflexivity|].
    destruct c1, (common || _), (numbers && _); simpl;
      (split; [|repeat constructor]);
      repeat (first [apply sublist_skip | apply sublist_cons | apply sublist_nil]).
  - intros Hshort.
    assert (H8 : (String.length username <? 8)%nat = true)
      by (by apply Nat.ltb_lt).
    assert (H12 : (String.length username <=? 12)%nat = true)
      by (apply Nat.leb_le; lia).
    rewrite H8, H12.
    destruct c1, common, numbers; done.
Qed.


(** ** The search box and the address patterns *)

(** Takes apart the hypotheses that a text belongs to a composite
    pattern. *)
Ltac lang_inv :=
  repeat match goal with
         | H : Regex.Lang (Regex.Seq _ _) _ |- _ =>
             apply Lang_Seq in H as (? & ? & -> & ? & ?)
         | H : Regex.Lang (Regex.Or _ _) _ |- _ => apply Lang_Or in H as [?|?]
         | H : Regex.Lang Regex.Empty _ |- _ => apply Lang_Empty in H as ->
         | H : Regex.Lang (Regex.Class _) _ |- _ =>
             apply Lang_Class in H as (? & -> & ?)
         end.

Lemma includes_In c s : Analysis.includes c s = true ↔ In c (chars s).
Proof.
  unfold Analysis.includes, chars. rewrite existsb_exists. split.
  - intros (x & Hin & Heq). unfold Regex.isChar in Heq.
    by apply Ascii.eqb_eq in Heq as ->.
  - intros Hin. exists c. split; [done|]. apply Ascii.eqb_refl.
Qed.

Lemma chars_nil s : chars s = [] ↔ s = "".
Proof. destruct s; simpl; split; done. Qed.

Lemma Lang_digits13 l :
  Regex.Lang SearchBox.digits13 l
  ↔ (1 ≤ length l ≤ 3)%nat ∧ Forall (λ c, Regex.digit c = true) l.
Proof.
  split.
  - unfold SearchBox.digits13. cbn [Regex.Upto]. unfold Regex.Opt.
    intros H. lang_inv; simpl; (split; [lia|]); repeat constructor; try done.
  - intros [Hlen Hall]. apply matches_Lang.
    destruct l as [|d1 [|d2 [|d3 [|d4 l]]]]; simpl in Hlen; try lia;
      repeat match goal with
             | H : Forall _ (_ :: _) |- _ => apply Forall_cons in H as [? H]
             end;
      unfold SearchBox.digits13; cbn [Regex.Upto]; unfold Regex.Opt;
      cbn [Regex.matches Regex.deriv Regex.nullable];
      repeat match goal with
             | H : Regex.digit _ = true |- _ =>
                 rewrite H; cbn [Regex.matches Regex.deriv Regex.nullable
                                 andb orb]
             end; try done.
    all: try (simpl in Hlen; lia).
Qed.

Lemma Lang_ipShape l :
  Regex.Lang SearchBox.ipShape l
  ↔ ∃ a b c d,
      l = dotted a b c d
      ∧ Forall (λ t, (1 ≤ length t ≤ 3)%nat
                     ∧ Forall (λ c, Regex.digit c = true) t) [a; b; c; d].
Proof.
  unfold SearchBox.ipShape, Regex.lit, dotted. split.
  - intros H.
    repeat match goal with
           | H : Regex.Lang (Regex.Seq _ _) _ |- _ =>
               apply Lang_Seq in H as (? & ? & -> & ? & ?)
           | H : Regex.Lang (Regex.Class (Regex.isChar _)) _ |- _ =>
               apply Lang_Class in H as (? & -> & ->%Ascii.eqb_eq)
           | H : Regex.Lang SearchBox.digits13 _ |- _ =>
               apply Lang_digits13 in H
           end.
    match goal with
    | |- ∃ _ _ _ _, ?a ++ _ ++ ?b ++ _ ++ ?c ++ _ ++ ?d = _ ∧ _ =>
        exists a, b, c, d
    end.
    split; [reflexivity|]. rewrite !Forall_cons, Forall_nil. tauto.
  - intros (a & b & c & d & -> & Hall).
    repeat match goal with
           | H : Forall _ (_ :: _) |- _ => apply Forall_cons in H as [? H]
           end.
    repeat (apply Lang_Seq; eexists _, _; split; [reflexivity|split];
            [by apply Lang_digits13|]).
    change ("."%char :: b ++ "."%char :: c ++ "."%char :: d)
      with (["."%char] ++ b ++ ["."%char] ++ c ++ ["."%char] ++ d).
    repeat first
      [ apply Lang_digits13; done
      | apply Lang_Seq; eexists _, _; split; [reflexivity|split]
      | apply Lang_Class; eexists; split; [reflexivity|apply Ascii.eqb_refl] ].
Qed.

Lemma ipShape_chars l :
  Regex.Lang SearchBox.ipShape l →
  l ≠ [] ∧ In "."%char l ∧ ¬ In "@"%char l.
Proof.
  intros (a & b & c & d & -> & Hall)%Lang_ipShape.
  repeat match goal with
         | H : Forall _ (_ :: _) |- _ => apply Forall_cons in H as [[? ?] H]
         end.
  unfold dotted. split; [by destruct a|]. split.
  - apply in_app_iff. right. by left.
  - assert (Hd : ∀ t, Forall (λ c, Regex.digit c = true) t → ¬ In "@"%char t).
    { intros t Ht Hin. rewrite Forall_forall in Ht.
      apply list_elem_of_In, Ht in Hin. done. }
    repeat (rewrite ?in_app_iff; simpl).
    intros Hin.
    repeat match goal with
           | H : _ ∨ _ |- _ => destruct H
           end; try done;
      match goal with
      | Hin : In _ ?t, HF : Forall _ ?t |- _ => exact (Hd t HF Hin)
      end.
Qed.


(** ** The address pattern of the source manager *)

Lemma digit_In c : Regex.digit c = true → In c digitChars.
Proof.
  destruct c as [[] [] [] [] [] [] [] []]; intros H;
    try (by vm_compute in H); simpl; tauto.
Qed.

Lemma digitTexts_In t :
  Forall (λ c, Regex.digit c = true) t → In t (digitTexts (length t)).
Proof.
  induction 1 as [|c t Hc _ IH]; [by left|].
  cbn [length digitTexts]. apply in_flat_map. exists c.
  split; [by apply digit_In|]. by apply in_map.
Qed.

Lemma octetAgrees_digits :
  forallb octetAgrees (digitTexts 1 ++ digitTexts 2 ++ digitTexts 3) = true.
Proof. by vm_compute. Qed.

Lemma octetAgrees_short t :
  (1 ≤ length t ≤ 3)%nat → Forall (λ c, Regex.digit c = true) t →
  octetAgrees t = true.
Proof.
  intros Hlen Hall. apply digitTexts_In in Hall.
  pose proof octetAgrees_digits as Hchk. rewrite forallb_forall in Hchk.
  apply Hchk. rewrite !in_app_iff.
  destruct (length t) as [|[|[|[|n]]]]; try lia; auto.
Qed.

Lemma inRange_digit lo hi c :
  Regex.digit lo = true → Regex.digit hi = true →
  Regex.inRange lo hi c = true → Regex.digit c = true.
Proof.
  unfold Regex.digit, Regex.inRange.
  rewrite !andb_true_iff, !N.leb_le. lia.
Qed.

Lemma isChar_digit x c :
  Regex.digit x = true → Regex.isChar x c = true → Regex.digit c = true.
Proof. unfold Regex.isChar. by intros Hx ->%Ascii.eqb_eq. Qed.

Lemma Number_digits t v :
  Analysis.Number t = Some v → Forall (λ c, Regex.digit c = true) t.
Proof.
  unfold Analysis.Number. destruct (forallb Regex.digit t) eqn:Hd; [|done].
  intros _. apply Forall_forall. intros c Hc.
  rewrite forallb_forall in Hd. by apply Hd, list_elem_of_In.
Qed.

Lemma Lang_octetPattern t :
  Regex.Lang Analysis.octetPattern t ↔ OctetText t.
Proof.
  split.
  - intros HL.
    assert (Hshape : (1 ≤ length t ≤ 3)%nat
                     ∧ Forall (λ c, Regex.digit c = true) t).
    { revert HL. unfold Analysis.octetPattern, Regex.lit, Regex.Opt.
      intros H. lang_inv; simpl; (split; [lia|]);
        rewrite ?Forall_cons, ?Forall_nil;
        repeat match goal with
               | H : Regex.anyOf _ _ = true |- _ =>
                   simpl in H; rewrite ?orb_true_iff in H
               | H : _ ∨ _ |- _ => destruct H
               | H : Regex.isChar _ _ = true |- _ =>
                   apply isChar_digit in H; [|done]
               | H : Regex.inRange _ _ _ = true |- _ =>
                   apply inRange_digit in H; [|done..]
               end; try done. }
    destruct Hshape as [Hlen Hall]. split; [done|].
    pose proof (octetAgrees_short t Hlen Hall) as Hag.
    apply matches_Lang in HL. unfold octetAgrees in Hag. rewrite HL in Hag.
    destruct (Analysis.Number t) as [v|]; [|done].
    exists v. split; [done|]. simpl in Hag.
    destruct (Z.leb_spec 0 v), (Z.leb_spec v 255); done.
  - intros [Hlen (v & Hv & Hrange)]. apply matches_Lang.
    pose proof (octetAgrees_short t Hlen (Number_digits t v Hv)) as Hag.
    unfold octetAgrees in Hag. rewrite Hv in Hag.
    replace ((0 <=? v) && (v <=? 255)) with true in Hag.
    + by destruct (Regex.matches Analysis.octetPattern t).
    + symmetry. apply andb_true_iff. split; apply Z.leb_le; lia.
Qed.

Lemma Lang_ipPattern l :
  Regex.Lang Analysis.ipPattern l
  ↔ ∃ a b c d, l = dotted a b c d ∧ Forall OctetText [a; b; c; d].
Proof.
  unfold Analysis.ipPattern, Regex.lit, dotted. cbn [Regex.Times]. split.
  - intros H.
    repeat match goal with
           | H : Regex.Lang (Regex.Seq _ _) _ |- _ =>
               apply Lang_Seq in H as (? & ? & -> & ? & ?)
           | H : Regex.Lang (Regex.Class (Regex.isChar _)) _ |- _ =>
               apply Lang_Class in H as (? & -> & ->%Ascii.eqb_eq)
           | H : Regex.Lang Regex.Empty _ |- _ => apply Lang_Empty in H as ->
           | H : Regex.Lang Analysis.octetPattern _ |- _ =>
               apply Lang_octetPattern in H
           end.
    match goal with
    | |- ∃ _ _ _ _,
          ((?a ++ _) ++ (?b ++ _) ++ (?c ++ _) ++ _) ++ ?d = _ ∧ _ =>
        exists a, b, c, d
    end.
    split; [by rewrite <- !app_assoc|].
    rewrite !Forall_cons, Forall_nil. tauto.
  - intros (a & b & c & d & -> & Hall).
    repeat match goal with
           | H : Forall _ (_ :: _) |- _ => apply Forall_cons in H as [? H]
           end.
    replace (a ++ "."%char :: b ++ "."%char :: c ++ "."%char :: d)
      with (((a ++ ["."%char]) ++ (b ++ ["."%char]) ++ (c ++ ["."%char]) ++ [])
            ++ d) by (by rewrite <- !app_assoc).
    repeat first
      [ apply Lang_octetPattern; done
      | apply Lang_Empty; reflexivity
      | apply Lang_Seq; eexists _, _; split; [reflexivity|split]
      | apply Lang_Class; eexists; split; [reflexivity|apply Ascii.eqb_refl] ].
Qed.

Lemma OctetText_digits13 t : OctetText t → Regex.Lang SearchBox.digits13 t.
Proof.
  intros [Hlen (v & Hv & _)]. apply Lang_digits13.
  split; [done|]. by eapply Number_digits.
Qed.

Lemma ipPattern_ipShape l :
  Regex.Lang Analysis.ipPattern l → Regex.Lang SearchBox.ipShape l.
Proof.
  intros (a & b & c & d & -> & Hall)%Lang_ipPattern. apply Lang_ipShape.
  exists a, b, c, d. split; [done|].
  eapply Forall_impl; [exact Hall|].
  intros t Ht. by apply Lang_digits13, OctetText_digits13.
Qed.


Lemma emailPattern_chars l :
  Regex.Lang Analysis.emailPattern l → In "@"%char l ∧ In "."%char l.
Proof.
  unfold Analysis.emailPattern, Regex.lit. intros H.
  repeat match goal with
         | H : Regex.Lang (Regex.Seq _ _) _ |- _ =>
             apply Lang_Seq in H as (? & ? & -> & ? & ?)
         | H : Regex.Lang (Regex.Class (Regex.isChar _)) _ |- _ =>
             apply Lang_Class in H as (? & -> & ->%Ascii.eqb_eq)
         end.
  repeat (rewrite ?in_app_iff; simpl). tauto.
Qed.

(** X12. [autoDetectSearchType] classifies the trimmed text of the search
    box: "auto" exactly for the empty text, "email" exactly when it has
    both an at sign and a dot, "ip" exactly when it has the shape of four
    dot-separated groups of one to three digits, "domain" exactly when it
    has a dot, no at sign and not that shape, and "username" exactly for a
    non-empty text without a dot.  It agrees with the source manager's own
    patterns: what [patterns.email] accepts is detected as an e-mail
    address and what [patterns.ip] accepts as an IP address. *)
Theorem search_type_detection input :
  let detected := SearchBox.autoDetectSearchType input in
  let hasAt := Analysis.includes "@" input in
  let hasDot := Analysis.includes "." input in
  let shaped := Regex.test SearchBox.ipShape input in
  (detected = "auto" ↔ input = "")
  ∧ (detected = "email" ↔ hasAt = true ∧ hasDot = true)
  ∧ (detected = "ip" ↔ shaped = true)
  ∧ (detected = "domain" ↔ hasDot = true ∧ hasAt = false ∧ shaped = false)
  ∧ (detected = "username" ↔ input ≠ "" ∧ hasDot = false)
  ∧ (Regex.test Analysis.emailPattern input = true → detected = "email")
  ∧ (Regex.test Analysis.ipPattern input = true → detected = "ip").
Proof.
  cbv zeta.
  assert (Hshape : Regex.test SearchBox.ipShape input = true →
                   input ≠ "" ∧ Analysis.includes "." input = true
                   ∧ Analysis.includes "@" input = false).
  { intros (Hne & Hdot & Hat)%test_Lang%ipShape_chars.
    split; [by rewrite <- chars_nil|]. split; [by apply includes_In|].
    apply not_true_is_false. by rewrite includes_In. }
  assert (Hemail : Regex.test Analysis.emailPattern input = true →
                   Analysis.includes "@" input = true
                   ∧ Analysis.includes "." input = true).
  { intros [Hat Hdot]%test_Lang%emailPattern_chars.
    by rewrite !includes_In. }
  assert (Hip : Regex.test Analysis.ipPattern input = true →
                Regex.test SearchBox.ipShape input = true).
  { rewrite !test_Lang. apply ipPattern_ipShape. }
  assert (Hempty : input = "" → Analysis.includes "@" input = false
                                ∧ Analysis.includes "." input = false).
  { by intros ->. }
  unfold SearchBox.autoDetectSearchType.
  destruct (String.eqb_spec input "") as [Heq|Hne];
    destruct (Analysis.includes "@" input) eqn:Hat;
    destruct (Analysis.includes "." input) eqn:Hdot;
    destruct (Regex.test SearchBox.ipShape input) eqn:Hsh;
    cbn [andb negb];
    repeat match goal with
           | H : ?a = ?a → _ |- _ => specialize (H eq_refl)
           | H : _ ∧ _ |- _ => destruct H
           end;
    try done; intuition congruence.
Qed.

(** X13. [patterns.ip] accepts exactly the dotted quads: four texts joined
    by dots, each of one to three decimal digits whose number is between
    0 and 255 (so leading zeros are accepted, and 256 is not). *)
Theorem ip_pattern_exact ip :
  Regex.test Analysis.ipPattern ip = true
  ↔ ∃ a b c d, chars ip = dotted a b c d ∧ Forall OctetText [a; b; c; d].
Proof. rewrite test_Lang. apply Lang_ipPattern. Qed.


(** ** The address analysis *)

Lemma split_whole sep a : ¬ In sep a → Analysis.split sep a = [a].
Proof.
  induction a as [|c a IH]; [done|]. intros Hnot. simpl.
  destruct (Ascii.eqb_spec c sep) as [->|_]; [by destruct Hnot; left|].
  rewrite IH; [done|]. intros Hin. apply Hnot. by right.
Qed.

Lemma split_app sep a rest :
  ¬ In sep a →
  Analysis.split sep (a ++ sep :: rest) = a :: Analysis.split sep rest.
Proof.
  induction a as [|c a IH]; intros Hnot; simpl.
  - by rewrite Ascii.eqb_refl.
  - destruct (Ascii.eqb_spec c sep) as [->|_]; [by destruct Hnot; left|].
    rewrite IH; [done|]. intros Hin. apply Hnot. by right.
Qed.

Lemma OctetText_no_dot t : OctetText t → ¬ In "."%char t.
Proof.
  intros [_ (v & Hv%Number_digits & _)] Hin.
  rewrite Forall_forall in Hv. by apply list_elem_of_In, Hv in Hin.
Qed.

Lemma split_dotted a b c d :
  Forall OctetText [a; b; c; d] →
  Analysis.split "." (dotted a b c d) = [a; b; c; d].
Proof.
  rewrite !Forall_cons. intros (Ha & Hb & Hc & Hd & _). unfold dotted.
  rewrite !split_app, split_whole; auto using OctetText_no_dot.
Qed.

Lemma octets_of_accepted ip :
  Regex.test Analysis.ipPattern ip = true →
  ∃ v1 v2 v3 v4,
    octetsOf ip = [Some v1; Some v2; Some v3; Some v4]
    ∧ Forall (λ v, 0 ≤ v ≤ 255) [v1; v2; v3; v4].
Proof.
  intros (a & b & c & d & Hip & Hall)%test_Lang%Lang_ipPattern.
  unfold octetsOf. rewrite Hip, split_dotted by done.
  rewrite !Forall_cons in Hall.
  destruct Hall as ([_ (v1 & Hv1 & ?)] & [_ (v2 & Hv2 & ?)]
                    & [_ (v3 & Hv3 & ?)] & [_ (v4 & Hv4 & ?)] & _).
  exists v1, v2, v3, v4. simpl. rewrite Hv1, Hv2, Hv3, Hv4.
  split; [done|]. by rewrite !Forall_cons, Forall_nil.
Qed.

(** X14. For an address that [patterns.ip] accepts, [analyzeIPPatterns]
    reads four octets between 0 and 255 and reports: the class A, B or C
    of the first octet, "Special" exactly for 0, 127 and 224 to 255; a
    private address exactly in 10/8, 172.16/12 and 192.168/16; a reserved
    one exactly for a first octet of 0 or 127; and a country, city and
    provider that are always defined and come from the same row of the
    three tables, the first octet modulo 5.  So a private address is never
    reserved nor of class "Special", and a reserved one is always
    "Special". *)
Theorem ip_analysis coords ip :
  Regex.test Analysis.ipPattern ip = true →
  ∃ v1 v2 v3 v4 cls priv res loc,
    octetsOf ip = [Some v1; Some v2; Some v3; Some v4]
    ∧ Forall (λ v, 0 ≤ v ≤ 255) [v1; v2; v3; v4]
    ∧ Analysis.analyzeIPPatterns coords ip
      = Analysis.IPInfo ip cls priv res loc "IP pattern analysis"
    ∧ (cls = "A" ↔ 1 ≤ v1 ≤ 126)
    ∧ (cls = "B" ↔ 128 ≤ v1 ≤ 191)
    ∧ (cls = "C" ↔ 192 ≤ v1 ≤ 223)
    ∧ (cls = "Special" ↔ v1 = 0 ∨ v1 = 127 ∨ 224 ≤ v1)
    ∧ (priv = true
       ↔ v1 = 10 ∨ (v1 = 172 ∧ 16 ≤ v2 ≤ 31) ∨ (v1 = 192 ∧ v2 = 168))
    ∧ (res = true ↔ v1 = 0 ∨ v1 = 127)
    ∧ (∃ row name place provider,
         Z.of_nat row = v1 `mod` 5
         ∧ Analysis.countries !! row = Some name
         ∧ Analysis.cities !! row = Some place
         ∧ Analysis.isps !! row = Some provider
         ∧ loc = {| Analysis.country := Some name;
                    Analysis.city := Some place;
                    Analysis.isp := Some provider;
                    Analysis.coordinates := coords |}).
Proof.
  intros Hok.
  destruct (octets_of_accepted ip Hok) as (v1 & v2 & v3 & v4 & Hoct & Hall).
  rewrite !Forall_cons in Hall. destruct Hall as (H1 & H2 & H3 & H4 & _).
  exists v1, v2, v3, v4. do 4 eexists.
  split; [done|]. split; [by rewrite !Forall_cons, Forall_nil|].
  split.
  { unfold Analysis.analyzeIPPatterns. rewrite Hok. cbn [negb].
    fold (chars ip). fold (octetsOf ip). rewrite Hoct. reflexivity. }
  unfold Analysis.determineIPClass, Analysis.isPrivateIP,
    Analysis.isReservedIP, Analysis.generateLocationFromIP, Analysis.at_.
  cbn [lookup list_lookup mjoin option_join Analysis.holds fmap option_fmap
       option_map].
  assert (Hrow : ∃ row, (row < 5)%nat ∧ Z.rem v1 5 = Z.of_nat row).
  { exists (Z.to_nat (Z.rem v1 5)).
    pose proof (Z.rem_bound_pos v1 5 ltac:(lia) ltac:(lia)). lia. }
  destruct Hrow as (row & Hlt & Hrem).
  repeat match goal with |- _ ∧ _ => split end.
  7: { exists row. rewrite Hrem, <- (Z.rem_mod_nonneg v1 5), Hrem by lia.
       destruct row as [|[|[|[|[|row]]]]]; [..|lia];
         by eexists _, _, _. }
  all: repeat match goal with
              | |- context [(?a <=? ?b)] => destruct (Z.leb_spec a b)
              | |- context [(?a =? ?b)] => destruct (Z.eqb_spec a b)
              end; cbn [andb orb]; split; intros; try done; try lia.
Qed.

Lemma ip_analysis_witness :
  ∃ v1 v2 v3 v4 cls priv res loc,
    octetsOf "192.168.1.1" = [Some v1; Some v2; Some v3; Some v4]
    ∧ Forall (λ v, 0 ≤ v ≤ 255) [v1; v2; v3; v4]
    ∧ Analysis.analyzeIPPatterns sampleCoordinates "192.168.1.1"
      = Analysis.IPInfo "192.168.1.1" cls priv res loc "IP pattern analysis"
    ∧ (cls = "A" ↔ 1 ≤ v1 ≤ 126)
    ∧ (cls = "B" ↔ 128 ≤ v1 ≤ 191)
    ∧ (cls = "C" ↔ 192 ≤ v1 ≤ 223)
    ∧ (cls = "Special" ↔ v1 = 0 ∨ v1 = 127 ∨ 224 ≤ v1)
    ∧ (priv = true
       ↔ v1 = 10 ∨ (v1 = 172 ∧ 16 ≤ v2 ≤ 31) ∨ (v1 = 192 ∧ v2 = 168))
    ∧ (res = true ↔ v1 = 0 ∨ v1 = 127)
    ∧ (∃ row name place provider,
         Z.of_nat row = v1 `mod` 5
         ∧ Analysis.countries !! row = Some name
         ∧ Analysis.cities !! row = Some place
         ∧ Analysis.isps !! row = Some provider
         ∧ loc = {| Analysis.country := Some name;
                    Analysis.city := Some place;
                    Analysis.isp := Some provider;
                    Analysis.coordinates := sampleCoordinates |}).
Proof. apply (ip_analysis sampleCoordinates "192.168.1.1"). reflexivity. Defined.


(** ** The domain pattern of the source manager *)

Lemma Lang_Upto_Class n p s :
  Regex.Lang (Regex.Upto n (Regex.Class p)) s
  ↔ (length s ≤ n)%nat ∧ Forall (λ c, p c = true) s.
Proof.
  revert s. induction n as [|n IH]; intros s; cbn [Regex.Upto].
  - rewrite Lang_Empty. split.
    + intros ->. split; [done|constructor].
    + intros [Hlen _]. destruct s; [done|simpl in Hlen; lia].
  - unfold Regex.Opt. rewrite Lang_Or, Lang_Empty, Lang_Seq. split.
    + intros [->|(s1 & s2 & -> & (c & -> & Hp)%Lang_Class & [Hlen Hall]%IH)].
      * split; [simpl; lia|constructor].
      * split; [simpl; lia|by constructor].
    + intros [Hlen Hall]. destruct s as [|c s]; [by left|].
      right. apply Forall_cons in Hall as [Hc Hall].
      exists [c], s. split; [done|]. split; [by constructor|].
      apply IH. split; [simpl in Hlen; lia|done].
Qed.

Lemma alnum_labelChar c :
  Regex.anyOf Collection.alnum c = true → labelChar c = true.
Proof.
  apply anyOf_incl. intros p Hin. apply in_app_iff. by left.
Qed.

Lemma Lang_labelPattern l :
  Regex.Lang Structure.labelPattern l ↔ Label l.
Proof.
  unfold Structure.labelPattern, Regex.Opt.
  rewrite Lang_Seq. split.
  - intros (s1 & s2 & -> & (c & -> & Hc)%Lang_Class & Hrest).
    apply Lang_Or in Hrest as [->%Lang_Empty|Hrest].
    + split; [simpl; lia|]. split; [|split; by exists c].
      constructor; [by apply alnum_labelChar|constructor].
    + apply Lang_Seq in Hrest
        as (m & s3 & -> & [Hlen Hall]%Lang_Upto_Class
            & (c' & -> & Hc')%Lang_Class).
      split; [simpl; rewrite length_app; simpl; lia|].
      split; [|split; [by exists c|exists c']].
      * constructor; [by apply alnum_labelChar|].
        apply Forall_app. split; [done|].
        constructor; [by apply alnum_labelChar|constructor].
      * split; [|done]. change ([c] ++ m ++ [c']) with ((c :: m) ++ [c']).
        apply last_snoc.
  - intros (Hlen & Hall & (c & Hhead & Hc) & (c' & Hlast & Hc')).
    destruct l as [|c0 rest]; [done|]. injection Hhead as ->.
    exists [c], rest. split; [done|]. split; [by constructor|].
    destruct rest as [|x rest' _] using rev_ind.
    + apply Lang_Or. left. constructor.
    + apply Lang_Or. right. rewrite app_comm_cons, last_snoc in Hlast.
      injection Hlast as ->. apply Lang_Seq. exists rest', [c'].
      split; [done|]. split; [|by constructor].
      apply Lang_Upto_Class. apply Forall_cons in Hall as [_ Hall].
      apply Forall_app in Hall as [Hall _].
      split; [|done]. simpl in Hlen. rewrite length_app in Hlen.
      simpl in Hlen. lia.
Qed.

Lemma Lang_dotted_labels s :
  Regex.Lang (Regex.Star (Regex.Seq (Regex.lit ".") Structure.labelPattern)) s
  ↔ ∃ labels, s = flat_map (cons "."%char) labels ∧ Forall Label labels.
Proof.
  split.
  - remember (Regex.Star _) as r eqn:Hr. intros HL.
    induction HL; try discriminate; [by exists []|].
    injection Hr as ->.
    destruct (IHHL2 eq_refl) as (labels & -> & Hall).
    apply Lang_Seq in HL1
      as (d & l & -> & (c & -> & ->%Ascii.eqb_eq)%Lang_Class
          & Hl%Lang_labelPattern).
    exists (l :: labels). split; [done|]. by constructor.
  - intros (labels & -> & Hall).
    induction Hall as [|l labels Hl _ IH]; [constructor|].
    change (flat_map (cons "."%char) (l :: labels))
      with (("."%char :: l) ++ flat_map (cons "."%char) labels).
    constructor; [|done].
    change ("."%char :: l) with (["."%char] ++ l).
    constructor; [constructor; apply Ascii.eqb_refl|].
    by apply Lang_labelPattern.
Qed.

Lemma Lang_domainPattern s :
  Regex.Lang Structure.domainPattern s
  ↔ ∃ labels, labels ≠ [] ∧ s = joinDots labels ∧ Forall Label labels.
Proof.
  unfold Structure.domainPattern. rewrite Lang_Seq. split.
  - intros (l & s2 & -> & Hl%Lang_labelPattern
            & (labels & -> & Hall)%Lang_dotted_labels).
    exists (l :: labels). split; [done|]. split; [done|]. by constructor.
  - intros (labels & Hne & -> & Hall). destruct labels as [|l labels]; [done|].
    apply Forall_cons in Hall as [Hl Hall].
    exists l, (flat_map (cons "."%char) labels). split; [done|].
    split; [by apply Lang_labelPattern|].
    apply Lang_dotted_labels. by exists labels.
Qed.

(** X15. [patterns.domain] accepts exactly the texts made of one or more
    labels joined by dots, where a label has 1 to 63 letters, digits and
    hyphens and neither begins nor ends with a hyphen.  A single label is
    accepted: a dot is not required. *)
Theorem domain_pattern_exact domain :
  Regex.test Structure.domainPattern domain = true
  ↔ ∃ labels,
      labels ≠ [] ∧ chars domain = joinDots labels ∧ Forall Label labels.
Proof. rewrite test_Lang. apply Lang_domainPattern. Qed.


(** ** The structure of domains *)

Lemma chars_str l : chars (str l) = l.
Proof. apply String.list_ascii_of_string_of_list_ascii. Qed.

Lemma Label_no_dot l : Label l → ¬ In "."%char l.
Proof.
  intros (_ & Hall & _) Hin. rewrite Forall_forall in Hall.
  by apply list_elem_of_In, Hall in Hin.
Qed.

Lemma Label_nonempty l : Label l → str l ≠ "".
Proof. intros ([Hlen _] & _). destruct l; [simpl in Hlen; lia|done]. Qed.

Lemma joinDots_cons l l' ls :
  joinDots (l :: l' :: ls) = l ++ "."%char :: joinDots (l' :: ls).
Proof. done. Qed.

Lemma split_joinDots labels :
  labels ≠ [] → Forall Label labels →
  Analysis.split "." (joinDots labels) = labels.
Proof.
  intros Hne Hall. induction Hall as [|l ls Hl Hls IH]; [done|].
  destruct ls as [|l' ls].
  - simpl. rewrite app_nil_r. by apply split_whole, Label_no_dot.
  - rewrite joinDots_cons, split_app by by apply Label_no_dot.
    by rewrite IH.
Qed.

Lemma item_map labels i :
  Structure.item (List.map str labels) i
  = from_option (λ l, JString (str l)) JUndefined (labels !! i).
Proof.
  unfold Structure.item. change (List.map str labels) with (str <$> labels).
  rewrite list_lookup_fmap. by destruct (labels !! i).
Qed.

(** X16. For a domain that [patterns.domain] accepts, [analyzeDomainPatterns]
    reports the number of labels as the depth and the last label as the
    top-level domain; the first label is the subdomain exactly when there
    are more than two labels, and the subdomain analysis is present in
    exactly that case. *)
Theorem domain_analysis getTldType analyzeSubdomainType domain :
  Regex.test Structure.domainPattern domain = true →
  ∃ labels first tld,
    chars domain = joinDots labels ∧ Forall Label labels
    ∧ head labels = Some first ∧ last labels = Some tld
    ∧ Structure.analyzeDomainPatterns getTldType analyzeSubdomainType domain
      = [("found", JBool true); ("query", JString domain);
         ("structure",
          JObject
            [("tld", JString (str tld));
             ("subdomain",
              if (2 <? length labels)%nat then JString (str first)
              else JNull);
             ("isSubdomain", JBool (2 <? length labels)%nat);
             ("depth", JNumber (Z.of_nat (length labels)))]);
         ("analysisMethod", JString "Domain structure analysis");
         ("tldInfo",
          JObject
            [("isCommon",
              JBool (bool_decide (str tld ∈ Structure.commonTlds)));
             ("type", getTldType (JString (str tld)))])]
        ++ (if (2 <? length labels)%nat
            then [("subdomainAnalysis",
                   JObject
                     [("type", analyzeSubdomainType (JString (str first)));
                      ("commonPatterns",
                       JBool (Structure.checkCommonSubdomainPatterns
                                (str first)))])]
            else []).
Proof.
  intros Hok.
  pose proof Hok as (labels & Hne & Hdom & Hall)%test_Lang%Lang_domainPattern.
  destruct labels as [|first rest] eqn:Hlabels; [done|]. rewrite <- Hlabels in *.
  assert (Hlast : ∃ tld, last labels = Some tld).
  { destruct (last labels) eqn:Hl; [by eexists|].
    apply last_None in Hl. congruence. }
  destruct Hlast as [tld Hlast].
  exists labels, first, tld.
  split; [done|]. split; [done|]. split; [by rewrite Hlabels|].
  split; [done|].
  unfold Structure.analyzeDomainPatterns. rewrite Hok. cbn [negb].
  unfold Structure.split. fold (chars domain).
  rewrite Hdom, split_joinDots by done. fold str.
  rewrite length_map, !item_map.
  rewrite last_lookup in Hlast. rewrite Nat.sub_1_r, Hlast.
  assert (Hfirst : labels !! 0%nat = Some first) by by rewrite Hlabels.
  rewrite Hfirst. cbn [from_option].
  assert (Hcommon : Structure.includesValue Structure.commonTlds
                      (JString (str tld))
                    = bool_decide (str tld ∈ Structure.commonTlds)).
  { cbn [Structure.includesValue]. apply eq_true_iff_eq.
    rewrite existsb_exists, bool_decide_eq_true. split.
    - intros (x & Hin & ->%String.eqb_eq). by apply list_elem_of_In.
    - intros Hin. exists (str tld).
      split; [by apply list_elem_of_In|apply String.eqb_refl]. }
  rewrite Hcommon.
  destruct (2 <? length labels)%nat; [|done].
  cbn [truthy].
  assert (Htruthy : String.eqb (str first) "" = false).
  { apply String.eqb_neq, Label_nonempty.
    rewrite Hlabels in Hall. by apply Forall_cons in Hall as [? _]. }
  by rewrite Htruthy.
Qed.


Lemma domain_analysis_witness :
  ∃ labels first tld,
    chars "www.example.com" = joinDots labels ∧ Forall Label labels
    ∧ head labels = Some first ∧ last labels = Some tld
    ∧ Structure.analyzeDomainPatterns
        (λ _, JString "commercial") (λ _, JString "web server")
        "www.example.com"
      = [("found", JBool true); ("query", JString "www.example.com");
         ("structure",
          JObject
            [("tld", JString (str tld));
             ("subdomain",
              if (2 <? length labels)%nat then JString (str first)
              else JNull);
             ("isSubdomain", JBool (2 <? length labels)%nat);
             ("depth", JNumber (Z.of_nat (length labels)))]);
         ("analysisMethod", JString "Domain structure analysis");
         ("tldInfo",
          JObject
            [("isCommon",
              JBool (bool_decide (str tld ∈ Structure.commonTlds)));
             ("type", JString "commercial")])]
        ++ (if (2 <? length labels)%nat
            then [("subdomainAnalysis",
                   JObject
                     [("type", JString "web server");
                      ("commonPatterns",
                       JBool (Structure.checkCommonSubdomainPatterns
                                (str first)))])]
            else []).
Proof.
  apply (domain_analysis (λ _, JString "commercial")
           (λ _, JString "web server") "www.example.com").
  by vm_compute.
Defined.

(** ** The structure of e-mail addresses *)

Lemma Lang_emailPattern l :
  Regex.Lang Analysis.emailPattern l →
  ∃ u d,
    l = u ++ "@"%char :: d ∧ u ≠ [] ∧ ¬ In "@"%char u ∧ ¬ In "@"%char d
    ∧ In "."%char d.
Proof.
  unfold Analysis.emailPattern, Regex.lit. intros H.
  apply Lang_Seq in H as (u & r1 & -> & [Hu Hua]%Lang_Plus_Class & H).
  apply Lang_Seq in H
    as (a & r2 & -> & (c & -> & ->%Ascii.eqb_eq)%Lang_Class & H).
  apply Lang_Seq in H as (d1 & r3 & -> & [_ Hd1]%Lang_Plus_Class & H).
  apply Lang_Seq in H
    as (b & d2 & -> & (c & -> & ->%Ascii.eqb_eq)%Lang_Class
        & [_ Hd2]%Lang_Plus_Class).
  assert (Hno : ∀ t, Forall (λ c, Analysis.emailChar c = true) t →
                     ¬ In "@"%char t).
  { intros t Ht Hin. rewrite Forall_forall in Ht.
    by apply list_elem_of_In, Ht in Hin. }
  exists u, (d1 ++ "."%char :: d2). split; [done|]. split; [done|].
  split; [by apply Hno|]. split.
  - rewrite in_app_iff. simpl. intros [Hin|[Hin|Hin]]; [|done|].
    + by apply (Hno d1).
    + by apply (Hno d2).
  - apply in_app_iff. right. by left.
Qed.

Lemma split_length sep l :
  (1 ≤ length (Analysis.split sep l))%nat
  ∧ (In sep l → 2 ≤ length (Analysis.split sep l))%nat.
Proof.
  induction l as [|c l [IH1 IH2]]; [simpl; split; [lia|done]|].
  simpl. destruct (Ascii.eqb_spec c sep) as [->|Hne].
  - simpl. split; [lia|]. intros _. lia.
  - destruct (Analysis.split sep l) as [|part parts] eqn:Hs;
      [simpl in IH1; lia|].
    simpl. split; [lia|]. intros [Heq|Hin]; [done|]. by apply IH2.
Qed.

Lemma no_data getTldType analyzeSubdomainType domain :
  assoc "data"
    (Structure.analyzeDomainPatterns getTldType analyzeSubdomainType domain)
  = JUndefined.
Proof.
  unfold Structure.analyzeDomainPatterns.
  destruct (negb _); [done|]. cbv zeta.
  by destruct (truthy _).
Qed.

Lemma commonFormat_chars u :
  Regex.Lang Structure.commonFormat u →
  In "."%char u ∧ Forall (λ c, Regex.digit c = false) u.
Proof.
  unfold Structure.commonFormat, Regex.lit. cbv zeta. intros H.
  apply Lang_Seq in H as (a & r & -> & [_ Ha]%Lang_Plus_Class & H).
  apply Lang_Seq in H
    as (d & b & -> & (c & -> & ->%Ascii.eqb_eq)%Lang_Class
        & [_ Hb]%Lang_Plus_Class).
  assert (Hletter : ∀ c,
            Regex.anyOf [Collection.lower; Collection.upper] c = true →
            Regex.digit c = false).
  { intros c. unfold Regex.anyOf, Collection.lower, Collection.upper,
      Regex.digit, Regex.inRange. simpl.
    rewrite orb_false_r, orb_true_iff, !andb_true_iff, andb_false_iff,
      !N.leb_le, !N.leb_gt. lia. }
  split; [apply in_app_iff; right; by left|].
  apply Forall_app. split; [by eapply Forall_impl|].
  constructor; [done|]. by eapply Forall_impl.
Qed.

(** X17. For an address that [patterns.email] accepts, [analyzeEmailPatterns]
    returns without raising: the address splits at its only at sign into a
    non-empty username and a domain of at least two dot-separated parts,
    which are reported with their sizes; an address in the common
    first.last format is always reported as having a special character and
    no digit; and the domain analysis is always [undefined], because
    [analyzeDomainPatterns] has no [data] property. *)
Theorem email_analysis getTldType analyzeSubdomainType email :
  Regex.test Analysis.emailPattern email = true →
  ∃ username domain parts numbers specials common,
    chars email = chars username ++ "@"%char :: chars domain
    ∧ username ≠ ""
    ∧ Analysis.includes "@" username = false
    ∧ Analysis.includes "@" domain = false
    ∧ (2 ≤ parts)%nat
    ∧ (common = true → specials = true ∧ numbers = false)
    ∧ Structure.analyzeEmailPatterns getTldType analyzeSubdomainType email
      = Return
          [("found", JBool true); ("query", JString email);
           ("structure",
            JObject
              [("username", JString username); ("domain", JString domain);
               ("usernameLength",
                JNumber (Z.of_nat (String.length username)));
               ("domainParts", JNumber (Z.of_nat parts))]);
           ("patterns",
            JObject
              [("hasNumbers", JBool numbers);
               ("hasSpecialChars", JBool specials);
               ("isCommonFormat", JBool common)]);
           ("domainAnalysis", JUndefined);
           ("analysisMethod", JString "Email structure analysis")].
Proof.
  intros Hok.
  pose proof Hok
    as (u & d & Hemail & Hu & Hnu & Hnd & Hdot)%test_Lang%Lang_emailPattern.
  exists (str u), (str d), (length (Structure.split "." (str d))),
    (Regex.search (Regex.Class Regex.digit) (str u)),
    (Regex.search (Regex.Class Collection.special) (str u)),
    (Regex.test Structure.commonFormat (str u)).
  rewrite !chars_str.
  split; [done|]. split; [by destruct u|].
  split; [apply not_true_is_false; by rewrite includes_In, chars_str|].
  split; [apply not_true_is_false; by rewrite includes_In, chars_str|].
  split.
  { unfold Structure.split. fold (chars (str d)).
    rewrite chars_str, length_map. by apply split_length. }
  split.
  { rewrite test_Lang, chars_str, !search_Class.
    intros [Hin Hdig]%commonFormat_chars. unfold has. rewrite chars_str.
    split.
    - apply existsb_exists. by exists "."%char.
    - apply not_true_is_false. rewrite existsb_exists.
      intros (c & Hc & Hd). rewrite Forall_forall in Hdig.
      apply list_elem_of_In, Hdig in Hc. congruence. }
  assert (Hparts : Structure.split "@" email = [str u; str d]).
  { unfold Structure.split. fold (chars email).
    by rewrite Hemail, split_app, split_whole. }
  unfold Structure.analyzeEmailPatterns.
  rewrite Hok, Hparts. cbn [negb lookup list_lookup].
  by rewrite no_data.
Qed.

Lemma email_analysis_witness :
  ∃ username domain parts numbers specials common,
    chars "jane.doe@example.com" = chars username ++ "@"%char :: chars domain
    ∧ username ≠ ""
    ∧ Analysis.includes "@" username = false
    ∧ Analysis.includes "@" domain = false
    ∧ (2 ≤ parts)%nat
    ∧ (common = true → specials = true ∧ numbers = false)
    ∧ Structure.analyzeEmailPatterns
        (λ _, JString "commercial") (λ _, JString "custom")
        "jane.doe@example.com"
      = Return
          [("found", JBool true); ("query", JString "jane.doe@example.com");
           ("structure",
            JObject
              [("username", JString username); ("domain", JString domain);
               ("usernameLength",
                JNumber (Z.of_nat (String.length username)));
               ("domainParts", JNumber (Z.of_nat parts))]);
           ("patterns",
            JObject
              [("hasNumbers", JBool numbers);
               ("hasSpecialChars", JBool specials);
               ("isCommonFormat", JBool common)]);
           ("domainAnalysis", JUndefined);
           ("analysisMethod", JString "Email structure analysis")].
Proof.
  apply (email_analysis (λ _, JString "commercial") (λ _, JString "custom")
           "jane.doe@example.com").
  by vm_compute.
Defined.



(** ** The DNS lookups of the collector *)

Lemma recordData_cons records values :
  DNS.recordData records = Some values → length values = length records.
Proof.
  revert values. induction records as [|r rest IH]; intros values; simpl.
  - by intros [= <-].
  - destruct r; try done;
      (destruct (DNS.recordData rest) as [vs|]; [|done]);
      intros [= <-]; simpl; by rewrite (IH vs).
Qed.

Lemma answerData_nonempty data values :
  DNS.answerData data = Some values → ∃ v vs, values = v :: vs.
Proof.
  unfold DNS.answerData.
  destruct (getProp data "Answer") as [| | | | | |[|r rest]| |]; try done.
  intros Hd%recordData_cons. destruct values; [done|]. by eexists _, _.
Qed.

(** One turn of the loop: the limiter, then the request, made in the heap
    [h2] the limiter leaves; the type is stored exactly when that request
    is answered with records. *)
Lemma lookupType_spec fetch enc meanwhile domain type results h :
  let since := now h - default 0 (rateLimits h !! "dns") in
  let h1 := if since <? 100
            then meanwhile (elapse (100 - since) h) else h in
  let h2 := set_rateLimits (<["dns" := now h1]> (rateLimits h1)) h1 in
  ∃ results' h' t0 t1,
    DNS.lookupType fetch enc meanwhile domain type results h
    = (Return results', h', t0 ++ Called "fetch" (now h2) [] :: t1)
    ∧ List.filter (isCallTo "fetch") t0 = []
    ∧ List.filter (isCallTo "fetch") t1 = []
    ∧ callTimes "fetch" t0 = [] ∧ callTimes "fetch" t1 = []
    ∧ ((results' = results
        ∧ ∀ values, ¬ AnsweredAt fetch (DNS.url enc domain type) h2 values)
       ∨ ∃ v vs, results' = DNS.setProp type (JArray (v :: vs)) results
                 ∧ AnsweredAt fetch (DNS.url enc domain type) h2 (v :: vs))
    ∧ (PassiveFetch fetch → now h2 ≤ now h' ∧ rateLimits h' = rateLimits h2).
Proof.
  cbv zeta. unfold DNS.lookupType, tryCatch, bind at 1.
  rewrite rateLimit_spec. cbv zeta.
  set (since := now h - default 0 (rateLimits h !! "dns")).
  set (h1 := if since <? 100 then meanwhile (elapse (100 - since) h) else h).
  set (h2 := set_rateLimits (<["dns" := now h1]> (rateLimits h1)) h1).
  set (t0 := if since <? 100 then [Slept (Z.max 0 (100 - since))] else []).
  assert (Ht0 : List.filter (isCallTo "fetch") t0 = []
                ∧ callTimes "fetch" t0 = []).
  { unfold t0. by destruct (since <? 100). }
  destruct Ht0 as [Hf0 Hc0].
  unfold bind, callOpaque.
  destruct (fetch (DNS.url enc domain type) h2) as [[response|e] h3] eqn:Hfetch.
  - destruct (DNS.ok response) eqn:Hok.
    + destruct (DNS.json response h3) as [[data|e] h4] eqn:Hjson.
      * eexists _, h4, t0, [Called "json" (now h3) []]. simpl.
        split; [done|]. do 4 (split; [done|]). split.
        -- destruct (DNS.answerData data) as [values|] eqn:Hd.
           ++ right.
              destruct (answerData_nonempty _ _ Hd) as (v & vs & ->).
              exists v, vs. split; [done|].
              by exists response, h3, data, h4.
           ++ left. split; [done|].
              intros values (response' & h3' & data' & h4' & Hf' & _ & Hj' & Hd').
              rewrite Hfetch in Hf'. injection Hf' as <- <-.
              rewrite Hjson in Hj'. injection Hj' as <- _. congruence.
        -- intros Hp. destruct (Hp (DNS.url enc domain type)) as [Hf Hj].
           destruct (Hf h2) as [Hn Hr]. rewrite Hfetch in Hn, Hr.
           assert (Hfst : (fetch (DNS.url enc domain type) h2).1
                          = Return response) by by rewrite Hfetch.
           destruct (Hj h2 response Hfst h3) as [Hn' Hr'].
           rewrite Hjson in Hn', Hr'. simpl in *. split; [lia|congruence].
      * eexists results, h4, t0, [Called "json" (now h3) []]. simpl.
        split; [by rewrite ?app_nil_r|]. do 4 (split; [done|]). split.
        { left. split; [done|].
          intros values (response' & h3' & data' & h4' & Hf' & _ & Hj' & _).
          rewrite Hfetch in Hf'. injection Hf' as <- <-.
          rewrite Hjson in Hj'. discriminate Hj'. }
        intros Hp. destruct (Hp (DNS.url enc domain type)) as [Hf Hj].
        destruct (Hf h2) as [Hn Hr]. rewrite Hfetch in Hn, Hr.
        assert (Hfst : (fetch (DNS.url enc domain type) h2).1
                       = Return response) by by rewrite Hfetch.
        destruct (Hj h2 response Hfst h3) as [Hn' Hr'].
        rewrite Hjson in Hn', Hr'. simpl in *. split; [lia|congruence].
    + eexists results, h3, t0, []. simpl.
      split; [by rewrite ?app_nil_r|]. do 4 (split; [done|]).
      split.
      { left. split; [done|].
        intros values (response' & h3' & data' & h4' & Hf' & Hok' & _).
        rewrite Hfetch in Hf'. injection Hf' as <- <-. congruence. }
      intros Hp. destruct (Hp (DNS.url enc domain type)) as [Hf _].
      destruct (Hf h2) as [Hn Hr]. by rewrite Hfetch in Hn, Hr.
  - eexists results, h3, t0, []. simpl.
    split; [by rewrite ?app_nil_r|]. do 4 (split; [done|]).
    split.
    { left. split; [done|].
      intros values (response' & h3' & data' & h4' & Hf' & _).
      rewrite Hfetch in Hf'. discriminate Hf'. }
    intros Hp. destruct (Hp (DNS.url enc domain type)) as [Hf _].
    destruct (Hf h2) as [Hn Hr]. by rewrite Hfetch in Hn, Hr.
Qed.

Lemma AnsweredAt_functional fetch url h values values' :
  AnsweredAt fetch url h values → AnsweredAt fetch url h values' →
  values = values'.
Proof.
  intros (response & h1 & data & h2 & Hf & _ & Hj & Hd)
    (response' & h1' & data' & h2' & Hf' & _ & Hj' & Hd').
  rewrite Hf in Hf'. injection Hf' as <- <-.
  rewrite Hj in Hj'. injection Hj' as <- _. congruence.
Qed.

Lemma recordKeys_setProp key value fields :
  key ∉ recordKeys fields →
  recordKeys (DNS.setProp key value fields) = recordKeys fields ++ [key].
Proof.
  unfold recordKeys. induction fields as [|[k v] rest IH]; [done|].
  intros Hnot. cbn [DNS.setProp].
  destruct (String.eqb_spec k key) as [->|Hne].
  - destruct Hnot. by left.
  - rewrite !fmap_cons, IH; [done|]. intros Hin. apply Hnot. by right.
Qed.

Lemma Stored_setProp key v vs fields :
  Forall Stored fields →
  Forall Stored (DNS.setProp key (JArray (v :: vs)) fields).
Proof.
  induction 1 as [|[k w] rest Hk Hrest IH]; simpl.
  - constructor; [by exists v, vs|constructor].
  - destruct (String.eqb k key); (constructor; [|done]); [|done].
    by exists v, vs.
Qed.

Lemma assoc_setProp_eq key value fields :
  assoc key (DNS.setProp key value fields) = value.
Proof.
  induction fields as [|[k v] rest IH]; simpl.
  - by rewrite String.eqb_refl.
  - destruct (String.eqb k key) eqn:Hk; simpl; by rewrite Hk.
Qed.

Lemma assoc_setProp_ne key key' value fields :
  key ≠ key' →
  assoc key (DNS.setProp key' value fields) = assoc key fields.
Proof.
  intros Hne. induction fields as [|[k v] rest IH]; simpl.
  - by rewrite (proj2 (String.eqb_neq key' key)).
  - destruct (String.eqb_spec k key') as [->|Hk]; simpl.
    + by rewrite !(proj2 (String.eqb_neq key' key)).
    + by rewrite IH.
Qed.

Lemma recordKeys_setProp_elem key key' value fields :
  key ∈ recordKeys (DNS.setProp key' value fields)
  ↔ key = key' ∨ key ∈ recordKeys fields.
Proof.
  unfold recordKeys. induction fields as [|[k v] rest IH]; simpl.
  - rewrite list_elem_of_singleton. split; [by left|].
    intros [->|Hin]; [done|]. by apply elem_of_nil in Hin.
  - destruct (String.eqb_spec k key') as [->|Hk]; simpl.
    + rewrite !elem_of_cons. tauto.
    + rewrite !elem_of_cons, IH. tauto.
Qed.

Lemma callTimes_app callee t1 t2 :
  callTimes callee (t1 ++ t2) = callTimes callee t1 ++ callTimes callee t2.
Proof.
  induction t1 as [|[ms|c at_ inner] rest IH]; simpl; [done|done|].
  destruct (String.eqb c callee); simpl; by rewrite IH.
Qed.

Lemma lookupTypes_spec fetch enc meanwhile domain types results h :
  ∃ results' h' t,
    DNS.lookupTypes fetch enc meanwhile domain types results h
    = (Return results', h', t)
    ∧ invocations "fetch" t = length types
    ∧ (NoDup types → (∀ k, k ∈ types → k ∉ recordKeys results) →
       ∃ ks, sublist ks types ∧ recordKeys results' = recordKeys results ++ ks)
    ∧ (Forall Stored results → Forall Stored results')
    ∧ (∀ k, k ∉ types →
            assoc k results' = assoc k results
            ∧ (k ∈ recordKeys results' ↔ k ∈ recordKeys results))
    ∧ (NoDup types →
       ∀ type, type ∈ types →
         (∀ values,
            Answers fetch (DNS.url enc domain type) values →
            assoc type results' = JArray values
            ∧ type ∈ recordKeys results')
         ∧ (Unanswered fetch (DNS.url enc domain type) →
            type ∉ recordKeys results → type ∉ recordKeys results'))
    ∧ (PassiveFetch fetch → Quiet "dns" meanwhile →
       Spaced 100 (callTimes "fetch" t)
       ∧ Forall (λ g, nextGrant h ≤ g) (callTimes "fetch" t)).
Proof.
  revert results h. induction types as [|type rest IH]; intros results h.
  - exists results, h, []. split; [done|]. split; [done|].
    split; [intros _ _; exists []; by rewrite app_nil_r|].
    split; [done|]. split; [done|].
    split; [intros _ type Hin; by apply elem_of_nil in Hin|].
    intros _ _. split; [done|constructor].
  - cbn [DNS.lookupTypes]. unfold bind.
    destruct (lookupType_spec fetch enc meanwhile domain type results h)
      as (results1 & h1 & t0 & t1 & -> & Hf0 & Hf1 & Hc0 & Hc1 & Hres & Hp).
    destruct (IH results1 h1)
      as (results' & h' & t & -> & Hinv & Hkeys & Hstored & Hkept & Hlisted
          & Hspaced).
    eexists _, _, _. split; [done|]. split.
    { rewrite !invocations_app. unfold invocations in *.
      rewrite Hf0. simpl. rewrite Hf1. simpl. by rewrite Hinv. }
    split.
    { intros [Hnot Hnodup]%NoDup_cons Hfresh.
      assert (Hfresh1 : ∀ k, k ∈ rest → k ∉ recordKeys results1).
      { intros k Hk. destruct Hres as [[-> _]|(v & vs & -> & _)].
        - apply Hfresh. by right.
        - rewrite recordKeys_setProp by (apply Hfresh; by left).
          rewrite elem_of_app, list_elem_of_singleton.
          intros [Hin| ->]; [|done]. revert Hin. apply Hfresh. by right. }
      destruct (Hkeys Hnodup Hfresh1) as (ks & Hsub & ->).
      destruct Hres as [[-> _]|(v & vs & -> & _)].
      - exists ks. split; [by apply sublist_cons|done].
      - exists (type :: ks). split; [by apply sublist_skip|].
        rewrite recordKeys_setProp by (apply Hfresh; by left).
        by rewrite <- app_assoc. }
    split.
    { intros Hall. apply Hstored.
      destruct Hres as [[-> _]|(v & vs & -> & _)]; [done|].
      by apply Stored_setProp. }
    assert (Hstep : ∀ k, k ≠ type →
              assoc k results1 = assoc k results
              ∧ (k ∈ recordKeys results1 ↔ k ∈ recordKeys results)).
    { intros k Hne. destruct Hres as [[-> _]|(v & vs & -> & _)]; [done|].
      rewrite assoc_setProp_ne by done. split; [done|].
      rewrite recordKeys_setProp_elem. tauto. }
    split.
    { intros k Hk. apply not_elem_of_cons in Hk as [Hne Hk].
      destruct (Hkept k Hk) as [Hassoc Hmem].
      destruct (Hstep k Hne) as [Hassoc' Hmem'].
      split; [congruence|tauto]. }
    split.
    { intros [Hnot Hnodup]%NoDup_cons type' Hin.
      apply elem_of_cons in Hin as [->|Hin].
      - destruct (Hkept type Hnot) as [Hassoc Hmem]. split.
        + intros values Hans. rewrite Hassoc, Hmem.
          destruct Hres as [[_ Hno]|(v & vs & -> & Hyes)].
          * destruct (Hno values). apply Hans.
          * rewrite (AnsweredAt_functional _ _ _ _ _ (Hans _) Hyes).
            rewrite assoc_setProp_eq. split; [done|].
            apply recordKeys_setProp_elem. by left.
        + intros Hun Hout. rewrite Hmem.
          destruct Hres as [[-> _]|(v & vs & -> & Hyes)]; [done|].
          by destruct (Hun _ _ Hyes).
      - assert (Hne : type' ≠ type) by (by intros ->).
        destruct (Hlisted Hnodup type' Hin) as [Hans Hun].
        split; [exact Hans|].
        intros Hno Hout. apply (Hun Hno).
        by rewrite (proj2 (Hstep type' Hne)). }
    intros Hpassive Hquiet. destruct (Hp Hpassive) as [Hnow Hrate].
    destruct (Hspaced Hpassive Hquiet) as [Hsp Hlow].
    rewrite !callTimes_app, Hc0. cbn [callTimes app].
    rewrite String.eqb_refl, Hc1. cbn [app].
    set (since := now h - default 0 (rateLimits h !! "dns")) in *.
    set (h0 := if since <? 100
               then meanwhile (elapse (100 - since) h) else h) in *.
    assert (Hg : nextGrant h ≤ now h0).
    { unfold h0, nextGrant, since.
      destruct (Z.ltb_spec (now h - default 0 (rateLimits h !! "dns")) 100);
        [|lia].
      destruct (Hquiet (elapse
                          (100 - (now h - default 0 (rateLimits h !! "dns")))
                          h)) as [Hclock _].
      simpl in Hclock. lia. }
    assert (Hnext : now h0 + 100 ≤ nextGrant h1).
    { unfold nextGrant. rewrite Hrate. simpl.
      rewrite lookup_insert_eq. simpl. lia. }
    simpl in Hnow. split.
    + simpl. split; [|done].
      destruct (callTimes "fetch" t) as [|g ts]; [done|].
      apply Forall_cons in Hlow as [Hlow _]. lia.
    + constructor; [simpl; lia|]. eapply Forall_impl; [exact Hlow|].
      intros g Hge. simpl in Hge. lia.
Qed.

Lemma callTimes_length callee t :
  length (callTimes callee t) = invocations callee t.
Proof.
  unfold invocations.
  induction t as [|[ms|c at_ inner] rest IH]; simpl; [done|done|].
  destruct (String.eqb c callee); simpl; by rewrite IH.
Qed.

Lemma getDNSRecords_spec fetch enc meanwhile domain h :
  ∃ results h' t,
    DNS.getDNSRecords fetch enc meanwhile domain h
    = (Return (dnsAnswer domain results), h', t)
    ∧ invocations "fetch" t = 6%nat
    ∧ recordKeys results `sublist_of` DNS.recordTypes
    ∧ Forall Stored results
    ∧ (∀ type, type ∈ DNS.recordTypes →
         (∀ values,
            Answers fetch (DNS.url enc domain type) values →
            assoc type results = JArray values
            ∧ type ∈ recordKeys results)
         ∧ (Unanswered fetch (DNS.url enc domain type) →
            type ∉ recordKeys results))
    ∧ (PassiveFetch fetch → Quiet "dns" meanwhile →
       Spaced 100 (callTimes "fetch" t)
       ∧ Forall (λ g, nextGrant h ≤ g) (callTimes "fetch" t)).
Proof.
  destruct (lookupTypes_spec fetch enc meanwhile domain DNS.recordTypes [] h)
    as (results & h' & t & Hrun & Hinv & Hkeys & Hstored & _ & Hlisted
        & Hspaced).
  assert (Hnd : NoDup DNS.recordTypes) by compute_done.
  exists results, h', t. split.
  { unfold DNS.getDNSRecords, tryCatch, bind. rewrite Hrun. simpl.
    by rewrite app_nil_r. }
  split; [done|]. split.
  { destruct Hkeys as (ks & Hsub & Hks).
    - done.
    - intros k _. unfold recordKeys. simpl. apply not_elem_of_nil.
    - by rewrite Hks. }
  split; [by apply Hstored|]. split; [|done].
  intros type Hin. destruct (Hlisted Hnd type Hin) as [Hans Hun].
  split; [exact Hans|]. intros Hno. apply (Hun Hno).
  unfold recordKeys. simpl. apply not_elem_of_nil.
Qed.


(** X19. The six requests of [getDNSRecords] go through the limiter: with
    a [fetch] that neither turns the clock back nor touches the limiter's
    record, and provided that nothing else on the page is granted a DNS
    request or turns the clock back while the limiter sleeps, each request
    starts at least 100 ms after the one before, and none before 100 ms have
    passed since the last DNS request made earlier. *)
Theorem getDNSRecords_spaced fetch encodeURIComponent meanwhile domain h :
  PassiveFetch fetch →
  Quiet "dns" meanwhile →
  let times :=
    callTimes "fetch"
      (DNS.getDNSRecords fetch encodeURIComponent meanwhile domain h).2 in
  length times = 6%nat
  ∧ Spaced 100 times
  ∧ Forall (λ g, now h ≤ g ∧ default 0 (rateLimits h !! "dns") + 100 ≤ g)
      times.
Proof.
  intros Hpassive Hquiet. cbv zeta.
  destruct (getDNSRecords_spec fetch encodeURIComponent meanwhile domain h)
    as (results & h' & t & -> & Hinv & _ & _ & _ & Hspaced).
  destruct (Hspaced Hpassive Hquiet) as [Hsp Hlow]. cbn [snd].
  split; [by rewrite callTimes_length|]. split; [done|].
  eapply Forall_impl; [exact Hlow|]. unfold nextGrant. intros g Hg. lia.
Qed.

Lemma getDNSRecords_spaced_witness :
  let times :=
    callTimes "fetch"
      (DNS.getDNSRecords (answeringFetch 30) (λ _, "example.com") alone
         (JString "example.com") (emptyHeap 5000)).2 in
  length times = 6%nat
  ∧ Spaced 100 times
  ∧ Forall (λ g, now (emptyHeap 5000) ≤ g
                 ∧ default 0 (rateLimits (emptyHeap 5000) !! "dns") + 100 ≤ g)
      times.
Proof.
  apply (getDNSRecords_spaced (answeringFetch 30) (λ _, "example.com") alone
           (JString "example.com") (emptyHeap 5000)).
  - intros url. split.
    + intros h. simpl. split; [lia|done].
    + intros h response [= <-] h'. simpl. split; [lia|done].
  - by intros h.
Defined.

(** ** The e-mail intelligence of the collector *)

Lemma split_first sep l :
  ∃ u rest,
    Analysis.split sep l = u :: rest ∧ ¬ In sep u
    ∧ ((rest = [] ∧ l = u)
       ∨ ∃ r, l = u ++ sep :: r ∧ rest = Analysis.split sep r).
Proof.
  induction l as [|c l (u & rest & Hs & Hnot & Hcases)].
  - exists [], []. split; [done|]. split; [by intros []|by left].
  - simpl. destruct (Ascii.eqb_spec c sep) as [->|Hne].
    + exists [], (Analysis.split sep l). split; [done|].
      split; [by intros []|]. right. by exists l.
    + rewrite Hs. exists (c :: u), rest. split; [done|]. split.
      * intros [Heq|Hin]; [done|by apply Hnot].
      * destruct Hcases as [[-> ->]|(r & -> & ->)]; [by left|].
        right. by exists r.
Qed.


Lemma assoc_addFound key outcome fields :
  assoc key fields = JUndefined →
  assoc key (Presence.addFound key outcome fields) = reported outcome.
Proof.
  intros Hnone. unfold Presence.addFound, reported.
  destruct outcome as [value|reason]; [|done].
  destruct (truthy (assoc "found" value)); [|done].
  apply assoc_setProp_eq.
Qed.

Lemma assoc_addFound_ne key key' outcome fields :
  key ≠ key' →
  assoc key (Presence.addFound key' outcome fields) = assoc key fields.
Proof.
  intros Hne. unfold Presence.addFound.
  destruct outcome as [value|reason]; [|done].
  destruct (truthy (assoc "found" value)); [|done].
  by apply assoc_setProp_ne.
Qed.

(** X20. The collector's [analyzeEmail] does not validate the address.  On
    a text without an at sign it raises a type error (the domain is
    [undefined]), whatever the lookups did.  On any text with an at sign it
    returns with [found] true: the username is the text before the first
    at sign, the domain the text between the first and the second, if there
    is one; the social analysis of the username is always attached, and
    the DNS and certificate results exactly when their lookup resolved with
    a truthy [found]. *)
Theorem collector_analyzeEmail domainDNS domainCerts email :
  (Analysis.includes "@" email = false →
   ∃ message,
     Presence.analyzeEmail domainDNS domainCerts email = Throw message)
  ∧ (Analysis.includes "@" email = true →
     ∃ username domain rest fields,
       chars email = chars username ++ "@"%char :: chars domain ++ rest
       ∧ (rest = [] ∨ head rest = Some "@"%char)
       ∧ Analysis.includes "@" username = false
       ∧ Analysis.includes "@" domain = false
       ∧ Presence.analyzeEmail domainDNS domainCerts email = Return fields
       ∧ assoc "found" fields = JBool true
       ∧ assoc "username" fields = JString username
       ∧ assoc "domain" fields = JString domain
       ∧ assoc "socialProfiles" fields
         = JObject (Presence.checkSocialPresence username)
       ∧ assoc "domainDNS" fields = reported domainDNS
       ∧ assoc "domainCertificates" fields = reported domainCerts).
Proof.
  split.
  - intros Hno. unfold Presence.analyzeEmail, Structure.split.
    fold (chars email). rewrite split_whole; [by eexists|].
    rewrite <- includes_In. by rewrite Hno.
  - intros Hat%includes_In.
    destruct (split_first "@" (chars email))
      as (u & rest1 & Hs1 & Hu & [[-> Heq]|(r & Heq & ->)]).
    { by rewrite Heq in Hat. }
    destruct (split_first "@" r) as (d & rest2 & Hs2 & Hd & Hcases).
    exists (str u), (str d).
    exists (drop (length d) r). eexists. rewrite !chars_str.
    split.
    { rewrite Heq. destruct Hcases as [[_ ->]|(r' & -> & _)].
      - by rewrite drop_all, app_nil_r.
      - by rewrite drop_app_length. }
    split.
    { destruct Hcases as [[_ ->]|(r' & -> & _)].
      - left. apply drop_all.
      - right. by rewrite drop_app_length. }
    split; [apply not_true_is_false; by rewrite includes_In, chars_str|].
    split; [apply not_true_is_false; by rewrite includes_In, chars_str|].
    assert (Hparts : ∃ more, Structure.split "@" email
                             = str u :: str d :: more).
    { unfold Structure.split. fold (chars email). rewrite Hs1, Hs2.
      by eexists. }
    destruct Hparts as [more Hparts].
    split.
    { unfold Presence.analyzeEmail. rewrite Hparts.
      cbn [lookup list_lookup]. reflexivity. }
    rewrite !assoc_setProp_ne, !assoc_addFound_ne by done.
    do 3 (split; [done|]).
    split; [apply assoc_setProp_eq|].
    split.
    + rewrite assoc_setProp_ne, assoc_addFound_ne by done.
      by apply assoc_addFound.
    + rewrite assoc_setProp_ne by done.
      apply assoc_addFound. by rewrite assoc_addFound_ne.
Qed.



(** ** The certificate lookup of the collector *)











